(** * solid-iot-sync: the synchronization engine of [sync.ts]

    A shallow embedding of the engine that mirrors HomeKit characteristics
    into a Solid pod and back, and the properties of its forward sync,
    reverse sync, change cache, value codec and resource naming.

    Layout: the JavaScript values the engine computes with ([Js]), the
    Solid client's things and datasets ([Solid]), the HomeKit client's
    types, the world the engine acts on and its monad ([Effects]), the
    functions of [sync.ts] ([Sync]), the vocabulary of the specification
    ([Spec]), a small home for the examples ([Scenario], [Cases]), runs of
    the two monitors ([Events]), and then the properties, by component. *)

From Stdlib Require Import ZArith String Ascii List Bool Lia.
From Stdlib Require Import DecimalString DecimalPos DecimalFacts.
From stdpp Require Import base option strings list gmap.

Local Open Scope string_scope.
Local Open Scope Z_scope.

(** ** JavaScript values *)

Module Js.

(** A JavaScript number.  A finite number is kept as the exact decimal
    [m * 10^e]: every finite double is such a decimal, and so is every
    numeric literal of a message or of the pod.  Rounding to 53 bits and
    the sign of zero are not tracked (neither is observable through [==],
    [parseInt], [parseFloat] or string conversion of a short decimal). *)
Inductive number : Type :=
  | NaN
  | Infinity (negative : bool)
  | Finite (m e : Z).

(** [characteristic.value] is declared [number | string | boolean]. *)
Inductive value : Type :=
  | VBool (b : bool)
  | VNum (n : number)
  | VStr (s : string).

Definition of_Z (z : Z) : number := Finite z 0.

Definition isNaN (n : number) : bool :=
  match n with NaN => true | _ => false end.

(** [Number::equal]: NaN differs from everything, itself included. *)
Definition number_eqb (x y : number) : bool :=
  match x, y with
  | Infinity a, Infinity b => Bool.eqb a b
  | Finite m1 e1, Finite m2 e2 =>
      let e := Z.min e1 e2 in
      (m1 * 10 ^ (e1 - e) =? m2 * 10 ^ (e2 - e))%Z
  | _, _ => false
  end.

(** *** Characters *)

Definition code (c : ascii) : N := N_of_ascii c.

Definition is_letter (c : ascii) : bool :=
  ((65 <=? code c) && (code c <=? 90) || (97 <=? code c) && (code c <=? 122))%N.

Definition is_digit (c : ascii) : bool :=
  ((48 <=? code c) && (code c <=? 57))%N.

(** White space and line terminators, on the one-byte characters. *)
Definition is_space (c : ascii) : bool :=
  ((9 <=? code c) && (code c <=? 13) || (code c =? 32))%N.

Definition digit_val (c : ascii) : option Z :=
  let n := code c in
  if ((48 <=? n) && (n <=? 57))%N then Some (Z.of_N n - 48)
  else if ((97 <=? n) && (n <=? 122))%N then Some (Z.of_N n - 87)
  else if ((65 <=? n) && (n <=? 90))%N then Some (Z.of_N n - 55)
  else None.

Definition is_radix_digit (radix : Z) (c : ascii) : bool :=
  match digit_val c with Some d => d <? radix | None => false end.

(** *** Scanning numerals *)

Fixpoint span {A} (p : A -> bool) (l : list A) : list A * list A :=
  match l with
  | [] => ([], [])
  | x :: l' =>
      if p x then let '(a, b) := span p l' in (x :: a, b) else ([], l)
  end.

Definition digits_value (radix : Z) (ds : list ascii) : Z :=
  fold_left (fun acc c => radix * acc + default 0 (digit_val c)) ds 0.

Definition trimStart (cs : list ascii) : list ascii := snd (span is_space cs).

Definition trim (cs : list ascii) : list ascii :=
  rev (trimStart (rev (trimStart cs))).

(** An optional sign: [true] when it is a minus. *)
Definition scan_sign (cs : list ascii) : bool * list ascii :=
  match cs with
  | "-"%char :: r => (true, r)
  | "+"%char :: r => (false, r)
  | _ => (false, cs)
  end.

Definition negate (neg : bool) (n : number) : number :=
  if neg then
    match n with
    | NaN => NaN
    | Infinity b => Infinity (negb b)
    | Finite m e => Finite (- m) e
    end
  else n.

(** [ExponentPart]: [e] or [E], an optional sign, at least one digit.
    Nothing is consumed when that shape is not there. *)
Definition scan_exponent (cs : list ascii) : Z * list ascii :=
  match cs with
  | c :: r =>
      if (c =? "e")%char || (c =? "E")%char then
        let '(neg, r1) := scan_sign r in
        let '(ds, r2) := span is_digit r1 in
        match ds with
        | [] => (0, cs)
        | _ => ((if neg then - digits_value 10 ds else digits_value 10 ds), r2)
        end
      else (0, cs)
  | [] => (0, cs)
  end.

Fixpoint strip_prefix (p cs : list ascii) : option (list ascii) :=
  match p, cs with
  | [], _ => Some cs
  | a :: p', c :: cs' => if (a =? c)%char then strip_prefix p' cs' else None
  | _ :: _, [] => None
  end.

(** The longest prefix that is a [StrUnsignedDecimalLiteral], with what
    follows it. *)
Definition scan_unsigned_decimal (cs : list ascii)
    : option (number * list ascii) :=
  match strip_prefix (list_ascii_of_string "Infinity") cs with
  | Some r => Some (Infinity false, r)
  | None =>
      let '(ints, r1) := span is_digit cs in
      let '(fracs, r2) :=
        match r1 with
        | "."%char :: r =>
            let '(fs, r') := span is_digit r in
            match ints, fs with
            | [], [] => ([], r1)
            | _, _ => (fs, r')
            end
        | _ => ([], r1)
        end in
      match ints, fracs with
      | [], [] => None
      | _, _ =>
          let '(ex, r3) := scan_exponent r2 in
          Some (Finite (digits_value 10 (ints ++ fracs))
                       (ex - Z.of_nat (length fracs)), r3)
      end
  end.

Definition scan_decimal (cs : list ascii) : option (number * list ascii) :=
  let '(neg, r) := scan_sign cs in
  match scan_unsigned_decimal r with
  | Some (n, r') => Some (negate neg n, r')
  | None => None
  end.

(** [parseFloat(string)]. *)
Definition parseFloat (s : string) : number :=
  match scan_decimal (trimStart (list_ascii_of_string s)) with
  | Some (n, _) => n
  | None => NaN
  end.

(** [parseInt(string)] with no radix argument. *)
Definition parseInt (s : string) : number :=
  let '(neg, r) := scan_sign (trimStart (list_ascii_of_string s)) in
  let '(radix, r1) :=
    match r with
    | "0"%char :: x :: r' =>
        if (x =? "x")%char || (x =? "X")%char then (16, r') else (10, r)
    | _ => (10, r)
    end in
  let '(ds, _) := span (is_radix_digit radix) r1 in
  match ds with
  | [] => NaN
  | _ => negate neg (of_Z (digits_value radix ds))
  end.

(** [parseInt(string, 10)]: the radix is given, so no [0x] prefix is
    looked for. *)
Definition parseInt10 (s : string) : number :=
  let '(neg, r) := scan_sign (trimStart (list_ascii_of_string s)) in
  let '(ds, _) := span (is_radix_digit 10) r in
  match ds with
  | [] => NaN
  | _ => negate neg (of_Z (digits_value 10 ds))
  end.

(** [NonDecimalIntegerLiteral]: [0x], [0o] or [0b] and digits, no sign. *)
Definition scan_non_decimal (cs : list ascii) : option number :=
  match cs with
  | "0"%char :: x :: r =>
      let radix :=
        if (x =? "x")%char || (x =? "X")%char then Some 16
        else if (x =? "o")%char || (x =? "O")%char then Some 8
        else if (x =? "b")%char || (x =? "B")%char then Some 2
        else None in
      match radix, r with
      | Some rx, _ :: _ =>
          if forallb (is_radix_digit rx) r
          then Some (of_Z (digits_value rx r)) else None
      | _, _ => None
      end
  | _ => None
  end.

(** [StringToNumber]: the whole trimmed string must be a numeral; the
    empty string is 0. *)
Definition string_to_number (s : string) : number :=
  let cs := trim (list_ascii_of_string s) in
  match cs with
  | [] => of_Z 0
  | _ =>
      match scan_non_decimal cs with
      | Some n => n
      | None =>
          match scan_decimal cs with
          | Some (n, []) => n
          | _ => NaN
          end
      end
  end.

(** [ToNumber], which is also unary [+]. *)
Definition to_number (v : value) : number :=
  match v with
  | VBool b => of_Z (if b then 1 else 0)
  | VNum n => n
  | VStr s => string_to_number s
  end.

(** *** Conversion to strings *)

Definition digits_of (p : positive) : list ascii :=
  list_ascii_of_string (NilZero.string_of_uint (Pos.to_uint p)).

Definition strip_trailing_zeros (ds : list ascii) : list ascii * nat :=
  let '(zs, r) := span (fun c => (c =? "0")%char) (rev ds) in
  (rev r, length zs).

Definition exponent_to_string (ex : Z) : list ascii :=
  match ex with
  | Z0 => ["+"; "0"]%char
  | Zpos p => "+"%char :: digits_of p
  | Zneg p => "-"%char :: digits_of p
  end.

(** [Number::toString] of the positive decimal [p * 10^e]: plain digits
    up to 21 of them, a decimal point down to [1e-6], and the exponent
    form outside. *)
Definition positive_to_string (p : positive) (e : Z) : list ascii :=
  let '(ds, z) := strip_trailing_zeros (digits_of p) in
  let k := Z.of_nat (length ds) in
  let n := k + e + Z.of_nat z in
  if (k <=? n) && (n <=? 21) then
    ds ++ replicate (Z.to_nat (n - k)) "0"%char
  else if (0 <? n) && (n <=? 21) then
    take (Z.to_nat n) ds ++ "."%char :: drop (Z.to_nat n) ds
  else if (-6 <? n) && (n <=? 0) then
    "0"%char :: "."%char :: replicate (Z.to_nat (- n)) "0"%char ++ ds
  else
    match ds with
    | [] => []
    | [d] => d :: "e"%char :: exponent_to_string (n - 1)
    | d :: rest =>
        d :: "."%char :: rest ++ "e"%char :: exponent_to_string (n - 1)
    end.

Definition number_to_string (n : number) : string :=
  match n with
  | NaN => "NaN"
  | Infinity false => "Infinity"
  | Infinity true => "-Infinity"
  | Finite Z0 _ => "0"
  | Finite (Zpos p) e => string_of_list_ascii (positive_to_string p e)
  | Finite (Zneg p) e =>
      String "-" (string_of_list_ascii (positive_to_string p e))
  end.

(** [ToString], which is what a template literal applies. *)
Definition to_string (v : value) : string :=
  match v with
  | VBool true => "true"
  | VBool false => "false"
  | VNum n => number_to_string n
  | VStr s => s
  end.

(** *** Equality *)

(** [x === y]. *)
Definition strict_eq (x y : value) : bool :=
  match x, y with
  | VBool a, VBool b => Bool.eqb a b
  | VNum a, VNum b => number_eqb a b
  | VStr a, VStr b => String.eqb a b
  | _, _ => false
  end.

(** [x == y]: operands of one type compare strictly; otherwise a
    boolean and a string are first converted to numbers. *)
Definition loose_eq (x y : value) : bool :=
  match x, y with
  | VBool _, VBool _ | VNum _, VNum _ | VStr _, VStr _ => strict_eq x y
  | _, _ => number_eqb (to_number x) (to_number y)
  end.

(** [typeof value === "string" ? parseInt(value) : +value]. *)
Definition to_integer_literal (v : value) : number :=
  match v with
  | VStr s => parseInt s
  | _ => to_number v
  end.

(** [typeof value === "string" ? parseFloat(value) : +value]. *)
Definition to_decimal_literal (v : value) : number :=
  match v with
  | VStr s => parseFloat s
  | _ => to_number v
  end.

(** [s.replace(/[^A-Za-z]/g, "")]: every character that is not an ASCII
    letter is replaced by nothing, left to right. *)
Fixpoint replace_non_letters (s : string) : string :=
  match s with
  | EmptyString => EmptyString
  | String c s' =>
      if is_letter c then String c (replace_non_letters s')
      else replace_non_letters s'
  end.

(** [s.slice(0, n)] and [s.slice(n)] for a string [s]. *)
Fixpoint slice_to (n : nat) (s : string) : string :=
  match n, s with
  | S n', String c s' => String c (slice_to n' s')
  | _, _ => EmptyString
  end.

Fixpoint slice_from (n : nat) (s : string) : string :=
  match n, s with
  | S n', String _ s' => slice_from n' s'
  | _, _ => s
  end.

End Js.

(** ** The Solid client: things, datasets, resources

    [@inrupt/solid-client] is a collaborator of the engine.  A thing is a
    named list of typed attributes, in the order they were added; a getter
    returns the first value of the asked type under a predicate, and
    [null] ([None]) when there is none.

    A literal is kept in a thing by its lexical form: [addInteger] and
    [addDecimal] store [value.toString()], and [getInteger] and
    [getDecimal] read that text back with [Number.parseInt(text, 10)] and
    [Number.parseFloat(text)], giving [null] when the result is NaN.  Here
    a numeric literal holds the number it was made from and the getters
    print and parse it. *)

Module Solid.
Import Js.

Inductive Literal : Type :=
  | Url (u : string)
  | StringNoLocale (s : string)
  | Integer (n : number)
  | Decimal (n : number).

Record Thing : Type := {
  name : string;
  attributes : list (string * Literal);
}.

Abbreviation UrlString := string.
Abbreviation SolidDataset := (list Thing).

(** A dataset that was saved to or fetched from a URL: its
    [internal_resourceInfo.sourceIri] and its things.  The client takes
    [sourceIri] from the response ([response.url]).  URLs are taken here
    in the form the URL parser prints them and requests as not redirected,
    so that the response's URL is the URL that was asked; a URL with
    characters the parser escapes (a space in a group name, for one) is
    outside this. *)
Record WithResourceInfo : Type := {
  sourceIri : UrlString;
  things : SolidDataset;
}.

Definition createThing (n : string) : Thing :=
  {| name := n; attributes := [] |}.

Definition add (thing : Thing) (property : string) (l : Literal) : Thing :=
  {| name := name thing; attributes := attributes thing ++ [(property, l)] |}.

Definition addUrl thing property (u : UrlString) := add thing property (Url u).
Definition addStringNoLocale thing property (s : string) :=
  add thing property (StringNoLocale s).
Definition addInteger thing property (n : number) := add thing property (Integer n).
Definition addDecimal thing property (n : number) := add thing property (Decimal n).

(** [setUrl] drops the values the property had. *)
Definition setUrl (thing : Thing) (property : string) (u : UrlString) : Thing :=
  {| name := name thing;
     attributes :=
       filter (fun a => fst a ≠ property) (attributes thing)
       ++ [(property, Url u)] |}.

Fixpoint first_of {A} (pick : Literal -> option A) (property : string)
    (l : list (string * Literal)) : option A :=
  match l with
  | [] => None
  | (p, v) :: l' =>
      if String.eqb p property then
        match pick v with
        | Some a => Some a
        | None => first_of pick property l'
        end
      else first_of pick property l'
  end.

Definition getUrlAll (thing : Thing) (property : string) : list UrlString :=
  omap (fun a => if String.eqb (fst a) property
                 then match snd a with Url u => Some u | _ => None end
                 else None) (attributes thing).

Definition getStringNoLocale (thing : Thing) (property : string) : option string :=
  first_of (fun v => match v with StringNoLocale s => Some s | _ => None end)
    property (attributes thing).

Definition number_or_null (n : number) : option number :=
  if isNaN n then None else Some n.

(** The literal of [addInteger(thing, property, n)], which is
    [n.toString()], as [getInteger] reads it. *)
Definition deserializeInteger (n : number) : option number :=
  number_or_null (parseInt10 (number_to_string n)).

(** The literal of [addDecimal(thing, property, n)] as [getDecimal] reads
    it. *)
Definition deserializeDecimal (n : number) : option number :=
  number_or_null (parseFloat (number_to_string n)).

Definition getInteger (thing : Thing) (property : string) : option number :=
  first_of (fun v => match v with Integer n => Some n | _ => None end)
    property (attributes thing) ≫= deserializeInteger.

Definition getDecimal (thing : Thing) (property : string) : option number :=
  first_of (fun v => match v with Decimal n => Some n | _ => None end)
    property (attributes thing) ≫= deserializeDecimal.

Definition createSolidDataset : SolidDataset := [].

(** [setThing] replaces the thing of that name, or adds it. *)
Fixpoint setThing (data : SolidDataset) (thing : Thing) : SolidDataset :=
  match data with
  | [] => [thing]
  | t :: data' =>
      if String.eqb (name t) (name thing) then thing :: data'
      else t :: setThing data' thing
  end.

(** In a resource, a thing created with a local name [n] has the URL
    [sourceIri#n]. *)
Definition getThing (data : WithResourceInfo) (thingUrl : UrlString)
    : option Thing :=
  List.find (fun t => String.eqb (sourceIri data +:+ "#" +:+ name t) thingUrl)
    (things data).

End Solid.

(** ** The HomeKit client's types

    [@oznu/hap-client] declares them; the fields are those [sync.ts]
    reads.  [setValue] tells whether the write capability is attached
    (the code calls it as [curr.setValue?.(value)]). *)

Module Characteristic.
Record t : Type := {
  iid : Js.number;
  uuid : string;
  type : string;
  description : string;
  value : Js.value;
  format : string;
  unit : option string;
  canRead : bool;
  canWrite : bool;
  setValue : bool;
}.

Definition with_value (v : Js.value) (c : t) : t :=
  {| iid := iid c; uuid := uuid c; type := type c;
     description := description c; value := v; format := format c;
     unit := unit c; canRead := canRead c; canWrite := canWrite c;
     setValue := setValue c |}.
End Characteristic.

Module Service.
Record t : Type := {
  aid : Js.number;
  uuid : string;
  type : string;
  serviceName : string;
  uniqueId : string;
  serviceCharacteristics : list Characteristic.t;
}.
End Service.

Abbreviation CharacteristicType := Characteristic.t.
Abbreviation ServiceType := Service.t.

(** ** The world the engine acts on

    An [async] function is a computation on the world that is fulfilled
    with a value or rejected with an error.  A call runs to its end: the
    suspension at an [await] is not modelled as a point where another
    handler runs. *)

Module Effects.
Import Solid.

(** A request the engine sent to the pod. *)
Inductive Request : Type :=
  | Put (url : UrlString) (data : SolidDataset)
  | Get (url : UrlString).

Inductive Error : Type :=
  | RemoteWriteError (url : UrlString)
  | RemoteFetchError (url : UrlString)
  | ThingExpectedError
  | LocalWriteError.

(** How the device takes a [setValue] call: it takes the write and the
    characteristic read back holds [v]; or the call resolves with no
    characteristic (the case [updated && ...] guards against); or the
    accessory refuses and the client throws ("Failed to control
    accessory"). *)
Inductive Answer : Type :=
  | Confirms (v : Js.value)
  | Silent
  | Refuses.

(** How a promise settles. *)
Inductive Result (A : Type) : Type :=
  | Fulfilled (a : A)
  | Rejected (e : Error).
Arguments Fulfilled {A} a.
Arguments Rejected {A} e.

(** - [characteristics] is the module's [Map] from resource URL to the
      last characteristic synced there: the change cache;
    - [pod] is what the remote store holds, [requests] every request
      sent to it, oldest first, and [network] how the coming requests
      will go ([false]: the request fails; none left: it succeeds);
    - [local_writes] are the [setValue] calls made on the device bus and
      [bus] how the coming ones will go (none left: the device confirms
      the value it was given);
    - [console] is what [log] printed. *)
Record World : Type := {
  characteristics : gmap string CharacteristicType;
  pod : gmap string SolidDataset;
  requests : list Request;
  network : list bool;
  local_writes : list (CharacteristicType * Js.value);
  bus : list Answer;
  console : list (string * string * string);
}.

Definition M (A : Type) : Type := World -> Result A * World.

Definition ret {A} (a : A) : M A := fun w => (Fulfilled a, w).

Definition bind {A B} (m : M A) (k : A -> M B) : M B :=
  fun w =>
    match m w with
    | (Fulfilled a, w') => k a w'
    | (Rejected e, w') => (Rejected e, w')
    end.

Definition throw {A} (e : Error) : M A := fun w => (Rejected e, w).

Declare Scope js_scope.
Delimit Scope js_scope with js.
Notation "'await' x <- m ; k" := (bind m (fun x => k))
  (at level 10, x name, m at level 100, k at level 200) : js_scope.
Notation "m ;; k" := (bind m (fun _ => k))
  (at level 100, k at level 200, right associativity) : js_scope.

(** *** The change cache *)

Definition cache_get (url : string) : M (option CharacteristicType) :=
  fun w => (Fulfilled (characteristics w !! url), w).

Definition cache_set (url : string) (c : CharacteristicType) : M () :=
  fun w =>
    (Fulfilled tt,
     {| characteristics := <[url := c]> (characteristics w);
        pod := pod w; requests := requests w; network := network w;
        local_writes := local_writes w; bus := bus w;
        console := console w |}).

(** *** The console *)

Definition print (type context message : string) : M () :=
  fun w =>
    (Fulfilled tt,
     {| characteristics := characteristics w;
        pod := pod w; requests := requests w; network := network w;
        local_writes := local_writes w; bus := bus w;
        console := console w ++ [(type, context, message)] |}).

(** *** The pod *)

Definition sent (r : Request) (store : gmap string SolidDataset) (w : World)
    : World :=
  {| characteristics := characteristics w;
     pod := store; requests := requests w ++ [r]; network := tail (network w);
     local_writes := local_writes w; bus := bus w;
     console := console w |}.

Definition succeeds (w : World) : bool := default true (head (network w)).

(** [saveSolidDatasetAt(url, data, { fetch })]: the resource at [url] is
    replaced by [data]. *)
Definition saveSolidDatasetAt (url : UrlString) (data : SolidDataset)
    : M WithResourceInfo :=
  fun w =>
    if succeeds w then
      (Fulfilled {| sourceIri := url; things := data |},
       sent (Put url data) (<[url := data]> (pod w)) w)
    else (Rejected (RemoteWriteError url), sent (Put url data) (pod w) w).

(** [getSolidDataset(url, { fetch })]. *)
Definition getSolidDataset (url : UrlString) : M WithResourceInfo :=
  fun w =>
    match succeeds w, pod w !! url with
    | true, Some data =>
        (Fulfilled {| sourceIri := url; things := data |},
         sent (Get url) (pod w) w)
    | _, _ => (Rejected (RemoteFetchError url), sent (Get url) (pod w) w)
    end.

(** *** The device bus *)

(** [characteristic.setValue(value)] of the HomeKit client: it sends
    the value to the accessory, reads the characteristic back and resolves
    with it; it rejects when the accessory refuses the write. *)
Definition setValue (c : CharacteristicType) (v : Js.value)
    : M (option CharacteristicType) :=
  fun w =>
    (match default (Confirms v) (head (bus w)) with
     | Confirms v' => Fulfilled (Some (Characteristic.with_value v' c))
     | Silent => Fulfilled None
     | Refuses => Rejected LocalWriteError
     end,
     {| characteristics := characteristics w;
        pod := pod w; requests := requests w; network := network w;
        local_writes := local_writes w ++ [(c, v)]; bus := tail (bus w);
        console := console w |}).

End Effects.

(** ** The functions of [sync.ts] *)

Module Sync.
Import Js Solid Effects.
Local Open Scope js_scope.

(** The command line options the engine reads. *)
Record Argv : Type := {
  homeUrl : string;
  groupName : option string;
  verbose : bool;
}.

Definition IOT (identifier : string) : string :=
  "http://dcg.nz/vocab/iot.ttl#" +:+ identifier.

Definition RDF_type : string :=
  "http://www.w3.org/1999/02/22-rdf-syntax-ns#type".

Section Engine.

Variable argv : Argv.

Definition log (message context type : string) : M () :=
  if verbose argv then print type context message else ret tt.

(** *** Forward sync *)

Definition characteristic_url (device : ServiceType)
    (characteristic : CharacteristicType) : UrlString :=
  homeUrl argv +:+ "/Characteristics/" +:+ Service.uniqueId device
    +:+ "/" +:+ Characteristic.type characteristic.

(** [curr && characteristic.value == curr.value]. *)
Definition unchanged (curr : option CharacteristicType)
    (characteristic : CharacteristicType) : bool :=
  match curr with
  | Some c => loose_eq (Characteristic.value characteristic) (Characteristic.value c)
  | None => false
  end.

Definition characteristic_name (c : CharacteristicType) : string :=
  replace_non_letters (Characteristic.type c)
    +:+ number_to_string (Characteristic.iid c).

(** The thing of a characteristic before its value is added. *)
Definition describe (characteristic : CharacteristicType) : Thing :=
  let thing := createThing (characteristic_name characteristic) in
  let thing := addUrl thing RDF_type (IOT "Characteristic") in
  let thing := addStringNoLocale thing (IOT "desc")
                 (Characteristic.description characteristic) in
  let thing := addStringNoLocale thing (IOT "format")
                 (Characteristic.format characteristic) in
  let thing := addInteger thing (IOT "canRead")
                 (to_number (VBool (Characteristic.canRead characteristic))) in
  let thing := addInteger thing (IOT "canWrite")
                 (to_number (VBool (Characteristic.canWrite characteristic))) in
  let thing := addStringNoLocale thing (IOT "type")
                 (Characteristic.type characteristic) in
  let thing := addInteger thing (IOT "id") (Characteristic.iid characteristic) in
  let thing := addStringNoLocale thing (IOT "uuid")
                 (Characteristic.uuid characteristic) in
  match Characteristic.unit characteristic with
  | Some u => if String.eqb u "" then thing
              else addStringNoLocale thing (IOT "unit") u
  | None => thing
  end.

(** The [switch] on [characteristic.format]. *)
Definition encode (format : string) (value : Js.value) (thing : Thing)
    : M Thing :=
  if String.eqb format "bool" then
    ret (addInteger thing (IOT "value") (to_integer_literal value))
  else if String.eqb format "string" then
    ret (addStringNoLocale thing (IOT "value") (to_string value))
  else if String.eqb format "float" then
    ret (addDecimal thing (IOT "value") (to_decimal_literal value))
  else if String.eqb format "int" || String.eqb format "uint8"
          || String.eqb format "uint16" || String.eqb format "uint32"
          || String.eqb format "uint64" then
    ret (addInteger thing (IOT "value") (to_integer_literal value))
  else
    (log "Unsupported format" "solid" "ERROR" ;; ret thing).

Definition syncCharacteristicToSolid (device : ServiceType)
    (characteristic : CharacteristicType) : M (option WithResourceInfo) :=
  let url := characteristic_url device characteristic in
  await curr <- cache_get url;
  if unchanged curr characteristic then ret None
  else
    let data := createSolidDataset in
    let thing := describe characteristic in
    await thing <- encode (Characteristic.format characteristic)
                     (Characteristic.value characteristic) thing;
    let data := setThing data thing in
    cache_set url characteristic ;;
    await res <- saveSolidDatasetAt url data;
    ret (Some res).

Definition device_name (device : ServiceType) : string :=
  replace_non_letters (Service.serviceName device)
    +:+ number_to_string (Service.aid device).

Definition device_url (device : ServiceType) : UrlString :=
  homeUrl argv +:+ "/Devices/" +:+ Service.uniqueId device.

(** The [for] loop of [syncDeviceToSolid]. *)
Fixpoint link_characteristics (device : ServiceType)
    (cs : list CharacteristicType) (thing : Thing) : M Thing :=
  match cs with
  | [] => ret thing
  | characteristic :: cs' =>
      await res <- syncCharacteristicToSolid device characteristic;
      link_characteristics device cs'
        match res with
        | Some r => addUrl thing (IOT "hasCharacteristic") (sourceIri r)
        | None => thing
        end
  end.

Definition device_thing (device : ServiceType) : Thing :=
  let thing := createThing (device_name device) in
  let thing := addUrl thing RDF_type (IOT "Device") in
  let thing := addStringNoLocale thing (IOT "name") (Service.serviceName device) in
  let thing := addStringNoLocale thing (IOT "type") (Service.type device) in
  let thing := addInteger thing (IOT "id") (Service.aid device) in
  addStringNoLocale thing (IOT "uuid") (Service.uuid device).

Definition syncDeviceToSolid (device : ServiceType) : M WithResourceInfo :=
  let data := createSolidDataset in
  let thing := device_thing device in
  await thing <- link_characteristics device
                   (Service.serviceCharacteristics device) thing;
  let data := setThing data thing in
  saveSolidDatasetAt (device_url device) data.

Definition group_thing (groupName : string) (deviceUrls : list UrlString)
    : Thing :=
  let thing := createThing (replace_non_letters groupName) in
  let thing := addUrl thing RDF_type (IOT "Group") in
  let thing := addStringNoLocale thing (IOT "name") groupName in
  fold_left (fun thing deviceUrl => addUrl thing (IOT "contains") deviceUrl)
    deviceUrls thing.

Definition syncGroupToSolid (groupName : string) (deviceUrls : list UrlString)
    : M WithResourceInfo :=
  let data := setThing createSolidDataset (group_thing groupName deviceUrls) in
  saveSolidDatasetAt (homeUrl argv +:+ "/Groups/" +:+ groupName) data.

(** A call whose promise nobody awaits: its effects stay, its outcome
    is dropped. *)
Definition detached {A} (m : M A) : M () :=
  fun w => (Fulfilled tt, snd (m w)).

(** The [service-update] listener of [monitorHapEvents]. *)
Fixpoint each_characteristic (update : ServiceType)
    (cs : list CharacteristicType) : M () :=
  match cs with
  | [] => ret tt
  | characteristic :: cs' =>
      detached (syncCharacteristicToSolid update characteristic) ;;
      each_characteristic update cs'
  end.

Fixpoint service_update (updates : list ServiceType) : M () :=
  match updates with
  | [] => ret tt
  | update :: updates' =>
      each_characteristic update (Service.serviceCharacteristics update) ;;
      service_update updates'
  end.

(** *** Reverse sync *)

(** The [switch] on the fetched format: [None] is [null]. *)
Definition decode (thing : Thing) : M (option Js.value) :=
  match getStringNoLocale thing (IOT "format") with
  | Some format =>
      if String.eqb format "bool" then
        ret (VNum <$> getInteger thing (IOT "value"))
      else if String.eqb format "string" then
        ret (VStr <$> getStringNoLocale thing (IOT "value"))
      else if String.eqb format "float" then
        ret (VNum <$> getDecimal thing (IOT "value"))
      else if String.eqb format "int" || String.eqb format "uint8"
              || String.eqb format "uint16" || String.eqb format "uint32"
              || String.eqb format "uint64" then
        ret (VNum <$> getInteger thing (IOT "value"))
      else
        (log "Unsupported format" "solid" "ERROR" ;; ret None)
  | None => (log "Unsupported format" "solid" "ERROR" ;; ret None)
  end.

(** [socket.onmessage] of [monitorSolidEvents], on [msg.data]. *)
Definition onmessage (data : string) : M () :=
  if negb (String.eqb data "") && String.eqb (slice_to 3 data) "pub" then
    let resourceUrl := slice_from 4 data in
    await curr <- cache_get resourceUrl;
    match curr with
    | None => ret tt
    | Some curr =>
        await data <- getSolidDataset resourceUrl;
        match getThing data (resourceUrl +:+ "#" +:+ characteristic_name curr) with
        | None => throw ThingExpectedError
        | Some thing =>
            await value <- decode thing;
            match value with
            | Some value =>
                if negb (loose_eq value (Characteristic.value curr)) then
                  await updated <-
                    (if Characteristic.setValue curr
                     then setValue curr value else ret None);
                  match updated with
                  | Some updated => cache_set resourceUrl updated
                  | None => ret tt
                  end
                else ret tt
            | None => ret tt
            end
        end
    end
  else ret tt.

End Engine.

End Sync.

(** ** What the specification names *)

Module Spec.
Import Js Solid Effects Sync.

(** The supported set of formats, as the specification lists it. *)
Definition supported_formats : list string :=
  ["bool"; "string"; "float"; "int"; "uint8"; "uint16"; "uint32"; "uint64"].

Definition supported (format : string) : bool :=
  existsb (String.eqb format) supported_formats.

(** The name with every character that is not an ASCII letter removed. *)
Definition letters_of (s : string) : string :=
  string_of_list_ascii (List.filter is_letter (list_ascii_of_string s)).

(** The three kinds of resource, and the local name of one: the
    letters of its display name, followed by its numeric id unless it is a
    group. *)
Inductive Kind : Type := Group | Device | Characteristic.

Definition local_name (kind : Kind) (display : string) (id : number) : string :=
  match kind with
  | Group => letters_of display
  | Device | Characteristic => letters_of display +:+ number_to_string id
  end.

(** The value the pod holds for a characteristic value of a format:
    text for [string], a decimal for [float], an integer otherwise. *)
Definition stored (format : string) (v : Js.value) : Js.value :=
  if String.eqb format "string" then VStr (to_string v)
  else if String.eqb format "float" then VNum (to_decimal_literal v)
  else VNum (to_integer_literal v).

(** The integer a number is, when it is one. *)
Definition integer_value (n : number) : option Z :=
  match n with
  | Finite m e =>
      if 0 <=? e then Some (m * 10 ^ e)
      else if m mod 10 ^ (- e) =? 0 then Some (m / 10 ^ (- e))
      else None
  | _ => None
  end.

(** An integer of size below 10^21: those [Number::toString] prints in
    plain digits.  Every value of the integer formats, [uint64] included,
    is one. *)
Definition plain_integer (n : number) : bool :=
  match integer_value n with
  | Some z => Z.abs z <? 10 ^ 21
  | None => false
  end.

(** A stored value that the literal of its format carries as it is: any
    text, a decimal that is a number, an integer in plain digits. *)
Definition storable (format : string) (v : Js.value) : bool :=
  match stored format v with
  | VStr _ => true
  | VNum n =>
      if String.eqb format "float" then negb (isNaN n) else plain_integer n
  | VBool _ => false
  end.

(** What the getters of reverse sync read from the literal forward sync
    stores for a value of a supported format. *)
Definition read_back (format : string) (v : Js.value) : option Js.value :=
  if String.eqb format "string" then Some (VStr (to_string v))
  else if String.eqb format "float"
       then VNum <$> deserializeDecimal (to_decimal_literal v)
       else VNum <$> deserializeInteger (to_integer_literal v).

(** The remote writes among the requests. *)
Definition remote_writes (w : World) : list (UrlString * SolidDataset) :=
  omap (fun r => match r with Put u d => Some (u, d) | Get _ => None end)
    (requests w).

(** The links of a device record to its characteristics. *)
Definition links (thing : Thing) : list UrlString :=
  getUrlAll thing (IOT "hasCharacteristic").

End Spec.

(** ** A small home, for the examples

    One lamp [D1] with a power switch, a brightness, and a characteristic
    of a format the codec does not support. *)

Module Scenario.
Import Js Solid Effects Sync.

Definition argv : Argv :=
  {| homeUrl := "https://pod.example/home";
     groupName := Some "Kitchen";
     verbose := true |}.

Definition on (v : Js.value) : CharacteristicType :=
  {| Characteristic.iid := of_Z 10;
     Characteristic.uuid := "00000025-0000-1000-8000-0026BB765291";
     Characteristic.type := "On";
     Characteristic.description := "On";
     Characteristic.value := v;
     Characteristic.format := "bool";
     Characteristic.unit := None;
     Characteristic.canRead := true;
     Characteristic.canWrite := true;
     Characteristic.setValue := true |}.

Definition brightness (v : Js.value) : CharacteristicType :=
  {| Characteristic.iid := of_Z 11;
     Characteristic.uuid := "00000008-0000-1000-8000-0026BB765291";
     Characteristic.type := "Brightness";
     Characteristic.description := "Brightness";
     Characteristic.value := v;
     Characteristic.format := "int";
     Characteristic.unit := Some "percentage";
     Characteristic.canRead := true;
     Characteristic.canWrite := true;
     Characteristic.setValue := true |}.

Definition lock_control : CharacteristicType :=
  {| Characteristic.iid := of_Z 12;
     Characteristic.uuid := "00000019-0000-1000-8000-0026BB765291";
     Characteristic.type := "LockControlPoint";
     Characteristic.description := "Lock Control Point";
     Characteristic.value := VStr "AQEA";
     Characteristic.format := "tlv8";
     Characteristic.unit := None;
     Characteristic.canRead := false;
     Characteristic.canWrite := true;
     Characteristic.setValue := true |}.

Definition temperature (v : Js.value) : CharacteristicType :=
  {| Characteristic.iid := of_Z 13;
     Characteristic.uuid := "00000011-0000-1000-8000-0026BB765291";
     Characteristic.type := "CurrentTemperature";
     Characteristic.description := "Current Temperature";
     Characteristic.value := v;
     Characteristic.format := "float";
     Characteristic.unit := Some "celsius";
     Characteristic.canRead := true;
     Characteristic.canWrite := false;
     Characteristic.setValue := true |}.

Definition D1 (cs : list CharacteristicType) : ServiceType :=
  {| Service.aid := of_Z 2;
     Service.uuid := "00000043-0000-1000-8000-0026BB765291";
     Service.type := "Lightbulb";
     Service.serviceName := "Desk Lamp 1";
     Service.uniqueId := "a1b2c3";
     Service.serviceCharacteristics := cs |}.

(** Nothing synced yet; [answers] are how the pod will take the coming
    requests. *)
Definition fresh (answers : list bool) : World :=
  {| characteristics := ∅; pod := ∅; requests := []; network := answers;
     local_writes := []; bus := []; console := [] |}.

Definition on_url : UrlString :=
  "https://pod.example/home/Characteristics/a1b2c3/On".

Definition lock_url : UrlString :=
  "https://pod.example/home/Characteristics/a1b2c3/LockControlPoint".

Definition brightness_url : UrlString :=
  "https://pod.example/home/Characteristics/a1b2c3/Brightness".

Definition D1_url : UrlString := "https://pod.example/home/Devices/a1b2c3".

(** The lamp after a full sync that went through, switched off. *)
Definition synced : World :=
  snd (syncDeviceToSolid argv (D1 [on (VBool false)]) (fresh [])).

(** The lamp switched on locally after that, and the change synced. *)
Definition switched_on : World :=
  snd (syncCharacteristicToSolid argv (D1 []) (on (VBool true)) synced).

(** A control command written into the pod: the record of the switch
    now says 1 while the cache still says off. *)
Definition commanded : World :=
  {| characteristics := characteristics synced;
     pod := pod switched_on;
     requests := requests synced; network := network synced;
     local_writes := local_writes synced; bus := bus synced;
     console := console synced |}.

(** The same world with other answers to come from the pod. *)
Definition answering (answers : list bool) (w : World) : World :=
  {| characteristics := characteristics w; pod := pod w;
     requests := requests w; network := answers;
     local_writes := local_writes w; bus := bus w; console := console w |}.

End Scenario.

(** ** Runs of the engine

    After startup the world changes by what the two monitors deliver: a
    [service-update] batch from HomeKit, or a message on the socket.
    Neither listener's promise is awaited by its emitter. *)

Module Events.
Import Js Solid Effects Sync.

Inductive Event : Type :=
  | ServiceUpdate (updates : list ServiceType)
  | Message (data : string).

Section Run.

Variable argv : Argv.

Definition handle (e : Event) : M () :=
  match e with
  | ServiceUpdate updates => service_update argv updates
  | Message data => detached (onmessage argv data)
  end.

Fixpoint run (events : list Event) (w : World) : World :=
  match events with
  | [] => w
  | e :: events' => run events' (snd (handle e w))
  end.

(** The characteristics of a batch with their services, in the order
    the two [forEach] visit them. *)
Definition batch (updates : list ServiceType)
    : list (ServiceType * CharacteristicType) :=
  flat_map (fun update => map (pair update) (Service.serviceCharacteristics update))
    updates.

Definition batch_urls (updates : list ServiceType) : list UrlString :=
  map (fun uc => characteristic_url argv (fst uc) (snd uc)) (batch updates).

(** The world after the syncs of a list of characteristics, one after
    the other, outcomes dropped. *)
Definition sync_each (l : list (ServiceType * CharacteristicType)) (w : World)
    : World :=
  fold_left (fun w uc => snd (syncCharacteristicToSolid argv (fst uc) (snd uc) w))
    l w.

End Run.

(** No coming request fails. *)
Definition reliable (w : World) : Prop :=
  Forall (fun answer => answer = true) (network w).

(** Every cached resource is in the pod, with the thing reverse sync
    will look for. *)
Definition consistent (w : World) : Prop :=
  forall (url : UrlString) (c : CharacteristicType),
    characteristics w !! url = Some c ->
    exists data thing,
      pod w !! url = Some data
      /\ getThing {| sourceIri := url; things := data |}
           (url +:+ "#" +:+ characteristic_name c) = Some thing.

(** The device refuses none of the coming local writes. *)
Definition obliging (w : World) : Prop :=
  Forall (fun answer => answer <> Refuses) (bus w).

(** A value of the type its format announces, and one the record
    carries as it is: text for [string]; for the numeric formats a boolean,
    or a number that is not NaN under [float] and is an integer in plain
    digits under [bool] and the integer formats. *)
Definition well_typed (format : string) (v : Js.value) : bool :=
  Spec.supported format && Spec.storable format v &&
  match v with
  | VStr _ => String.eqb format "string"
  | VNum _ | VBool _ => negb (String.eqb format "string")
  end.

End Events.

(** ** More worlds of the small home *)

Module Cases.
Import Js Solid Effects Sync.

(** The commanded lamp on a bus whose device gives the coming
    answers. *)
Definition commanded_on (answers : list Answer) : World :=
  {| characteristics := characteristics Scenario.commanded;
     pod := pod Scenario.commanded;
     requests := requests Scenario.commanded;
     network := network Scenario.commanded;
     local_writes := local_writes Scenario.commanded;
     bus := answers;
     console := console Scenario.commanded |}.

(** The device does not answer the write; the device refuses it. *)
Definition unresponsive : World := commanded_on [Silent].
Definition refusing : World := commanded_on [Refuses].

(** The synced lamp after the record of its switch was emptied in the
    pod. *)
Definition emptied : World :=
  {| characteristics := characteristics Scenario.synced;
     pod := <[Scenario.on_url := []]> (pod Scenario.synced);
     requests := requests Scenario.synced;
     network := network Scenario.synced;
     local_writes := local_writes Scenario.synced;
     bus := bus Scenario.synced;
     console := console Scenario.synced |}.



(** The lock control point synced from nothing. *)
Definition locked : World :=
  snd (syncCharacteristicToSolid Scenario.argv (Scenario.D1 [])
         Scenario.lock_control (Scenario.fresh [])).

End Cases.

(** ** Printed numerals

    Two notions for the lemmas on [Number::toString] read back by
    [parseInt] and [parseFloat]: the step of reading one decimal digit, and
    the characters of a decimal numeral of the standard library. *)

Module Numeral.
Import Js.

Definition step (acc : Z) (c : ascii) : Z := 10 * acc + default 0 (digit_val c).

Definition chars (d : Decimal.uint) : list ascii :=
  list_ascii_of_string (NilEmpty.string_of_uint d).

End Numeral.

(** ** Properties *)

Import Js Solid Effects Sync Spec.

Section Forward.

Variable argv : Argv.

Lemma log_keeps (message context type : string) (w : World) :
  exists w', log argv message context type w = (Fulfilled tt, w')
    /\ characteristics w' = characteristics w /\ pod w' = pod w
    /\ requests w' = requests w /\ network w' = network w
    /\ local_writes w' = local_writes w /\ bus w' = bus w.
Proof.
  unfold log. destruct (verbose argv); eexists; (split; [reflexivity|]); cbn; tauto.
Qed.

Lemma supported_cases (format : string) :
  supported format =
    String.eqb format "bool" || (String.eqb format "string" ||
    (String.eqb format "float" || (String.eqb format "int" ||
    (String.eqb format "uint8" || (String.eqb format "uint16" ||
    (String.eqb format "uint32" || (String.eqb format "uint64" || false))))))).
Proof. reflexivity. Qed.

(** On a supported format the switch adds the value and does nothing
    else. *)
Lemma encode_supported (format : string) (v : Js.value) (thing : Thing) (w : World) :
  supported format = true ->
  exists l, encode argv format v thing w
            = (Fulfilled (add thing (IOT "value") l), w).
Proof.
  rewrite supported_cases. unfold encode. intros H.
  destruct (String.eqb format "bool"); [eexists; reflexivity|].
  destruct (String.eqb format "string"); [eexists; reflexivity|].
  destruct (String.eqb format "float"); [eexists; reflexivity|].
  cbn in H. rewrite orb_false_r in H. rewrite !orb_assoc in H.
  rewrite H. eexists; reflexivity.
Qed.

(** On any other format the switch logs and leaves the thing as it
    was. *)
Lemma encode_unsupported (format : string) (v : Js.value) (thing : Thing) (w : World) :
  supported format = false ->
  encode argv format v thing w
  = (Fulfilled thing, snd (log argv "Unsupported format" "solid" "ERROR" w)).
Proof.
  rewrite supported_cases. unfold encode. intros H.
  destruct (String.eqb format "bool"); [discriminate|].
  destruct (String.eqb format "string"); [discriminate|].
  destruct (String.eqb format "float"); [discriminate|].
  cbn in H. rewrite orb_false_r in H. rewrite !orb_assoc in H.
  rewrite H. unfold bind, log.
  destruct (verbose argv); reflexivity.
Qed.

(** The switch never rejects and touches nothing but the console. *)
Lemma encode_keeps (format : string) (v : Js.value) (thing : Thing) (w : World) :
  exists thing' w', encode argv format v thing w = (Fulfilled thing', w')
    /\ name thing' = name thing
    /\ characteristics w' = characteristics w /\ pod w' = pod w
    /\ requests w' = requests w /\ network w' = network w
    /\ local_writes w' = local_writes w /\ bus w' = bus w.
Proof.
  destruct (supported format) eqn:E.
  - destruct (encode_supported format v thing w E) as [l ->].
    do 2 eexists. split; [reflexivity|]. cbn. tauto.
  - rewrite (encode_unsupported _ _ _ _ E).
    destruct (log_keeps "Unsupported format" "solid" "ERROR" w) as (w' & -> & K).
    do 2 eexists. split; [reflexivity|]. cbn. tauto.
Qed.

(** The guard of the first lines: an equal cached value ends the call. *)
Lemma sync_unchanged (device : ServiceType) (c : CharacteristicType) (w : World) :
  unchanged (characteristics w !! characteristic_url argv device c) c = true ->
  syncCharacteristicToSolid argv device c w = (Fulfilled None, w).
Proof.
  intros H.
  cbv beta zeta iota delta [syncCharacteristicToSolid bind cache_get].
  rewrite H. reflexivity.
Qed.

(** Past the guard: the thing is built, the cache is set, and only then
    is the write sent. *)
Lemma sync_changed (device : ServiceType) (c : CharacteristicType) (w : World) :
  unchanged (characteristics w !! characteristic_url argv device c) c = false ->
  exists thing w',
    encode argv (Characteristic.format c) (Characteristic.value c) (describe c) w
      = (Fulfilled thing, w')
    /\ syncCharacteristicToSolid argv device c w
       = bind (saveSolidDatasetAt (characteristic_url argv device c) [thing])
           (fun res => ret (Some res))
           (snd (cache_set (characteristic_url argv device c) c w')).
Proof.
  intros H.
  destruct (encode_keeps (Characteristic.format c) (Characteristic.value c)
              (describe c) w) as (thing & w' & E & _).
  exists thing, w'. split; [exact E|].
  cbv beta zeta iota delta [syncCharacteristicToSolid cache_get].
  unfold bind at 1. rewrite H. unfold bind at 1. rewrite E. reflexivity.
Qed.

(** On an unsupported format the call past the guard logs, sets the
    cache and sends the description alone, with no value attribute. *)
Lemma sync_unsupported (device : ServiceType) (c : CharacteristicType) (w : World) :
  supported (Characteristic.format c) = false ->
  unchanged (characteristics w !! characteristic_url argv device c) c = false ->
  syncCharacteristicToSolid argv device c w
  = bind (saveSolidDatasetAt (characteristic_url argv device c) [describe c])
      (fun res => ret (Some res))
      (snd (cache_set (characteristic_url argv device c) c
              (snd (log argv "Unsupported format" "solid" "ERROR" w)))).
Proof.
  intros S U.
  destruct (sync_changed device c w U) as (thing & w' & E & ->).
  rewrite (encode_unsupported _ _ _ _ S) in E. injection E as <- <-.
  reflexivity.
Qed.

Lemma describe_name (c : CharacteristicType) :
  name (describe c) = characteristic_name c.
Proof.
  unfold describe.
  destruct (Characteristic.unit c) as [u|]; [destruct (String.eqb u "")|];
    reflexivity.
Qed.

(** What a call past the guard leaves behind, whatever the pod answers. *)
Lemma sync_changed_run (device : ServiceType) (c : CharacteristicType) (w : World) :
  let url := characteristic_url argv device c in
  unchanged (characteristics w !! url) c = false ->
  exists thing,
    name thing = characteristic_name c
    /\ characteristics (snd (syncCharacteristicToSolid argv device c w))
       = <[url := c]> (characteristics w)
    /\ requests (snd (syncCharacteristicToSolid argv device c w))
       = (requests w ++ [Put url [thing]])%list
    /\ network (snd (syncCharacteristicToSolid argv device c w))
       = tail (network w)
    /\ local_writes (snd (syncCharacteristicToSolid argv device c w))
       = local_writes w
    /\ bus (snd (syncCharacteristicToSolid argv device c w)) = bus w
    /\ (if succeeds w
        then fst (syncCharacteristicToSolid argv device c w)
             = Fulfilled (Some {| sourceIri := url; things := [thing] |})
             /\ pod (snd (syncCharacteristicToSolid argv device c w))
                = <[url := [thing]]> (pod w)
        else fst (syncCharacteristicToSolid argv device c w)
             = Rejected (RemoteWriteError url)
             /\ pod (snd (syncCharacteristicToSolid argv device c w)) = pod w).
Proof.
  intros url H.
  destruct (encode_keeps (Characteristic.format c) (Characteristic.value c)
              (describe c) w) as (thing & w' & E & N & K1 & K2 & K3 & K4 & K5 & K6).
  destruct (sync_changed device c w H) as (thing0 & w0 & E0 & ->).
  rewrite E in E0. injection E0 as <- <-.
  exists thing. fold url.
  unfold bind, saveSolidDatasetAt, succeeds. cbn.
  rewrite K4, K1, K3, K5, K6, K2.
  rewrite describe_name in N.
  destruct (default true (head (network w))); cbn; tauto.
Qed.

End Forward.

(** ** Forward sync: the guard, the cache and the write *)

(** C4.  When the change cache holds, for the characteristic's resource,
    a value equal (by the code's [==]) to the candidate value,
    [syncCharacteristicToSolid] returns with the world as it was: no
    request, no cache change.  Hence a call that does write, made twice in
    a row with a value that equals itself, sends exactly one remote write:
    the second call finds the first one's cache entry. *)
Theorem forward_sync_equal_value_is_noop (argv : Argv) (device : ServiceType)
    (c : CharacteristicType) :
  let url := characteristic_url argv device c in
  (forall (w : World) (curr : CharacteristicType),
     characteristics w !! url = Some curr ->
     loose_eq (Characteristic.value c) (Characteristic.value curr) = true ->
     syncCharacteristicToSolid argv device c w = (Fulfilled None, w))
  /\ (forall w : World,
       unchanged (characteristics w !! url) c = false ->
       loose_eq (Characteristic.value c) (Characteristic.value c) = true ->
       let w1 := snd (syncCharacteristicToSolid argv device c w) in
       let w2 := snd (syncCharacteristicToSolid argv device c w1) in
       (exists data, remote_writes w2 = (remote_writes w ++ [(url, data)])%list)
       /\ characteristics w2 = characteristics w1
       /\ syncCharacteristicToSolid argv device c w1 = (Fulfilled None, w1)).
Proof.
  intros url. split.
  - intros w curr Hc He. apply sync_unchanged.
    fold url. rewrite Hc. exact He.
  - intros w Hw Hv w1 w2.
    destruct (sync_changed_run argv device c w Hw)
      as (thing & _ & Hcache & Hreq & _).
    fold url in Hcache, Hreq. fold w1 in Hcache, Hreq.
    assert (Hnoop : syncCharacteristicToSolid argv device c w1 = (Fulfilled None, w1)).
    { apply sync_unchanged. fold url. rewrite Hcache, lookup_insert_eq. exact Hv. }
    subst w2. rewrite Hnoop. cbn [snd]. repeat split; try reflexivity.
    exists [thing]. unfold remote_writes. rewrite Hreq, omap_app. reflexivity.
Qed.

Lemma forward_sync_equal_value_is_noop_witness :
  syncCharacteristicToSolid Scenario.argv (Scenario.D1 []) (Scenario.on (VNum (of_Z 0)))
    Scenario.synced
  = (Fulfilled None, Scenario.synced)
  /\ syncCharacteristicToSolid Scenario.argv (Scenario.D1 []) (Scenario.on (VBool true))
       (snd (syncCharacteristicToSolid Scenario.argv (Scenario.D1 [])
               (Scenario.on (VBool true)) Scenario.synced))
     = (Fulfilled None,
        snd (syncCharacteristicToSolid Scenario.argv (Scenario.D1 [])
               (Scenario.on (VBool true)) Scenario.synced)).
Proof.
  split.
  - apply (proj1 (forward_sync_equal_value_is_noop Scenario.argv (Scenario.D1 [])
                    (Scenario.on (VNum (of_Z 0))))
             Scenario.synced (Scenario.on (VBool false)));
      vm_compute; reflexivity.
  - apply (proj2 (forward_sync_equal_value_is_noop Scenario.argv (Scenario.D1 [])
                    (Scenario.on (VBool true))) Scenario.synced);
      vm_compute; reflexivity.
Defined.

(** C1.  The code at a characteristic of format [tlv8], which the
    HomeKit client declares and the codec does not support: the call
    logs the error and goes on.  It is fulfilled, a record without a value
    attribute is written to the pod, and the change cache gets an entry
    for the resource. *)
Theorem unsupported_format_is_written_and_cached :
  supported (Characteristic.format Scenario.lock_control) = false
  /\ exists thing,
      syncCharacteristicToSolid Scenario.argv (Scenario.D1 []) Scenario.lock_control
        (Scenario.fresh [])
      = (Fulfilled (Some {| sourceIri := Scenario.lock_url; things := [thing] |}),
         {| characteristics := {[ Scenario.lock_url := Scenario.lock_control ]};
            pod := {[ Scenario.lock_url := [thing] ]};
            requests := [Put Scenario.lock_url [thing]];
            network := []; local_writes := []; bus := [];
            console := [("ERROR", "solid", "Unsupported format")] |})
      /\ first_of Some (IOT "value") (attributes thing) = None
      /\ characteristics (Scenario.fresh []) !! Scenario.lock_url = None.
Proof.
  split; [reflexivity|]. eexists. split; [|split].
  - vm_compute. reflexivity.
  - reflexivity.
  - reflexivity.
Qed.

(** The order of lines 225 and 226.  Past the guard the change cache is
    set first and the write is sent from the world that already holds the
    new entry; so the entry is the new characteristic whatever the pod
    answers, also when the write is rejected. *)
Lemma forward_sync_caches_before_write (argv : Argv) (device : ServiceType)
    (c : CharacteristicType) (w : World) :
  let url := characteristic_url argv device c in
  unchanged (characteristics w !! url) c = false ->
  (exists thing w',
     characteristics w' = <[url := c]> (characteristics w)
     /\ requests w' = requests w
     /\ syncCharacteristicToSolid argv device c w
        = bind (saveSolidDatasetAt url [thing]) (fun res => ret (Some res)) w')
  /\ characteristics (snd (syncCharacteristicToSolid argv device c w))
     = <[url := c]> (characteristics w)
  /\ (succeeds w = false ->
      fst (syncCharacteristicToSolid argv device c w)
      = Rejected (RemoteWriteError url)).
Proof.
  intros url H. split; [|split].
  - destruct (sync_changed argv device c w H) as (thing & w' & E & R).
    destruct (encode_keeps argv (Characteristic.format c) (Characteristic.value c)
                (describe c) w) as (t2 & w2 & E2 & _ & K1 & _ & K3 & _).
    rewrite E in E2. injection E2 as <- <-.
    exists thing, (snd (cache_set url c w')).
    split; [|split; [|exact R]]; cbn; congruence.
  - destruct (sync_changed_run argv device c w H) as (thing & _ & Hc & _).
    exact Hc.
  - intros F.
    destruct (sync_changed_run argv device c w H)
      as (thing & _ & _ & _ & _ & _ & _ & Hr).
    rewrite F in Hr. tauto.
Qed.

Lemma forward_sync_caches_before_write_witness :
  characteristics
    (snd (syncCharacteristicToSolid Scenario.argv (Scenario.D1 [])
            (Scenario.on (VBool true))
            (Scenario.answering [false] Scenario.synced)))
  = <[Scenario.on_url := Scenario.on (VBool true)]>
      (characteristics (Scenario.answering [false] Scenario.synced)).
Proof.
  apply (forward_sync_caches_before_write Scenario.argv (Scenario.D1 [])
           (Scenario.on (VBool true))
           (Scenario.answering [false] Scenario.synced)).
  vm_compute. reflexivity.
Defined.

(** C2.  The code at a failed write: the lamp is switched on while the
    pod is unreachable.  The write is rejected with a [RemoteWriteError]
    and the pod keeps the record that says off, yet the cache entry has
    changed from off to on: [characteristics.set] (line 225) comes before
    the write is sent (line 226) and nothing in the forward path looks at
    the write's outcome.  So the next notification of the same value,
    with the pod reachable again, is suppressed by the guard and the
    update never reaches the pod.  Reverse sync, by contrast, sets the
    cache only once the local write is confirmed (lines 294 and 295). *)
Theorem failed_write_changes_cache :
  characteristics (Scenario.answering [false] Scenario.synced) !! Scenario.on_url
  = Some (Scenario.on (VBool false))
  /\ fst (syncCharacteristicToSolid Scenario.argv (Scenario.D1 [])
            (Scenario.on (VBool true))
            (Scenario.answering [false] Scenario.synced))
     = Rejected (RemoteWriteError Scenario.on_url)
  /\ pod (snd (syncCharacteristicToSolid Scenario.argv (Scenario.D1 [])
                 (Scenario.on (VBool true))
                 (Scenario.answering [false] Scenario.synced)))
     = pod Scenario.synced
  /\ characteristics
       (snd (syncCharacteristicToSolid Scenario.argv (Scenario.D1 [])
               (Scenario.on (VBool true))
               (Scenario.answering [false] Scenario.synced)))
     !! Scenario.on_url
     = Some (Scenario.on (VBool true))
  /\ syncCharacteristicToSolid Scenario.argv (Scenario.D1 [])
       (Scenario.on (VBool true))
       (snd (syncCharacteristicToSolid Scenario.argv (Scenario.D1 [])
               (Scenario.on (VBool true))
               (Scenario.answering [false] Scenario.synced)))
     = (Fulfilled None,
        snd (syncCharacteristicToSolid Scenario.argv (Scenario.D1 [])
               (Scenario.on (VBool true))
               (Scenario.answering [false] Scenario.synced))).
Proof. repeat split; vm_compute; reflexivity. Qed.

(** ** Full device sync *)

Section Device.

Variable argv : Argv.

Lemma link_characteristics_app (device : ServiceType)
    (before after : list CharacteristicType) (thing : Thing) (w : World) :
  link_characteristics argv device (before ++ after) thing w
  = bind (link_characteristics argv device before thing)
      (fun t => link_characteristics argv device after t) w.
Proof.
  revert thing w. induction before as [|c before IH]; intros thing w.
  - reflexivity.
  - cbn [app link_characteristics]. unfold bind.
    destruct (syncCharacteristicToSolid argv device c w) as [[res|e] w1].
    + rewrite IH. reflexivity.
    + reflexivity.
Qed.

(** A characteristic's sync is rejected only by a failed remote write. *)
Lemma sync_rejected_inv (device : ServiceType) (c : CharacteristicType)
    (w w' : World) (e : Error) :
  syncCharacteristicToSolid argv device c w = (Rejected e, w') ->
  unchanged (characteristics w !! characteristic_url argv device c) c = false
  /\ succeeds w = false
  /\ e = RemoteWriteError (characteristic_url argv device c).
Proof.
  intros R.
  destruct (unchanged (characteristics w !! characteristic_url argv device c) c)
    eqn:U.
  - rewrite (sync_unchanged argv device c w U) in R. discriminate.
  - destruct (sync_changed_run argv device c w U)
      as (thing & _ & _ & _ & _ & _ & _ & Hr).
    rewrite R in Hr. cbn [fst snd] in Hr.
    destruct (succeeds w); [destruct Hr; discriminate|].
    destruct Hr as [Hr _]. injection Hr as ->. auto.
Qed.

End Device.

(** C3, as the code has it.  [syncDeviceToSolid] awaits each
    characteristic in turn with no handler around the call.  A
    characteristic's sync is rejected only when its remote write fails,
    never because of its format, so an unsupported format stops nothing.
    A rejected write of one characteristic rejects the device sync with
    the world as that write left it: the characteristics after it are not
    attempted and the device record is not written.  When no
    characteristic's sync is rejected the device record is sent. *)
Theorem device_sync_stops_at_failed_write (argv : Argv) (device : ServiceType) :
  (forall (c : CharacteristicType) (w w' : World) (e : Error),
     syncCharacteristicToSolid argv device c w = (Rejected e, w') ->
     succeeds w = false
     /\ e = RemoteWriteError (characteristic_url argv device c))
  /\ (forall (before after : list CharacteristicType) (c : CharacteristicType)
        (thing : Thing) (w w1 w2 : World) (e : Error),
       Service.serviceCharacteristics device = (before ++ c :: after)%list ->
       link_characteristics argv device before (device_thing device) w
       = (Fulfilled thing, w1) ->
       syncCharacteristicToSolid argv device c w1 = (Rejected e, w2) ->
       syncDeviceToSolid argv device w = (Rejected e, w2))
  /\ (forall (thing : Thing) (w w1 : World),
       link_characteristics argv device (Service.serviceCharacteristics device)
         (device_thing device) w
       = (Fulfilled thing, w1) ->
       syncDeviceToSolid argv device w
       = saveSolidDatasetAt (device_url argv device) [thing] w1).
Proof.
  split; [|split].
  - intros c w w' e R.
    destruct (sync_rejected_inv argv device c w w' e R) as (_ & F & E). auto.
  - intros before after c thing w w1 w2 e Hcs Hb Hc.
    cbv beta zeta delta [syncDeviceToSolid]. unfold bind at 1.
    rewrite Hcs, link_characteristics_app. unfold bind at 1. rewrite Hb.
    cbn [link_characteristics]. unfold bind at 1. rewrite Hc. reflexivity.
  - intros thing w w1 H.
    cbv beta zeta delta [syncDeviceToSolid]. unfold bind at 1.
    rewrite H. reflexivity.
Qed.

Lemma device_sync_stops_at_failed_write_witness :
  syncDeviceToSolid Scenario.argv
    (Scenario.D1 [Scenario.on (VBool false); Scenario.brightness (VNum (of_Z 50))])
    (Scenario.fresh [false])
  = (Rejected (RemoteWriteError Scenario.on_url),
     snd (syncCharacteristicToSolid Scenario.argv
            (Scenario.D1 [Scenario.on (VBool false);
                          Scenario.brightness (VNum (of_Z 50))])
            (Scenario.on (VBool false)) (Scenario.fresh [false]))).
Proof.
  apply (proj1 (proj2 (device_sync_stops_at_failed_write Scenario.argv
           (Scenario.D1 [Scenario.on (VBool false);
                         Scenario.brightness (VNum (of_Z 50))])))
           [] [Scenario.brightness (VNum (of_Z 50))] (Scenario.on (VBool false))
           (device_thing
              (Scenario.D1 [Scenario.on (VBool false);
                            Scenario.brightness (VNum (of_Z 50))]))
           (Scenario.fresh [false]) (Scenario.fresh [false])).
  - reflexivity.
  - reflexivity.
  - vm_compute. reflexivity.
Defined.

(** C3 as stated fails: the pod rejects the write of the lamp's first
    characteristic.  The device sync is rejected, the one request sent is
    that failed write, the second characteristic is neither written nor
    cached, and no device record is written.  With the pod answering, the
    same sync sends all three writes. *)
Lemma failed_write_aborts_device_sync :
  fst (syncDeviceToSolid Scenario.argv
         (Scenario.D1 [Scenario.on (VBool false);
                       Scenario.brightness (VNum (of_Z 50))])
         (Scenario.fresh [false]))
  = Rejected (RemoteWriteError Scenario.on_url)
  /\ map fst (remote_writes
       (snd (syncDeviceToSolid Scenario.argv
               (Scenario.D1 [Scenario.on (VBool false);
                             Scenario.brightness (VNum (of_Z 50))])
               (Scenario.fresh [false]))))
     = [Scenario.on_url]
  /\ characteristics
       (snd (syncDeviceToSolid Scenario.argv
               (Scenario.D1 [Scenario.on (VBool false);
                             Scenario.brightness (VNum (of_Z 50))])
               (Scenario.fresh [false])))
     !! Scenario.brightness_url = None
  /\ pod (snd (syncDeviceToSolid Scenario.argv
                 (Scenario.D1 [Scenario.on (VBool false);
                               Scenario.brightness (VNum (of_Z 50))])
                 (Scenario.fresh [false])))
     = ∅
  /\ map fst (remote_writes
       (snd (syncDeviceToSolid Scenario.argv
               (Scenario.D1 [Scenario.on (VBool false);
                             Scenario.brightness (VNum (of_Z 50))])
               (Scenario.fresh []))))
     = [Scenario.on_url; Scenario.brightness_url; Scenario.D1_url].
Proof. repeat split; vm_compute; reflexivity. Qed.

(** ** Suppressed characteristics and the device record *)

Section Links.

Variable argv : Argv.
Variable device : ServiceType.

Lemma characteristic_url_inj (c c' : CharacteristicType) :
  characteristic_url argv device c = characteristic_url argv device c' ->
  Characteristic.type c = Characteristic.type c'.
Proof.
  unfold characteristic_url. intros H.
  do 4 apply (inj (String.app _)) in H. exact H.
Qed.

(** The cache after one characteristic's sync, fulfilled or rejected. *)
Lemma sync_cache (c : CharacteristicType) (w : World) :
  characteristics (snd (syncCharacteristicToSolid argv device c w))
  = if unchanged (characteristics w !! characteristic_url argv device c) c
    then characteristics w
    else <[characteristic_url argv device c := c]> (characteristics w).
Proof.
  destruct (unchanged (characteristics w !! characteristic_url argv device c) c)
    eqn:U.
  - rewrite (sync_unchanged argv device c w U). reflexivity.
  - destruct (sync_changed_run argv device c w U) as (thing & _ & Hc & _).
    exact Hc.
Qed.

Lemma link_suppressed (c : CharacteristicType) (cs : list CharacteristicType)
    (thing : Thing) (w : World) :
  unchanged (characteristics w !! characteristic_url argv device c) c = true ->
  link_characteristics argv device (c :: cs) thing w
  = link_characteristics argv device cs thing w.
Proof.
  intros U. cbn [link_characteristics]. unfold bind.
  rewrite (sync_unchanged argv device c w U). reflexivity.
Qed.

Lemma link_all_suppressed (cs : list CharacteristicType) (thing : Thing)
    (w : World) :
  (forall c, In c cs ->
     unchanged (characteristics w !! characteristic_url argv device c) c = true) ->
  link_characteristics argv device cs thing w = (Fulfilled thing, w).
Proof.
  induction cs as [|c cs IH]; intros H.
  - reflexivity.
  - rewrite link_suppressed by (apply H; left; reflexivity).
    apply IH. intros c' Hc'. apply H. right. exact Hc'.
Qed.

(** After the loop went through, every characteristic of the list finds
    an equal value in the cache, and entries of other types are as they
    were. *)
Lemma link_fulfilled_cache (cs : list CharacteristicType) :
  forall (thing thing' : Thing) (w w' : World),
    NoDup (map Characteristic.type cs) ->
    (forall c, In c cs ->
       loose_eq (Characteristic.value c) (Characteristic.value c) = true) ->
    link_characteristics argv device cs thing w = (Fulfilled thing', w') ->
    (forall c, In c cs ->
       unchanged (characteristics w' !! characteristic_url argv device c) c = true)
    /\ (forall c0, ~ In (Characteristic.type c0) (map Characteristic.type cs) ->
          characteristics w' !! characteristic_url argv device c0
          = characteristics w !! characteristic_url argv device c0).
Proof.
  induction cs as [|c cs IH]; intros thing thing' w w' ND Hv L.
  - cbn in L. injection L as <- <-. split; [intros c []|reflexivity].
  - cbn [map] in ND. apply NoDup_cons in ND as [Hnotin ND].
    cbn [link_characteristics] in L. unfold bind in L.
    pose proof (sync_cache c w) as Hcache.
    destruct (syncCharacteristicToSolid argv device c w) as [[res|e] w1];
      [|discriminate].
    cbn [snd] in Hcache.
    destruct (IH _ _ _ _ ND (fun c' H' => Hv c' (or_intror H')) L) as [IH1 IH2].
    assert (Hc : unchanged (characteristics w1 !! characteristic_url argv device c) c
                 = true).
    { rewrite Hcache.
      destruct (unchanged (characteristics w !! characteristic_url argv device c) c)
        eqn:U; [exact U|].
      rewrite lookup_insert_eq. cbn. apply Hv. left. reflexivity. }
    split.
    + intros c' [<-|Hin]; [|apply IH1; exact Hin].
      rewrite IH2; [exact Hc|].
      intros Hin. apply Hnotin. apply list_elem_of_In. exact Hin.
    + intros c0 Hc0. cbn [map] in Hc0.
      rewrite IH2 by (intros Hin; apply Hc0; right; exact Hin).
      rewrite Hcache.
      destruct (unchanged (characteristics w !! characteristic_url argv device c) c);
        [reflexivity|].
      apply lookup_insert_ne. intros Heq. apply Hc0. left.
      apply characteristic_url_inj. exact Heq.
Qed.

End Links.

(** The device sync when every characteristic is suppressed: one write,
    of the device thing as it was created. *)
Lemma sync_all_suppressed (argv : Argv) (device : ServiceType) (w : World) :
  (forall c, In c (Service.serviceCharacteristics device) ->
     unchanged (characteristics w !! characteristic_url argv device c) c = true) ->
  syncDeviceToSolid argv device w
  = saveSolidDatasetAt (device_url argv device) [device_thing device] w.
Proof.
  intros H. cbv beta zeta delta [syncDeviceToSolid]. unfold bind.
  rewrite (link_all_suppressed argv device _ _ w H). reflexivity.
Qed.

(** What a fulfilled device sync leaves: every characteristic finds an
    equal value in the cache, and the pod holds the record returned. *)
Lemma sync_device_fulfilled (argv : Argv) (device : ServiceType) (w w1 : World)
    (r : WithResourceInfo) :
  NoDup (map Characteristic.type (Service.serviceCharacteristics device)) ->
  (forall c, In c (Service.serviceCharacteristics device) ->
     loose_eq (Characteristic.value c) (Characteristic.value c) = true) ->
  syncDeviceToSolid argv device w = (Fulfilled r, w1) ->
  (forall c, In c (Service.serviceCharacteristics device) ->
     unchanged (characteristics w1 !! characteristic_url argv device c) c = true)
  /\ pod w1 !! device_url argv device = Some (things r).
Proof.
  intros ND Hv S.
  cbv beta zeta delta [syncDeviceToSolid] in S. unfold bind in S.
  destruct (link_characteristics argv device
              (Service.serviceCharacteristics device) (device_thing device) w)
    as [[thing|e] w'] eqn:L; [|discriminate].
  destruct (link_fulfilled_cache argv device _ _ _ _ _ ND Hv L) as [H _].
  unfold saveSolidDatasetAt in S.
  destruct (succeeds w'); [|discriminate].
  injection S as <- <-. cbn. split; [exact H|apply lookup_insert_eq].
Qed.

(** C10.  In [syncDeviceToSolid], a characteristic whose sync is
    suppressed by the equal cached value leaves the device thing and the
    world as they were: no [hasCharacteristic] link is added for it.  So
    when every characteristic is suppressed, the device sync sends one
    request, the write of a device record with no link at all, and when
    the pod takes it that record replaces the one the pod held at the
    device's URL.  That is what a second full sync does after a first one
    that went through, for a device whose characteristics have distinct
    types and values that equal themselves: the record the first sync
    wrote is replaced by one without links. *)
Theorem suppressed_characteristics_are_not_linked (argv : Argv)
    (device : ServiceType) :
  (forall (c : CharacteristicType) (cs : list CharacteristicType)
      (thing : Thing) (w : World),
     unchanged (characteristics w !! characteristic_url argv device c) c = true ->
     link_characteristics argv device (c :: cs) thing w
     = link_characteristics argv device cs thing w)
  /\ links (device_thing device) = []
  /\ (forall w : World,
       (forall c, In c (Service.serviceCharacteristics device) ->
          unchanged (characteristics w !! characteristic_url argv device c) c
          = true) ->
       requests (snd (syncDeviceToSolid argv device w))
       = (requests w ++ [Put (device_url argv device) [device_thing device]])%list
       /\ characteristics (snd (syncDeviceToSolid argv device w))
          = characteristics w
       /\ (succeeds w = true ->
           fst (syncDeviceToSolid argv device w)
           = Fulfilled {| sourceIri := device_url argv device;
                          things := [device_thing device] |}
           /\ pod (snd (syncDeviceToSolid argv device w))
              = <[device_url argv device := [device_thing device]]> (pod w)))
  /\ (forall (w w1 : World) (r : WithResourceInfo),
       NoDup (map Characteristic.type (Service.serviceCharacteristics device)) ->
       (forall c, In c (Service.serviceCharacteristics device) ->
          loose_eq (Characteristic.value c) (Characteristic.value c) = true) ->
       syncDeviceToSolid argv device w = (Fulfilled r, w1) ->
       succeeds w1 = true ->
       pod w1 !! device_url argv device = Some (things r)
       /\ requests (snd (syncDeviceToSolid argv device w1))
          = (requests w1 ++ [Put (device_url argv device) [device_thing device]])%list
       /\ pod (snd (syncDeviceToSolid argv device w1)) !! device_url argv device
          = Some [device_thing device]
       /\ characteristics (snd (syncDeviceToSolid argv device w1))
          = characteristics w1).
Proof.
  assert (All : forall w : World,
    (forall c, In c (Service.serviceCharacteristics device) ->
       unchanged (characteristics w !! characteristic_url argv device c) c = true) ->
    requests (snd (syncDeviceToSolid argv device w))
    = (requests w ++ [Put (device_url argv device) [device_thing device]])%list
    /\ characteristics (snd (syncDeviceToSolid argv device w)) = characteristics w
    /\ (succeeds w = true ->
        fst (syncDeviceToSolid argv device w)
        = Fulfilled {| sourceIri := device_url argv device;
                       things := [device_thing device] |}
        /\ pod (snd (syncDeviceToSolid argv device w))
           = <[device_url argv device := [device_thing device]]> (pod w))).
  { intros w H. rewrite (sync_all_suppressed argv device w H).
    unfold saveSolidDatasetAt.
    destruct (succeeds w); cbn; repeat split; try reflexivity; discriminate. }
  split; [|split; [|split]].
  - intros c cs thing w U. apply link_suppressed. exact U.
  - reflexivity.
  - exact All.
  - intros w w1 r ND Hv S Hs.
    destruct (sync_device_fulfilled argv device w w1 r ND Hv S) as [H Hp].
    destruct (All w1 H) as (Hr & Hc & Hpod).
    destruct (Hpod Hs) as [_ Hpod'].
    split; [exact Hp|]. split; [exact Hr|]. split; [|exact Hc].
    rewrite Hpod'. apply lookup_insert_eq.
Qed.

Lemma suppressed_characteristics_are_not_linked_witness :
  pod Scenario.synced !! Scenario.D1_url
  = Some [addUrl (device_thing (Scenario.D1 [Scenario.on (VBool false)]))
            (IOT "hasCharacteristic") Scenario.on_url]
  /\ requests (snd (syncDeviceToSolid Scenario.argv
                      (Scenario.D1 [Scenario.on (VBool false)]) Scenario.synced))
     = (requests Scenario.synced
        ++ [Put Scenario.D1_url
              [device_thing (Scenario.D1 [Scenario.on (VBool false)])]])%list
  /\ pod (snd (syncDeviceToSolid Scenario.argv
                 (Scenario.D1 [Scenario.on (VBool false)]) Scenario.synced))
       !! Scenario.D1_url
     = Some [device_thing (Scenario.D1 [Scenario.on (VBool false)])]
  /\ characteristics (snd (syncDeviceToSolid Scenario.argv
                             (Scenario.D1 [Scenario.on (VBool false)])
                             Scenario.synced))
     = characteristics Scenario.synced.
Proof.
  apply (proj2 (proj2 (proj2 (suppressed_characteristics_are_not_linked
           Scenario.argv (Scenario.D1 [Scenario.on (VBool false)]))))
           (Scenario.fresh []) Scenario.synced
           {| sourceIri := Scenario.D1_url;
              things := [addUrl (device_thing (Scenario.D1 [Scenario.on (VBool false)]))
                           (IOT "hasCharacteristic") Scenario.on_url] |}).
  - cbn. constructor; [intros H; inversion H|constructor].
  - cbn. intros c [<-|[]]. reflexivity.
  - vm_compute. reflexivity.
  - reflexivity.
Defined.

(** ** Reverse sync *)

Section Reverse.

Variable argv : Argv.

Lemma number_eqb_refl (n : number) : isNaN n = false -> number_eqb n n = true.
Proof.
  destruct n as [|b|m e]; cbn; intros H.
  - discriminate.
  - destruct b; reflexivity.
  - rewrite Z.min_id, Z.sub_diag. apply Z.eqb_refl.
Qed.

Lemma number_or_null_eqb (n n' : number) :
  number_or_null n = Some n' -> number_eqb n' n' = true.
Proof.
  unfold number_or_null. destruct (isNaN n) eqn:E; [discriminate|].
  intros [= <-]. apply number_eqb_refl. exact E.
Qed.

Lemma getInteger_eqb (thing : Thing) (property : string) (n : number) :
  getInteger thing property = Some n -> number_eqb n n = true.
Proof.
  unfold getInteger. destruct (first_of _ property (attributes thing)); cbn.
  - unfold deserializeInteger. apply number_or_null_eqb.
  - discriminate.
Qed.

Lemma getDecimal_eqb (thing : Thing) (property : string) (n : number) :
  getDecimal thing property = Some n -> number_eqb n n = true.
Proof.
  unfold getDecimal. destruct (first_of _ property (attributes thing)); cbn.
  - unfold deserializeDecimal. apply number_or_null_eqb.
  - discriminate.
Qed.

(** The decoding switch never rejects, touches nothing but the console,
    and a value it yields equals itself: the getters hand back no NaN. *)
Lemma decode_keeps (thing : Thing) (w : World) :
  exists ov w', decode argv thing w = (Fulfilled ov, w')
    /\ (forall v, ov = Some v -> loose_eq v v = true)
    /\ characteristics w' = characteristics w /\ pod w' = pod w
    /\ requests w' = requests w /\ network w' = network w
    /\ local_writes w' = local_writes w /\ bus w' = bus w.
Proof.
  assert (Hlog : exists w', (log argv "Unsupported format" "solid" "ERROR" ;; ret None)%js w
                   = (Fulfilled (@None Js.value), w')
    /\ (forall v : Js.value, @None Js.value = Some v -> loose_eq v v = true)
    /\ characteristics w' = characteristics w /\ pod w' = pod w
    /\ requests w' = requests w /\ network w' = network w
    /\ local_writes w' = local_writes w /\ bus w' = bus w).
  { destruct (log_keeps argv "Unsupported format" "solid" "ERROR" w) as (w' & E & K).
    exists w'. unfold bind. rewrite E. split; [reflexivity|].
    split; [discriminate|exact K]. }
  assert (Hint : forall v, VNum <$> getInteger thing (IOT "value") = Some v ->
                           loose_eq v v = true).
  { intros v. destruct (getInteger thing (IOT "value")) as [n|] eqn:G; [|discriminate].
    intros [= <-]. cbn. eapply getInteger_eqb. exact G. }
  unfold decode.
  destruct (getStringNoLocale thing (IOT "format")) as [format|];
    [|destruct Hlog as (w' & E & K); exists None, w'; auto].
  destruct (String.eqb format "bool").
  { do 2 eexists. split; [reflexivity|]. split; [exact Hint|tauto]. }
  destruct (String.eqb format "string").
  { do 2 eexists. split; [reflexivity|]. split; [|tauto].
    intros v. destruct (getStringNoLocale thing (IOT "value")); [|discriminate].
    intros [= <-]. cbn. apply String.eqb_refl. }
  destruct (String.eqb format "float").
  { do 2 eexists. split; [reflexivity|]. split; [|tauto].
    intros v. destruct (getDecimal thing (IOT "value")) as [n|] eqn:G; [|discriminate].
    intros [= <-]. cbn. eapply getDecimal_eqb. exact G. }
  destruct (_ || _).
  { do 2 eexists. split; [reflexivity|]. split; [exact Hint|tauto]. }
  destruct Hlog as (w' & E & K). exists None, w'. auto.
Qed.

Lemma onmessage_pub (resourceUrl : UrlString) :
  onmessage argv ("pub " +:+ resourceUrl)
  = bind (cache_get resourceUrl) (fun curr =>
      match curr with
      | None => ret tt
      | Some curr =>
          bind (getSolidDataset resourceUrl) (fun data =>
            match getThing data (resourceUrl +:+ "#" +:+ characteristic_name curr) with
            | None => throw ThingExpectedError
            | Some thing =>
                bind (decode argv thing) (fun value =>
                  match value with
                  | Some value =>
                      if negb (loose_eq value (Characteristic.value curr)) then
                        bind (if Characteristic.setValue curr
                              then setValue curr value else ret None)
                          (fun updated =>
                             match updated with
                             | Some updated => cache_set resourceUrl updated
                             | None => ret tt
                             end)
                      else ret tt
                  | None => ret tt
                  end)
            end)
      end).
Proof. reflexivity. Qed.

(** The handler once the record is fetched and decoded. *)
Lemma onmessage_decoded (resourceUrl : UrlString) (curr : CharacteristicType)
    (w w2 : World) (data : SolidDataset) (thing : Thing) (ov : option Js.value) :
  characteristics w !! resourceUrl = Some curr ->
  succeeds w = true ->
  pod w !! resourceUrl = Some data ->
  getThing {| sourceIri := resourceUrl; things := data |}
    (resourceUrl +:+ "#" +:+ characteristic_name curr) = Some thing ->
  decode argv thing (sent (Get resourceUrl) (pod w) w) = (Fulfilled ov, w2) ->
  onmessage argv ("pub " +:+ resourceUrl) w
  = match ov with
    | Some value =>
        if negb (loose_eq value (Characteristic.value curr)) then
          bind (if Characteristic.setValue curr
                then setValue curr value else ret None)
            (fun updated =>
               match updated with
               | Some updated => cache_set resourceUrl updated
               | None => ret tt
               end) w2
        else (Fulfilled tt, w2)
    | None => (Fulfilled tt, w2)
    end.
Proof.
  intros Hc Hs Hp Ht Hd. rewrite onmessage_pub.
  unfold bind at 1, cache_get. rewrite Hc.
  unfold bind at 1, getSolidDataset. rewrite Hs, Hp, Ht.
  unfold bind at 1. rewrite Hd.
  destruct ov as [v|]; [|reflexivity].
  destruct (negb (loose_eq v (Characteristic.value curr))); reflexivity.
Qed.

(** Either the handler makes no local write and leaves the cache, or it
    writes one decoded value that differs from the cached one, and the
    cache follows what the device confirms. *)
Lemma onmessage_outcomes (resourceUrl : UrlString) (curr : CharacteristicType)
    (w : World) :
  characteristics w !! resourceUrl = Some curr ->
  let w' := snd (onmessage argv ("pub " +:+ resourceUrl) w) in
  (local_writes w' = local_writes w /\ characteristics w' = characteristics w)
  \/ (exists v,
        loose_eq v v = true
        /\ loose_eq v (Characteristic.value curr) = false
        /\ local_writes w' = (local_writes w ++ [(curr, v)])%list
        /\ characteristics w'
           = match default (Confirms v) (head (bus w)) with
             | Confirms v' => <[resourceUrl := Characteristic.with_value v' curr]>
                                (characteristics w)
             | Silent | Refuses => characteristics w
             end).
Proof.
  intros Hc. cbv zeta.
  destruct (onmessage argv ("pub " +:+ resourceUrl) w) as [r w'] eqn:E.
  cbn [snd]. rewrite onmessage_pub in E. revert E.
  unfold bind at 1, cache_get. rewrite Hc.
  unfold bind at 1, getSolidDataset.
  destruct (succeeds w); [|intros [= <- <-]; left; split; reflexivity].
  destruct (pod w !! resourceUrl) as [data|];
    [|intros [= <- <-]; left; split; reflexivity].
  destruct (getThing _ _) as [thing|];
    [|intros [= <- <-]; left; split; reflexivity].
  destruct (decode_keeps thing (sent (Get resourceUrl) (pod w) w))
    as (ov & w2 & Hd & Hself & K1 & _ & _ & _ & K5 & K6).
  unfold bind at 1. rewrite Hd. cbn in K1, K5, K6.
  destruct ov as [v|]; [|intros [= <- <-]; left; split; assumption].
  destruct (loose_eq v (Characteristic.value curr)) eqn:L; cbn [negb];
    [intros [= <- <-]; left; split; assumption|].
  destruct (Characteristic.setValue curr);
    [|intros [= <- <-]; left; split; assumption].
  intros E. right. exists v.
  split; [apply Hself; reflexivity|]. split; [exact L|].
  revert E. unfold bind, setValue. rewrite K6.
  destruct (default (Confirms v) (head (bus w))) as [v'| |]; cbn;
    intros [= <- <-]; cbn; rewrite K5, K1; split; reflexivity.
Qed.

End Reverse.

(** C8.  A notification whose resource id has no entry in the change
    cache ends the handler at once: it is fulfilled and the world is as
    it was, so no fetch was sent, no local write made, and the cache is
    unchanged. *)
Theorem unknown_resource_is_dropped (argv : Argv) (data : string) (w : World) :
  characteristics w !! slice_from 4 data = None ->
  onmessage argv data w = (Fulfilled tt, w).
Proof.
  intros H. unfold onmessage.
  destruct (negb (String.eqb data "") && String.eqb (slice_to 3 data) "pub");
    [|reflexivity].
  unfold bind, cache_get. rewrite H. reflexivity.
Qed.

Lemma unknown_resource_is_dropped_witness :
  onmessage Scenario.argv "pub https://pod.example/home/Characteristics/zzz/On"
    Scenario.synced
  = (Fulfilled tt, Scenario.synced).
Proof.
  apply (unknown_resource_is_dropped Scenario.argv
           "pub https://pod.example/home/Characteristics/zzz/On" Scenario.synced).
  vm_compute. reflexivity.
Defined.

(** C5.  Reverse sync applies a remote value [v]: the handler makes the
    local write of [v], and the device confirms a value [v'].  Then the
    change cache holds [v'] for the resource, and a local change
    notification for that resource whose value equals [v'] (by [==]) is
    suppressed by forward sync's guard: the call is fulfilled with the
    world as it was, so no remote write is sent.  An applied value always
    equals itself, so when the device confirms [v] itself the
    notification carrying [v] is suppressed. *)
Theorem reverse_sync_value_is_not_echoed (argv : Argv) (resourceUrl : UrlString)
    (curr : CharacteristicType) (v v' : Js.value) (w : World) :
  characteristics w !! resourceUrl = Some curr ->
  local_writes (snd (onmessage argv ("pub " +:+ resourceUrl) w))
  = (local_writes w ++ [(curr, v)])%list ->
  default (Confirms v) (head (bus w)) = Confirms v' ->
  characteristics (snd (onmessage argv ("pub " +:+ resourceUrl) w)) !! resourceUrl
  = Some (Characteristic.with_value v' curr)
  /\ loose_eq v v = true
  /\ forall (update : ServiceType) (c : CharacteristicType),
       characteristic_url argv update c = resourceUrl ->
       loose_eq (Characteristic.value c) v' = true ->
       syncCharacteristicToSolid argv update c
         (snd (onmessage argv ("pub " +:+ resourceUrl) w))
       = (Fulfilled None, snd (onmessage argv ("pub " +:+ resourceUrl) w))
       /\ (Service.serviceCharacteristics update = [c] ->
           service_update argv [update]
             (snd (onmessage argv ("pub " +:+ resourceUrl) w))
           = (Fulfilled tt, snd (onmessage argv ("pub " +:+ resourceUrl) w))).
Proof.
  intros Hc Hw Hbus.
  destruct (onmessage_outcomes argv resourceUrl curr w Hc)
    as [[Hsame _]|(v0 & Hself & _ & Hlw & Hcache)].
  - rewrite Hsame in Hw. apply (f_equal length) in Hw.
    rewrite length_app in Hw. cbn in Hw. lia.
  - rewrite Hlw in Hw. apply app_inj_tail in Hw as [_ [= ->]].
    rewrite Hbus in Hcache.
    set (w1 := snd (onmessage argv ("pub " +:+ resourceUrl) w)) in *.
    assert (Hl : characteristics w1 !! resourceUrl
                 = Some (Characteristic.with_value v' curr)).
    { rewrite Hcache. apply lookup_insert_eq. }
    split; [exact Hl|]. split; [exact Hself|].
    intros update c Hurl Hval.
    assert (Hs : syncCharacteristicToSolid argv update c w1 = (Fulfilled None, w1)).
    { apply sync_unchanged. rewrite Hurl, Hl. exact Hval. }
    split; [exact Hs|].
    intros Hcs. cbn [service_update]. rewrite Hcs. cbn [each_characteristic].
    unfold bind, detached. rewrite Hs. reflexivity.
Qed.

Lemma reverse_sync_value_is_not_echoed_witness :
  service_update Scenario.argv [Scenario.D1 [Scenario.on (VNum (of_Z 1))]]
    (snd (onmessage Scenario.argv ("pub " +:+ Scenario.on_url) Scenario.commanded))
  = (Fulfilled tt,
     snd (onmessage Scenario.argv ("pub " +:+ Scenario.on_url) Scenario.commanded)).
Proof.
  refine (proj2 (proj2 (proj2 (reverse_sync_value_is_not_echoed Scenario.argv
            Scenario.on_url (Scenario.on (VBool false)) (VNum (of_Z 1))
            (VNum (of_Z 1)) Scenario.commanded _ _ _))
            (Scenario.D1 [Scenario.on (VNum (of_Z 1))])
            (Scenario.on (VNum (of_Z 1))) _ _) _).
  - vm_compute. reflexivity.
  - vm_compute. reflexivity.
  - reflexivity.
  - reflexivity.
  - reflexivity.
  - reflexivity.
Defined.

(** C9.  Both directions compare with [==].  Forward sync is the no-op
    exactly when the candidate value is loosely equal to the cached one;
    reverse sync makes no local write and leaves the cache when the
    decoded value is loosely equal to the cached one.  A number equals the
    string that reads as it, and 1 equals [true], though neither pair is
    strictly equal: a change of the value's type alone is suppressed. *)
Theorem value_comparison_is_loose (argv : Argv) :
  (forall (device : ServiceType) (c curr : CharacteristicType) (w : World),
     characteristics w !! characteristic_url argv device c = Some curr ->
     (syncCharacteristicToSolid argv device c w = (Fulfilled None, w)
      <-> loose_eq (Characteristic.value c) (Characteristic.value curr) = true))
  /\ (forall (resourceUrl : UrlString) (curr : CharacteristicType) (w w2 : World)
        (data : SolidDataset) (thing : Thing) (v : Js.value),
       characteristics w !! resourceUrl = Some curr ->
       succeeds w = true ->
       pod w !! resourceUrl = Some data ->
       getThing {| sourceIri := resourceUrl; things := data |}
         (resourceUrl +:+ "#" +:+ characteristic_name curr) = Some thing ->
       decode argv thing (sent (Get resourceUrl) (pod w) w)
       = (Fulfilled (Some v), w2) ->
       loose_eq v (Characteristic.value curr) = true ->
       onmessage argv ("pub " +:+ resourceUrl) w = (Fulfilled tt, w2)
       /\ characteristics w2 = characteristics w
       /\ local_writes w2 = local_writes w)
  /\ (forall (s : string) (n : number),
       string_to_number s = n -> isNaN n = false ->
       loose_eq (VStr s) (VNum n) = true
       /\ loose_eq (VNum n) (VStr s) = true
       /\ strict_eq (VStr s) (VNum n) = false
       /\ strict_eq (VNum n) (VStr s) = false)
  /\ (loose_eq (VNum (of_Z 1)) (VStr "1") = true
      /\ strict_eq (VNum (of_Z 1)) (VStr "1") = false
      /\ loose_eq (VNum (of_Z 1)) (VBool true) = true
      /\ strict_eq (VNum (of_Z 1)) (VBool true) = false).
Proof.
  split; [|split; [|split]].
  - intros device c curr w Hc. split.
    + intros Hs.
      destruct (loose_eq (Characteristic.value c) (Characteristic.value curr))
        eqn:L; [reflexivity|].
      assert (U : unchanged (characteristics w !! characteristic_url argv device c) c
                  = false) by (rewrite Hc; exact L).
      destruct (sync_changed_run argv device c w U)
        as (thing & _ & _ & _ & _ & _ & _ & Hr).
      rewrite Hs in Hr. cbn [fst snd] in Hr.
      destruct (succeeds w); destruct Hr; discriminate.
    + intros L. apply sync_unchanged. rewrite Hc. exact L.
  - intros resourceUrl curr w w2 data thing v Hc Hs Hp Ht Hd L.
    rewrite (onmessage_decoded argv resourceUrl curr w w2 data thing (Some v)
               Hc Hs Hp Ht Hd).
    rewrite L. cbn [negb]. split; [reflexivity|].
    destruct (decode_keeps argv thing (sent (Get resourceUrl) (pod w) w))
      as (ov & w3 & Hd' & _ & K1 & _ & _ & _ & K5 & _).
    rewrite Hd in Hd'. injection Hd' as _ <-. cbn in K1, K5. auto.
  - intros s n Hn Hnan. cbn. rewrite Hn.
    rewrite (number_eqb_refl n Hnan). auto.
  - repeat split; reflexivity.
Qed.

Lemma value_comparison_is_loose_witness :
  (syncCharacteristicToSolid Scenario.argv (Scenario.D1 [])
     (Scenario.on (VStr "1")) Scenario.switched_on
   = (Fulfilled None, Scenario.switched_on)
   <-> loose_eq (VStr "1") (VBool true) = true)
  /\ onmessage Scenario.argv ("pub " +:+ Scenario.on_url) Scenario.switched_on
     = (Fulfilled tt,
        sent (Get Scenario.on_url) (pod Scenario.switched_on) Scenario.switched_on).
Proof.
  split.
  - apply (proj1 (value_comparison_is_loose Scenario.argv) (Scenario.D1 [])
             (Scenario.on (VStr "1")) (Scenario.on (VBool true))
             Scenario.switched_on).
    vm_compute. reflexivity.
  - refine (proj1 (proj1 (proj2 (value_comparison_is_loose Scenario.argv))
             Scenario.on_url (Scenario.on (VBool true)) Scenario.switched_on
             (sent (Get Scenario.on_url) (pod Scenario.switched_on)
                Scenario.switched_on)
             [add (describe (Scenario.on (VBool true))) (IOT "value")
                (Integer (of_Z 1))]
             (add (describe (Scenario.on (VBool true))) (IOT "value")
                (Integer (of_Z 1)))
             (VNum (of_Z 1)) _ _ _ _ _ _)); vm_compute; reflexivity.
Defined.

(** ** Resource naming *)

Lemma replace_non_letters_filter (s : string) :
  replace_non_letters s = letters_of s.
Proof.
  unfold letters_of. induction s as [|a s IH]; [reflexivity|].
  cbn. destruct (is_letter a); cbn; rewrite IH; reflexivity.
Qed.

Lemma fold_addUrl_name (property : string) (urls : list UrlString) (thing : Thing) :
  name (fold_left (fun thing u => addUrl thing property u) urls thing)
  = name thing.
Proof.
  revert thing. induction urls as [|u urls IH]; intros thing; [reflexivity|].
  cbn [fold_left]. rewrite IH. reflexivity.
Qed.

Lemma link_characteristics_name (argv : Argv) (device : ServiceType)
    (cs : list CharacteristicType) :
  forall (thing thing' : Thing) (w w' : World),
    link_characteristics argv device cs thing w = (Fulfilled thing', w') ->
    name thing' = name thing.
Proof.
  induction cs as [|c cs IH]; intros thing thing' w w' L.
  - cbn in L. injection L as <- _. reflexivity.
  - cbn [link_characteristics] in L. unfold bind in L.
    destruct (syncCharacteristicToSolid argv device c w) as [[res|e] w1];
      [|discriminate].
    rewrite (IH _ _ _ _ L). destruct res; reflexivity.
Qed.

(** C6.  The local name of a resource is its display name with every
    character that is not an ASCII letter removed, followed by the numeric
    id for a device (its [aid]) and for a characteristic (its [iid]) and by
    nothing for a group.  This holds of the things the sync functions
    write, whatever the world and the other fields are; the resource URLs
    are likewise functions of the home URL, the device's unique id and the
    type, so equal inputs give the equal identifier. *)
Theorem resource_names_are_letters_and_id :
  (forall s : string, replace_non_letters s = letters_of s)
  /\ (forall (groupName : string) (deviceUrls : list UrlString) (id : number),
       name (group_thing groupName deviceUrls) = local_name Group groupName id)
  /\ (forall (argv : Argv) (device : ServiceType) (thing : Thing) (w w' : World),
       link_characteristics argv device (Service.serviceCharacteristics device)
         (device_thing device) w = (Fulfilled thing, w') ->
       name thing
       = local_name Device (Service.serviceName device) (Service.aid device))
  /\ (forall (argv : Argv) (device : ServiceType) (c : CharacteristicType)
        (w : World),
       unchanged (characteristics w !! characteristic_url argv device c) c = false ->
       exists thing,
         requests (snd (syncCharacteristicToSolid argv device c w))
         = (requests w ++ [Put (characteristic_url argv device c) [thing]])%list
         /\ name thing
            = local_name Characteristic (Characteristic.type c)
                (Characteristic.iid c))
  /\ (forall (argv : Argv) (device device' : ServiceType)
        (c c' : CharacteristicType),
       Service.uniqueId device = Service.uniqueId device' ->
       Characteristic.type c = Characteristic.type c' ->
       Characteristic.iid c = Characteristic.iid c' ->
       characteristic_url argv device c = characteristic_url argv device' c'
       /\ characteristic_name c = characteristic_name c')
  /\ (forall (argv : Argv) (device device' : ServiceType),
       Service.uniqueId device = Service.uniqueId device' ->
       Service.serviceName device = Service.serviceName device' ->
       Service.aid device = Service.aid device' ->
       device_url argv device = device_url argv device'
       /\ device_name device = device_name device').
Proof.
  split; [exact replace_non_letters_filter|].
  split.
  { intros g urls id. unfold group_thing. rewrite fold_addUrl_name. cbn.
    apply replace_non_letters_filter. }
  split.
  { intros argv device thing w w' L.
    rewrite (link_characteristics_name argv device _ _ _ _ _ L). cbn.
    unfold device_name. rewrite replace_non_letters_filter. reflexivity. }
  split.
  { intros argv device c w U.
    destruct (sync_changed_run argv device c w U) as (thing & N & _ & R & _).
    exists thing. split; [exact R|]. rewrite N. cbn.
    unfold characteristic_name. rewrite replace_non_letters_filter. reflexivity. }
  split.
  { intros argv device device' c c' Hu Ht Hi.
    unfold characteristic_url, characteristic_name. rewrite Hu, Ht, Hi. auto. }
  intros argv device device' Hu Hn Ha.
  unfold device_url, device_name. rewrite Hu, Hn, Ha. auto.
Qed.

Lemma resource_names_are_letters_and_id_witness :
  (exists thing,
     requests (snd (syncCharacteristicToSolid Scenario.argv (Scenario.D1 [])
                      (Scenario.temperature (VNum (Finite 215 (-1))))
                      (Scenario.fresh [])))
     = [Put "https://pod.example/home/Characteristics/a1b2c3/CurrentTemperature"
          [thing]]
     /\ name thing = "CurrentTemperature13")
  /\ name (device_thing (Scenario.D1 [])) = "DeskLamp2"
  /\ name (group_thing "Kitchen & Co. 2" []) = "KitchenCo".
Proof.
  split; [|split].
  - apply (proj1 (proj2 (proj2 (proj2 resource_names_are_letters_and_id)))
             Scenario.argv (Scenario.D1 [])
             (Scenario.temperature (VNum (Finite 215 (-1)))) (Scenario.fresh [])).
    reflexivity.
  - apply (proj1 (proj2 (proj2 resource_names_are_letters_and_id))
             Scenario.argv (Scenario.D1 []) (device_thing (Scenario.D1 []))
             (Scenario.fresh []) (Scenario.fresh [])).
    reflexivity.
  - apply (proj1 (proj2 resource_names_are_letters_and_id)
             "Kitchen & Co. 2" [] NaN).
Defined.

(** ** Printed numerals read back

    The Solid client keeps a numeric literal as [Number::toString] prints
    it and reads it with [parseInt] or [parseFloat].  What is printed for
    an integer of size below 10^21 is its digits, which [parseInt] reads
    back as that integer; what is printed for any number is a decimal
    numeral that [parseFloat] reads back as an equal number. *)

Import Numeral.

Section Numerals.

Lemma digits_value_fold (l : list ascii) : digits_value 10 l = fold_left step l 0.
Proof. reflexivity. Qed.

Lemma is_digit_val (c : ascii) :
  is_digit c = true ->
  exists d, digit_val c = Some d /\ 0 <= d <= 9 /\ is_radix_digit 10 c = true.
Proof.
  unfold is_digit, is_radix_digit, digit_val. intros H. rewrite H.
  apply andb_prop in H as [H1 H2].
  apply N.leb_le in H1. apply N.leb_le in H2.
  eexists. split; [reflexivity|]. split; [lia|]. apply Z.ltb_lt. lia.
Qed.

Lemma span_spec {A} (p : A -> bool) (l : list A) :
  l = (fst (span p l) ++ snd (span p l))%list
  /\ Forall (fun x => p x = true) (fst (span p l)).
Proof.
  induction l as [|x l [IH1 IH2]]; cbn; [auto|].
  destruct (p x) eqn:E; [|cbn; auto].
  destruct (span p l) as [a b]. cbn in *. split; [congruence|].
  constructor; assumption.
Qed.

Lemma span_app_stop {A} (p : A -> bool) (l rest : list A) :
  Forall (fun x => p x = true) l ->
  match rest with [] => True | c :: _ => p c = false end ->
  span p (l ++ rest) = (l, rest).
Proof.
  intros H Hr. induction H as [|x l Hx _ IH]; cbn.
  - destruct rest as [|c rest]; [reflexivity|]. cbn. rewrite Hr. reflexivity.
  - rewrite Hx, IH. reflexivity.
Qed.

Lemma span_all {A} (p : A -> bool) (l : list A) :
  Forall (fun x => p x = true) l -> span p l = (l, []).
Proof.
  intros H. rewrite <- (app_nil_r l) at 1. apply span_app_stop; [exact H|exact I].
Qed.

Lemma fold_step_app (l l' : list ascii) (a : Z) :
  fold_left step (l ++ l') a = fold_left step l' (fold_left step l a).
Proof. apply fold_left_app. Qed.

Lemma fold_step_zeros (j : nat) (a : Z) :
  fold_left step (replicate j "0"%char) a = a * 10 ^ Z.of_nat j.
Proof.
  revert a. induction j as [|j IH]; intros a.
  - cbn. lia.
  - cbn [replicate fold_left]. rewrite IH.
    change (step a "0"%char) with (10 * a + 0).
    rewrite Nat2Z.inj_succ, Z.pow_succ_r by lia. lia.
Qed.

(** Digits of the library's decimal printing *)
Lemma chars_digits (d : Decimal.uint) : Forall (fun c => is_digit c = true) (chars d).
Proof.
  unfold chars.
  induction d; cbn [NilEmpty.string_of_uint list_ascii_of_string];
    constructor; solve [reflexivity|assumption].
Qed.

Ltac digit_step :=
  unfold step;
  match goal with
  | |- context [default 0 (digit_val ?c)] =>
      let v := eval vm_compute in (default 0 (digit_val c)) in
      change (default 0 (digit_val c)) with v
  end.

Lemma fold_chars_acc (d : Decimal.uint) :
  forall acc : positive,
    fold_left step (chars d) (Zpos acc) = Zpos (Pos.of_uint_acc d acc).
Proof.
  induction d; intros acc; [reflexivity|..];
    cbn [chars NilEmpty.string_of_uint list_ascii_of_string fold_left Pos.of_uint_acc];
    fold (chars d); rewrite <- IHd; f_equal; digit_step;
    rewrite ?Pos2Z.inj_add, ?Pos2Z.inj_mul; lia.
Qed.

Lemma fold_chars (d : Decimal.uint) :
  fold_left step (chars d) 0 = Z.of_N (Pos.of_uint d).
Proof.
  induction d; [reflexivity|..];
    cbn [chars NilEmpty.string_of_uint list_ascii_of_string fold_left Pos.of_uint];
    fold (chars d); [exact IHd|..];
    cbn [Z.of_N]; rewrite <- fold_chars_acc; f_equal.
Qed.

Lemma digits_of_chars (p : positive) : digits_of p = chars (Pos.to_uint p).
Proof.
  unfold digits_of, chars, NilZero.string_of_uint.
  pose proof (Unsigned.to_uint_nonnil p) as H.
  destruct (Pos.to_uint p); [contradiction|reflexivity..].
Qed.

Lemma digits_of_value (p : positive) : digits_value 10 (digits_of p) = Zpos p.
Proof.
  rewrite digits_of_chars.
  rewrite digits_value_fold, fold_chars, Unsigned.of_to. reflexivity.
Qed.

Lemma digits_of_digits (p : positive) : Forall (fun c => is_digit c = true) (digits_of p).
Proof. rewrite digits_of_chars. apply chars_digits. Qed.

Lemma nzhead_head (d : Decimal.uint) :
  match Decimal.nzhead d with Decimal.D0 _ => False | _ => True end.
Proof. induction d; cbn; auto. Qed.

Lemma to_uint_head (p : positive) :
  match Pos.to_uint p with Decimal.Nil | Decimal.D0 _ => False | _ => True end.
Proof.
  pose proof (Unsigned.to_of (Pos.to_uint p)) as H.
  rewrite Unsigned.of_to in H. change (N.to_uint (N.pos p)) with (Pos.to_uint p) in H.
  pose proof (Unsigned.to_uint_nonzero p) as Hz.
  pose proof (Unsigned.to_uint_nonnil p) as Hn.
  destruct (Pos.to_uint p) as [|d'| | | | | | | | |]; auto.
  rewrite unorm_D0 in H. unfold Decimal.unorm in H.
  pose proof (nzhead_head d') as Hh.
  destruct (Decimal.nzhead d') eqn:E; try discriminate; auto.
Qed.

Lemma fold_step_lower (l : list ascii) :
  forall a : Z, 0 <= a ->
    Forall (fun c => is_digit c = true) l ->
    a * 10 ^ Z.of_nat (length l) <= fold_left step l a.
Proof.
  induction l as [|c l IH]; intros a Ha H; cbn [fold_left length].
  - cbn. lia.
  - inversion H as [|? ? Hc Hl]; subst.
    destruct (is_digit_val c Hc) as (d & Hd & Hr & _).
    assert (Hs : step a c = 10 * a + d) by (unfold step; rewrite Hd; reflexivity).
    specialize (IH (step a c) ltac:(lia) Hl).
    rewrite Nat2Z.inj_succ, Z.pow_succ_r by lia. nia.
Qed.

(** A positive number is at least the power of ten its digit count
    announces. *)
Lemma digits_of_lower (p : positive) :
  10 ^ (Z.of_nat (length (digits_of p)) - 1) <= Zpos p.
Proof.
  rewrite <- (digits_of_value p). rewrite !digits_of_chars.
  pose proof (to_uint_head p) as H. pose proof (chars_digits (Pos.to_uint p)) as D.
  destruct (Pos.to_uint p) eqn:E; try contradiction;
    cbn [chars NilEmpty.string_of_uint list_ascii_of_string] in *; fold (chars u) in *;
    inversion D as [|? ? _ Dl]; subst;
    rewrite digits_value_fold; cbn [fold_left length];
    (etransitivity; [|apply fold_step_lower; [vm_compute; discriminate|exact Dl]]);
    rewrite Nat2Z.inj_succ; replace (Z.succ (Z.of_nat (length (chars u))) - 1)
      with (Z.of_nat (length (chars u))) by lia;
    change (step 0 _) with 1 || change (step 0 _) with 2 || change (step 0 _) with 3
    || change (step 0 _) with 4 || change (step 0 _) with 5 || change (step 0 _) with 6
    || change (step 0 _) with 7 || change (step 0 _) with 8 || change (step 0 _) with 9;
    assert (0 < 10 ^ Z.of_nat (length (chars u))) by (apply Z.pow_pos_nonneg; lia);
    lia.
Qed.

Lemma zeros_replicate (l : list ascii) :
  Forall (fun c => (c =? "0")%char = true) l ->
  l = replicate (length l) "0"%char.
Proof.
  induction 1 as [|c l Hc _ IH]; [reflexivity|].
  apply Ascii.eqb_eq in Hc. subst c. cbn. f_equal. exact IH.
Qed.

Lemma rev_replicate {A} (n : nat) (x : A) : rev (replicate n x) = replicate n x.
Proof.
  induction n as [|n IH]; [reflexivity|].
  cbn. rewrite IH. clear IH. induction n; cbn; congruence.
Qed.

(** What [strip_trailing_zeros] splits off can be put back. *)
Lemma strip_trailing_zeros_spec (l : list ascii) :
  l = (fst (strip_trailing_zeros l)
       ++ replicate (snd (strip_trailing_zeros l)) "0"%char)%list
  /\ (forall P : ascii -> Prop, Forall P l -> Forall P (fst (strip_trailing_zeros l))).
Proof.
  unfold strip_trailing_zeros.
  destruct (span_spec (fun c => (c =? "0")%char) (rev l)) as [Hs Hz].
  destruct (span (fun c => (c =? "0")%char) (rev l)) as [zs r]. cbn [fst snd] in *.
  split.
  - rewrite <- (rev_involutive l), Hs, rev_app_distr.
    rewrite (zeros_replicate zs Hz) at 1. rewrite rev_replicate. reflexivity.
  - intros P H. apply Forall_rev. apply Forall_rev in H. rewrite Hs in H.
    apply Forall_app in H. tauto.
Qed.

Lemma digit_not (c x : ascii) :
  is_digit c = true -> is_digit x = false -> c <> x.
Proof. intros H Hx ->. congruence. Qed.

Lemma digit_not_space (c : ascii) : is_digit c = true -> is_space c = false.
Proof.
  unfold is_digit, is_space. intros H. apply andb_prop in H as [H1 H2].
  apply N.leb_le in H1. apply N.leb_le in H2.
  apply orb_false_iff. split.
  - apply andb_false_iff. right. apply N.leb_gt. lia.
  - apply N.eqb_neq. lia.
Qed.

Lemma trimStart_head (c : ascii) (l : list ascii) :
  is_space c = false -> trimStart (c :: l) = c :: l.
Proof. unfold trimStart. cbn. intros ->. reflexivity. Qed.

Lemma scan_sign_none (c : ascii) (l : list ascii) :
  c <> "-"%char -> c <> "+"%char -> scan_sign (c :: l) = (false, c :: l).
Proof.
  intros H1 H2.
  destruct c as [[|] [|] [|] [|] [|] [|] [|] [|]]; try reflexivity; congruence.
Qed.

Lemma scan_sign_digit (c : ascii) (l : list ascii) :
  is_digit c = true -> scan_sign (c :: l) = (false, c :: l).
Proof. intros H. apply scan_sign_none; apply (digit_not c _ H); reflexivity. Qed.

Lemma digits_of_cons (q : positive) :
  exists c l, digits_of q = c :: l /\ is_digit c = true.
Proof.
  pose proof (digits_of_value q) as V. pose proof (digits_of_digits q) as D.
  destruct (digits_of q) as [|c l]; [discriminate|].
  inversion D; subst. eauto.
Qed.

(** The exponent part reads back as the exponent. *)
Lemma scan_exponent_to_string (ex : Z) :
  scan_exponent ("e"%char :: exponent_to_string ex) = (ex, []).
Proof.
  destruct ex as [|q|q]; [reflexivity| |];
    cbn [exponent_to_string scan_exponent Ascii.eqb Bool.eqb orb scan_sign];
    change (("e" =? "e")%char || ("e" =? "E")%char) with true; cbv iota;
    cbn [scan_sign]; rewrite (span_all _ _ (digits_of_digits q));
    destruct (digits_of_cons q) as (c & l & E & _);
    rewrite digits_of_value; rewrite E; reflexivity.
Qed.

(** The shapes [Number::toString] produces: digits, an optional point
    and digits, an optional exponent part. *)
Lemma scan_numeral (c : ascii) (ints : list ascii) (fracs : option (list ascii))
    (ex : option Z) :
  Forall (fun c => is_digit c = true) (c :: ints) ->
  match fracs with Some fs => Forall (fun c => is_digit c = true) fs | None => True end ->
  scan_unsigned_decimal
    ((c :: ints)
     ++ match fracs with Some fs => "."%char :: fs | None => [] end
     ++ match ex with Some x => "e"%char :: exponent_to_string x | None => [] end)
  = Some (Finite (digits_value 10 ((c :: ints) ++ default [] fracs))
            (default 0 ex - Z.of_nat (length (default [] fracs))), []).
Proof.
  intros Hi Hf. unfold scan_unsigned_decimal.
  assert (Hc : is_digit c = true) by (inversion Hi; assumption).
  assert (HI : strip_prefix (list_ascii_of_string "Infinity")
                 ((c :: ints) ++ match fracs with Some fs => "."%char :: fs | None => [] end
                  ++ match ex with Some x => "e"%char :: exponent_to_string x | None => [] end)
               = None).
  { cbn [app list_ascii_of_string strip_prefix].
    destruct (Ascii.eqb_spec "I" c) as [<-|]; [discriminate|reflexivity]. }
  rewrite HI. clear HI.
  assert (He : forall r0,
            r0 = match ex with Some x => "e"%char :: exponent_to_string x | None => [] end ->
            scan_exponent r0 = (default 0 ex, [])
            /\ match r0 with [] => True | x :: _ => is_digit x = false end
            /\ match r0 with "."%char :: _ => False | _ => True end).
  { intros r0 ->. destruct ex as [x|]; cbn [default].
    - split; [apply scan_exponent_to_string|]. split; [reflexivity|exact I].
    - repeat split. }
  destruct (He _ eq_refl) as (Hex & Hnd & Hnp).
  set (rex := match ex with Some x => "e"%char :: exponent_to_string x | None => [] end) in *.
  destruct fracs as [fs|]; cbn [default].
  - change (("."%char :: fs) ++ rex)%list with ("."%char :: (fs ++ rex))%list.
    rewrite (span_app_stop is_digit (c :: ints) ("."%char :: fs ++ rex) Hi eq_refl).
    rewrite (span_app_stop is_digit fs rex Hf Hnd). rewrite Hex. reflexivity.
  - cbn [app]. change (c :: (ints ++ rex)%list) with ((c :: ints) ++ rex)%list.
    rewrite (span_app_stop is_digit (c :: ints) rex Hi Hnd).
    rewrite !app_nil_r.
    destruct rex as [|x rex']; [rewrite Hex, app_nil_r; reflexivity|].
    assert (Hx : scan_exponent (x :: rex') = (default 0 ex, [])) by exact Hex.
    destruct x as [[|] [|] [|] [|] [|] [|] [|] [|]];
      try (rewrite Hx, app_nil_r; reflexivity); contradiction.
Qed.

Lemma scan_decimal_numeral (c : ascii) (ints : list ascii)
    (fracs : option (list ascii)) (ex : option Z) (l : list ascii) :
  l = ((c :: ints)
       ++ match fracs with Some fs => "."%char :: fs | None => [] end
       ++ match ex with Some x => "e"%char :: exponent_to_string x | None => [] end)%list ->
  Forall (fun c => is_digit c = true) (c :: ints) ->
  match fracs with Some fs => Forall (fun c => is_digit c = true) fs | None => True end ->
  scan_unsigned_decimal l
  = Some (Finite (digits_value 10 ((c :: ints) ++ default [] fracs))
            (default 0 ex - Z.of_nat (length (default [] fracs))), [])
  /\ exists l', l = c :: l' /\ is_digit c = true.
Proof.
  intros -> Hi Hf. split; [apply scan_numeral; assumption|].
  eexists. split; [reflexivity|]. inversion Hi; assumption.
Qed.

Lemma number_eqb_shift (m e z : Z) :
  0 <= z -> number_eqb (Finite m (e + z)) (Finite (m * 10 ^ z) e) = true.
Proof.
  intros Hz. unfold number_eqb. rewrite Z.min_r by lia.
  replace (e + z - e) with z by lia. rewrite Z.sub_diag, Z.pow_0_r, Z.mul_1_r.
  apply Z.eqb_refl.
Qed.

Lemma number_eqb_whole (m e z : Z) :
  0 <= z -> 0 <= e + z ->
  number_eqb (Finite (m * 10 ^ (e + z)) 0) (Finite (m * 10 ^ z) e) = true.
Proof.
  intros Hz Hez. unfold number_eqb. apply Z.eqb_eq.
  destruct (Z.le_ge_cases 0 e) as [He|He].
  - rewrite Z.min_l by lia. rewrite Z.sub_diag, Z.pow_0_r, Z.sub_0_r, Z.mul_1_r.
    rewrite Z.pow_add_r by lia. lia.
  - rewrite Z.min_r by lia. rewrite Z.sub_diag, Z.pow_0_r, Z.mul_1_r, Z.sub_0_l.
    rewrite <- Z.mul_assoc, <- Z.pow_add_r by lia.
    replace (e + z + - e) with z by lia. reflexivity.
Qed.

Lemma number_eqb_opp (a x b y : Z) :
  number_eqb (Finite a x) (Finite b y) = true ->
  number_eqb (Finite (- a) x) (Finite (- b) y) = true.
Proof.
  unfold number_eqb. intros H. apply Z.eqb_eq in H. apply Z.eqb_eq.
  rewrite !Z.mul_opp_l. congruence.
Qed.

Lemma digits_value_leading_zeros (j : nat) (l : list ascii) :
  digits_value 10 ("0"%char :: replicate j "0"%char ++ l) = digits_value 10 l.
Proof.
  rewrite !digits_value_fold. cbn [fold_left].
  change (step 0 "0"%char) with 0. rewrite fold_step_app, fold_step_zeros.
  reflexivity.
Qed.

(** The digits of a positive number, its trailing zeros set apart. *)
Lemma stripped_digits (p : positive) :
  let ds := fst (strip_trailing_zeros (digits_of p)) in
  let z := snd (strip_trailing_zeros (digits_of p)) in
  digits_of p = (ds ++ replicate z "0"%char)%list
  /\ Forall (fun c => is_digit c = true) ds
  /\ digits_value 10 ds * 10 ^ Z.of_nat z = Zpos p
  /\ ds <> [].
Proof.
  intros ds z.
  destruct (strip_trailing_zeros_spec (digits_of p)) as [Hs HP]. fold ds z in Hs, HP.
  pose proof (HP _ (digits_of_digits p)) as Hd.
  assert (Hv : digits_value 10 ds * 10 ^ Z.of_nat z = Z.pos p).
  { rewrite <- (digits_of_value p), Hs, !digits_value_fold, fold_step_app.
    rewrite fold_step_zeros. reflexivity. }
  repeat split; auto. intros E. rewrite E in Hv. cbn in Hv. lia.
Qed.

(** What [Number::toString] prints for a positive number scans back as a
    number equal to it. *)
Lemma scan_positive_to_string (p : positive) (e : Z) :
  exists M E c l',
    scan_unsigned_decimal (positive_to_string p e) = Some (Finite M E, [])
    /\ number_eqb (Finite M E) (Finite (Zpos p) e) = true
    /\ positive_to_string p e = c :: l' /\ is_digit c = true.
Proof.
  destruct (stripped_digits p) as (Hs & Hd & Hv & Hne). unfold positive_to_string.
  destruct (strip_trailing_zeros (digits_of p)) as [ds z]. cbn [fst snd] in *.
  destruct ds as [|c ds']; [contradiction|]. clear Hne.
  set (m := digits_value 10 (c :: ds')) in *.
  set (k := Z.of_nat (length (c :: ds'))).
  assert (Hk : k = Z.of_nat (length ds') + 1) by (subst k; cbn [length]; lia).
  set (n := k + e + Z.of_nat z).
  assert (Hc : is_digit c = true) by (inversion Hd; assumption).
  assert (Hds' : Forall (fun c => is_digit c = true) ds') by (inversion Hd; assumption).
  destruct ((k <=? n) && (n <=? 21)) eqn:CA.
  { apply andb_prop in CA as [Hlo Hhi]. apply Z.leb_le in Hlo.
    edestruct (scan_decimal_numeral c (ds' ++ replicate (Z.to_nat (n - k)) "0"%char)
                None None) as [H1 (l' & H2 & H3)];
      [cbn [app]; rewrite !app_nil_r; reflexivity| | exact I |].
    { constructor; [exact Hc|].
      apply Forall_app; split; [exact Hds'|apply Forall_replicate; reflexivity]. }
    do 4 eexists. split; [exact H1|]. split; [|split; [exact H2|exact H3]].
    cbn [default from_option id]. rewrite app_nil_r. cbn [length Z.of_nat]. rewrite Z.sub_0_r.
    change (c :: (ds' ++ replicate (Z.to_nat (n - k)) "0"%char)%list)
      with ((c :: ds') ++ replicate (Z.to_nat (n - k)) "0"%char)%list.
    rewrite digits_value_fold, fold_step_app, fold_step_zeros, <- digits_value_fold.
    fold m. rewrite Z2Nat.id by lia. rewrite <- Hv.
    replace (n - k) with (e + Z.of_nat z) by (subst n; lia).
    apply number_eqb_whole; subst n; lia. }
  destruct ((0 <? n) && (n <=? 21)) eqn:CB.
  { apply andb_prop in CB as [Hlo Hhi]. apply Z.ltb_lt in Hlo.
    apply andb_false_iff in CA. assert (Hnk : n < k).
    { destruct CA as [CA|CA]; [apply Z.leb_gt in CA; lia|congruence]. }
    destruct (Z.to_nat n) as [|j] eqn:Ej; [lia|]. cbn [take drop].
    assert (Hj : Z.of_nat j = n - 1) by lia.
    edestruct (scan_decimal_numeral c (take j ds') (Some (drop j ds')) None)
      as [H1 (l' & H2 & H3)];
      [cbn [app]; rewrite !app_nil_r; reflexivity| | |].
    { constructor; [exact Hc|apply Forall_take; exact Hds']. }
    { apply Forall_drop; exact Hds'. }
    do 4 eexists. split; [exact H1|]. split; [|split; [exact H2|exact H3]].
    cbn [default from_option id]. change ((c :: take j ds') ++ drop j ds')%list
      with (c :: (take j ds' ++ drop j ds'))%list.
    rewrite take_drop. fold m. rewrite length_drop, <- Hv.
    replace (0 - Z.of_nat (length ds' - j)) with (e + Z.of_nat z) by (subst n; lia).
    apply number_eqb_shift. lia. }
  destruct ((-6 <? n) && (n <=? 0)) eqn:CC.
  { apply andb_prop in CC as [Hlo Hhi]. apply Z.leb_le in Hhi.
    edestruct (scan_decimal_numeral "0"%char []
                (Some (replicate (Z.to_nat (- n)) "0"%char ++ c :: ds')%list) None)
      as [H1 (l' & H2 & H3)];
      [cbn [app]; rewrite !app_nil_r; reflexivity| | |].
    { repeat constructor. }
    { apply Forall_app; split; [apply Forall_replicate; reflexivity|exact Hd]. }
    do 4 eexists. split; [exact H1|]. split; [|split; [exact H2|exact H3]].
    cbn [default from_option id app]. rewrite digits_value_leading_zeros. fold m.
    rewrite length_app, length_replicate, <- Hv.
    replace (0 - Z.of_nat (Z.to_nat (- n) + length (c :: ds'))) with (e + Z.of_nat z)
      by (subst n k; lia).
    apply number_eqb_shift. lia. }
  destruct ds' as [|c2 ds''].
  { edestruct (scan_decimal_numeral c [] None (Some (n - 1)))
      as [H1 (l' & H2 & H3)]; [cbn [app]; reflexivity| | exact I |].
    { repeat constructor; exact Hc. }
    do 4 eexists. split; [exact H1|]. split; [|split; [exact H2|exact H3]].
    cbn [default from_option id app length Z.of_nat]. fold m. rewrite <- Hv.
    replace (n - 1 - Z.of_nat 0) with (e + Z.of_nat z) by (subst n k; cbn [length]; lia).
    apply number_eqb_shift. lia. }
  { edestruct (scan_decimal_numeral c [] (Some (c2 :: ds'')) (Some (n - 1)))
      as [H1 (l' & H2 & H3)]; [cbn [app]; reflexivity| | exact Hds' |].
    { repeat constructor; exact Hc. }
    do 4 eexists. split; [exact H1|]. split; [|split; [exact H2|exact H3]].
    cbn [default from_option id app]. fold m. rewrite <- Hv.
    replace (n - 1 - Z.of_nat (length (c2 :: ds''))) with (e + Z.of_nat z)
      by (subst n; lia).
    apply number_eqb_shift. lia. }
Qed.

Lemma span_stop {A} (p : A -> bool) (l : list A) :
  match snd (span p l) with [] => True | x :: _ => p x = false end.
Proof.
  induction l as [|x l IH]; cbn; [exact I|].
  destruct (p x) eqn:E; [|cbn; exact E].
  destruct (span p l); exact IH.
Qed.

Lemma nonzero_digit_val (c : ascii) :
  is_digit c = true -> (c =? "0")%char = false ->
  exists d, digit_val c = Some d /\ 1 <= d <= 9.
Proof.
  intros H H0. unfold is_digit in H. unfold digit_val. rewrite H.
  apply andb_prop in H as [H1 H2].
  apply N.leb_le in H1. apply N.leb_le in H2.
  eexists. split; [reflexivity|].
  assert (code c <> 48%N).
  { intros E. apply Ascii.eqb_neq in H0. apply H0.
    rewrite <- (ascii_N_embedding c). unfold code in E. rewrite E. reflexivity. }
  lia.
Qed.

(** The digits [strip_trailing_zeros] keeps do not end in a zero. *)
Lemma stripped_value_mod (l : list ascii) :
  Forall (fun c => is_digit c = true) l ->
  fst (strip_trailing_zeros l) = []
  \/ digits_value 10 (fst (strip_trailing_zeros l)) mod 10 <> 0.
Proof.
  intros D. unfold strip_trailing_zeros.
  pose proof (span_stop (fun c => (c =? "0")%char) (rev l)) as Hstop.
  destruct (span_spec (fun c => (c =? "0")%char) (rev l)) as [Hs _].
  destruct (span (fun c => (c =? "0")%char) (rev l)) as [zs r]. cbn [fst snd] in *.
  destruct r as [|x r']; [left; reflexivity|right].
  assert (Hx : is_digit x = true).
  { apply Forall_rev in D. rewrite Hs in D. apply Forall_app in D as [_ D].
    inversion D; assumption. }
  destruct (nonzero_digit_val x Hx Hstop) as (d & Hd & Hr).
  cbn [rev]. rewrite digits_value_fold, fold_step_app. cbn [fold_left].
  unfold step at 1. rewrite Hd. cbn [default from_option id].
  rewrite Z.add_comm, Z.mul_comm, Z.mod_add by lia.
  rewrite Z.mod_small by lia. lia.
Qed.

Lemma number_eqb_sym (x y : number) : number_eqb x y = number_eqb y x.
Proof.
  destruct x as [|a|m e], y as [|b|m' e']; cbn; try reflexivity.
  - destruct a, b; reflexivity.
  - rewrite (Z.min_comm e' e). apply Z.eqb_sym.
Qed.

(** A number that equals an integer, as an equation between integers. *)
Lemma number_eqb_of_Z (m e z : Z) :
  number_eqb (Finite m e) (of_Z z) = true ->
  (0 <= e /\ m * 10 ^ e = z) \/ (e < 0 /\ m = z * 10 ^ (- e)).
Proof.
  unfold number_eqb, of_Z. intros H. apply Z.eqb_eq in H.
  destruct (Z.le_gt_cases 0 e) as [He|He].
  - left. rewrite Z.min_r in H by lia.
    rewrite Z.sub_0_r, Z.sub_diag, Z.pow_0_r, Z.mul_1_r in H. auto.
  - right. rewrite Z.min_l in H by lia.
    rewrite Z.sub_diag, Z.pow_0_r, Z.mul_1_r, Z.sub_0_l in H. auto.
Qed.

(** A positive integer below 10^21 is printed as its digits and nothing
    else. *)
Lemma plain_digits (p : positive) (e z : Z) :
  z < 10 ^ 21 ->
  number_eqb (Finite (Zpos p) e) (of_Z z) = true ->
  exists c l,
    positive_to_string p e = c :: l
    /\ Forall (fun c => is_digit c = true) (c :: l)
    /\ digits_value 10 (c :: l) = z.
Proof.
  intros Hz Heq. apply number_eqb_of_Z in Heq.
  destruct (stripped_digits p) as (Hs & Hd & Hv & Hne).
  pose proof (stripped_value_mod (digits_of p) (digits_of_digits p)) as Hmod.
  pose proof (digits_of_lower p) as Hlow.
  unfold positive_to_string.
  destruct (strip_trailing_zeros (digits_of p)) as [ds zc]. cbn [fst snd] in *.
  destruct Hmod as [Hmod|Hmod]; [contradiction|].
  rewrite Hs, length_app, length_replicate, Nat2Z.inj_add in Hlow.
  set (m := digits_value 10 ds) in *.
  set (k := Z.of_nat (length ds)) in *.
  assert (Hk : 1 <= k).
  { subst k. destruct ds; [contradiction|]. cbn [length]. lia. }
  assert (Hm : 0 < m) by (assert (0 < 10 ^ Z.of_nat zc) by (apply Z.pow_pos_nonneg; lia); nia).
  assert (A : 0 <= e + Z.of_nat zc /\ m * 10 ^ (e + Z.of_nat zc) = z).
  { destruct Heq as [[He Heq]|[He Heq]].
    - split; [lia|]. rewrite Z.add_comm, Z.pow_add_r by lia.
      rewrite Z.mul_assoc, Hv. exact Heq.
    - destruct (Z.le_gt_cases 0 (e + Z.of_nat zc)) as [Hez|Hez].
      + split; [exact Hez|].
        assert (P : 0 < 10 ^ (- e)) by (apply Z.pow_pos_nonneg; lia).
        apply (Z.mul_cancel_r _ _ (10 ^ (- e))); [lia|].
        rewrite <- Z.mul_assoc, <- Z.pow_add_r by lia.
        replace (e + Z.of_nat zc + - e) with (Z.of_nat zc) by lia.
        rewrite Hv. exact Heq.
      + exfalso. apply Hmod.
        assert (P : 0 < 10 ^ Z.of_nat zc) by (apply Z.pow_pos_nonneg; lia).
        assert (E : m = z * 10 ^ (- e - Z.of_nat zc - 1) * 10).
        { apply (Z.mul_cancel_r _ _ (10 ^ Z.of_nat zc)); [lia|].
          rewrite Hv, Heq.
          replace (- e) with ((- e - Z.of_nat zc - 1) + 1 + Z.of_nat zc) at 1 by lia.
          rewrite !Z.pow_add_r by lia. rewrite Z.pow_1_r. ring. }
        rewrite E. apply Z.mod_mul. lia. }
  destruct A as [Hez Hval].
  set (n := k + e + Z.of_nat zc).
  assert (Hn : n <= 21).
  { assert (B : 10 ^ (n - 1) < 10 ^ 21).
    { destruct Heq as [[He Heq]|[He Heq]].
      - replace (n - 1) with ((k + Z.of_nat zc - 1) + e) by (subst n; lia).
        rewrite Z.pow_add_r by lia.
        assert (0 < 10 ^ e) by (apply Z.pow_pos_nonneg; lia). nia.
      - assert (P : 0 < 10 ^ (- e)) by (apply Z.pow_pos_nonneg; lia).
        apply (Z.mul_lt_mono_pos_r (10 ^ (- e))); [exact P|].
        rewrite <- Z.pow_add_r by (subst n; lia).
        replace (n - 1 + - e) with (k + Z.of_nat zc - 1) by (subst n; lia).
        nia. }
    apply Z.pow_lt_mono_r_iff in B; lia. }
  replace ((k <=? n) && (n <=? 21)) with true
    by (symmetry; apply andb_true_intro; split; apply Z.leb_le; subst n; lia).
  destruct ds as [|c ds']; [contradiction|].
  exists c, (ds' ++ replicate (Z.to_nat (n - k)) "0"%char)%list.
  split; [reflexivity|]. split.
  - change (Forall (fun c => is_digit c = true)
              ((c :: ds') ++ replicate (Z.to_nat (n - k)) "0"%char)).
    apply Forall_app; split; [exact Hd|apply Forall_replicate; reflexivity].
  - change (digits_value 10 ((c :: ds') ++ replicate (Z.to_nat (n - k)) "0"%char) = z).
    rewrite digits_value_fold, fold_step_app, fold_step_zeros, <- digits_value_fold.
    fold m. rewrite Z2Nat.id by (subst n; lia).
    replace (n - k) with (e + Z.of_nat zc) by (subst n; lia). exact Hval.
Qed.

Lemma digits_radix (l : list ascii) :
  Forall (fun c => is_digit c = true) l ->
  Forall (fun c => is_radix_digit 10 c = true) l.
Proof.
  intros D. eapply Forall_impl; [exact D|].
  intros c H. destruct (is_digit_val c H) as (d & _ & _ & R). exact R.
Qed.

Lemma parseInt10_digits (c : ascii) (l : list ascii) :
  Forall (fun c => is_digit c = true) (c :: l) ->
  parseInt10 (string_of_list_ascii (c :: l)) = of_Z (digits_value 10 (c :: l))
  /\ parseInt10 (String "-" (string_of_list_ascii (c :: l)))
     = of_Z (- digits_value 10 (c :: l)).
Proof.
  intros D. assert (Hc : is_digit c = true) by (inversion D; assumption).
  unfold parseInt10. cbn [list_ascii_of_string].
  rewrite list_ascii_of_string_of_list_ascii.
  rewrite (trimStart_head "-"%char) by reflexivity.
  rewrite trimStart_head by (apply digit_not_space; exact Hc).
  rewrite (scan_sign_digit c l Hc). cbn [scan_sign].
  rewrite (span_all _ _ (digits_radix _ D)). split; reflexivity.
Qed.

(** [Number.parseInt(n.toString(), 10)] is [n] when [n] is an integer of
    size below 10^21. *)
Lemma parseInt10_number_to_string (n : number) (z : Z) :
  Z.abs z < 10 ^ 21 ->
  number_eqb n (of_Z z) = true ->
  parseInt10 (number_to_string n) = of_Z z.
Proof.
  intros Hz Heq. destruct n as [| |m e]; try discriminate.
  destruct m as [|p|p].
  - apply number_eqb_of_Z in Heq. assert (z = 0); [|subst; reflexivity].
    destruct Heq as [[_ H]|[He H]]; [lia|].
    assert (0 < 10 ^ (- e)) by (apply Z.pow_pos_nonneg; lia). nia.
  - destruct (plain_digits p e z ltac:(lia) Heq) as (c & l & E & D & V).
    cbn [number_to_string]. rewrite E.
    rewrite (proj1 (parseInt10_digits c l D)), V. reflexivity.
  - assert (Heq' : number_eqb (Finite (Zpos p) e) (of_Z (- z)) = true).
    { apply (number_eqb_opp (Zneg p) e z 0). exact Heq. }
    destruct (plain_digits p e (- z) ltac:(lia) Heq') as (c & l & E & D & V).
    cbn [number_to_string]. rewrite E.
    rewrite (proj2 (parseInt10_digits c l D)), V, Z.opp_involutive.
    reflexivity.
Qed.

(** [Number.parseFloat(n.toString())] is a number equal to [n], for
    every [n] but NaN. *)
Lemma parseFloat_number_to_string (n : number) :
  isNaN n = false ->
  exists n', parseFloat (number_to_string n) = n'
    /\ isNaN n' = false /\ number_eqb n' n = true.
Proof.
  intros H. destruct n as [|b|m e]; [discriminate| |].
  { destruct b; eexists; (split; [vm_compute; reflexivity|]); split; reflexivity. }
  destruct m as [|p|p].
  - exists (Finite 0 0). split; [reflexivity|]. split; [reflexivity|].
    unfold number_eqb. rewrite !Z.mul_0_l. reflexivity.
  - destruct (scan_positive_to_string p e) as (M & E & c & l & Hscan & Heq & HL & Hc).
    exists (Finite M E). split; [|split; [reflexivity|exact Heq]].
    unfold parseFloat. cbn [number_to_string].
    rewrite list_ascii_of_string_of_list_ascii, HL.
    rewrite trimStart_head by (apply digit_not_space; exact Hc).
    unfold scan_decimal. rewrite (scan_sign_digit c l Hc), <- HL, Hscan. reflexivity.
  - destruct (scan_positive_to_string p e) as (M & E & c & l & Hscan & Heq & HL & Hc).
    exists (Finite (- M) E). split; [|split; [reflexivity|]].
    + unfold parseFloat. cbn [number_to_string list_ascii_of_string].
      rewrite list_ascii_of_string_of_list_ascii.
      rewrite trimStart_head by reflexivity.
      unfold scan_decimal. cbn [scan_sign]. rewrite Hscan. reflexivity.
    + apply (number_eqb_opp M E (Zpos p) e). exact Heq.
Qed.

Lemma plain_integer_spec (n : number) :
  plain_integer n = true ->
  exists z, Z.abs z < 10 ^ 21 /\ number_eqb n (of_Z z) = true.
Proof.
  unfold plain_integer, integer_value. destruct n as [| |m e]; try discriminate.
  destruct (0 <=? e) eqn:He.
  - intros H. apply Z.ltb_lt in H. apply Z.leb_le in He.
    exists (m * 10 ^ e). split; [exact H|].
    unfold number_eqb, of_Z. rewrite Z.min_r by lia.
    rewrite Z.sub_0_r, Z.sub_diag, Z.pow_0_r, Z.mul_1_r. apply Z.eqb_refl.
  - apply Z.leb_gt in He. destruct (m mod 10 ^ (- e) =? 0) eqn:Hm; [|discriminate].
    intros H. apply Z.ltb_lt in H. apply Z.eqb_eq in Hm.
    exists (m / 10 ^ (- e)). split; [exact H|].
    unfold number_eqb, of_Z. rewrite Z.min_l by lia.
    replace (e - e) with 0 by lia. replace (0 - e) with (- e) by lia.
    change (10 ^ 0) with 1. rewrite Z.mul_1_r. apply Z.eqb_eq.
    assert (P : 0 < 10 ^ (- e)) by (apply Z.pow_pos_nonneg; lia).
    rewrite Z.mul_comm. apply Z.div_exact; [lia|exact Hm].
Qed.

End Numerals.

(** [getDecimal] of what [addDecimal] stored: an equal number, for every
    number but NaN. *)
Lemma deserializeDecimal_spec (n : number) :
  isNaN n = false ->
  exists n', deserializeDecimal n = Some n' /\ number_eqb n' n = true.
Proof.
  intros H. destruct (parseFloat_number_to_string n H) as (n' & E & N & Q).
  exists n'. unfold deserializeDecimal, number_or_null. rewrite E, N. auto.
Qed.

(** [getInteger] of what [addInteger] stored: the integer itself, when
    it is one of size below 10^21. *)
Lemma deserializeInteger_spec (n : number) (z : Z) :
  Z.abs z < 10 ^ 21 ->
  number_eqb n (of_Z z) = true ->
  deserializeInteger n = Some (of_Z z).
Proof.
  intros Hz H. unfold deserializeInteger.
  rewrite (parseInt10_number_to_string n z Hz H). reflexivity.
Qed.

(** ** The value codec *)

(** What the getters read from the thing of a characteristic once a
    value literal is added to it: the format it was described with, and
    that literal under [value] and nothing else. *)
Lemma described_thing_reads (c : CharacteristicType) (l : Literal) :
  let thing := add (describe c) (IOT "value") l in
  getStringNoLocale thing (IOT "format") = Some (Characteristic.format c)
  /\ getStringNoLocale thing (IOT "value")
     = match l with StringNoLocale s => Some s | _ => None end
  /\ getInteger thing (IOT "value")
     = match l with Integer n => deserializeInteger n | _ => None end
  /\ getDecimal thing (IOT "value")
     = match l with Decimal n => deserializeDecimal n | _ => None end.
Proof.
  unfold describe.
  destruct (Characteristic.unit c) as [u|]; [destruct (String.eqb u "")|];
    destruct l; repeat split; reflexivity.
Qed.

(** A stored value the literal carries is read back as a value strictly
    equal to it. *)
Lemma read_back_storable (format : string) (v : Js.value) :
  storable format v = true ->
  exists v', read_back format v = Some v'
    /\ strict_eq v' (stored format v) = true.
Proof.
  unfold storable, read_back, stored.
  destruct (String.eqb format "string").
  { intros _. eexists. split; [reflexivity|]. cbn. apply String.eqb_refl. }
  destruct (String.eqb format "float").
  - intros H. apply negb_true_iff in H.
    destruct (deserializeDecimal_spec _ H) as (n' & -> & Q).
    exists (VNum n'). split; [reflexivity|exact Q].
  - intros H. destruct (plain_integer_spec _ H) as (z & Hz & Q).
    rewrite (deserializeInteger_spec _ z Hz Q).
    exists (VNum (of_Z z)). split; [reflexivity|].
    cbn [strict_eq]. rewrite number_eqb_sym. exact Q.
Qed.

Section Codec.

Variable argv : Argv.

(** The thing forward sync builds, read back by reverse sync's switch. *)
Lemma decode_encode (c : CharacteristicType) (thing : Thing) (w w' w'' : World) :
  supported (Characteristic.format c) = true ->
  encode argv (Characteristic.format c) (Characteristic.value c) (describe c) w
  = (Fulfilled thing, w') ->
  decode argv thing w''
  = (Fulfilled (read_back (Characteristic.format c) (Characteristic.value c)), w'').
Proof.
  rewrite supported_cases.
  unfold encode, decode, read_back, ret, addInteger, addStringNoLocale, addDecimal.
  intros S.
  destruct (String.eqb (Characteristic.format c) "bool") eqn:Eb.
  { intros [= <- _].
    destruct (described_thing_reads c
                (Integer (to_integer_literal (Characteristic.value c))))
      as (-> & _ & -> & _).
    rewrite Eb. apply String.eqb_eq in Eb. rewrite Eb. reflexivity. }
  destruct (String.eqb (Characteristic.format c) "string") eqn:Es.
  { intros [= <- _].
    destruct (described_thing_reads c
                (StringNoLocale (to_string (Characteristic.value c))))
      as (-> & -> & _).
    rewrite Eb, Es. reflexivity. }
  destruct (String.eqb (Characteristic.format c) "float") eqn:Ef.
  { intros [= <- _].
    destruct (described_thing_reads c
                (Decimal (to_decimal_literal (Characteristic.value c))))
      as (-> & _ & _ & ->).
    rewrite Eb, Es, Ef. reflexivity. }
  cbn in S. rewrite orb_false_r, !orb_assoc in S. rewrite S.
  intros [= <- _].
  destruct (described_thing_reads c
              (Integer (to_integer_literal (Characteristic.value c))))
    as (-> & _ & -> & _).
  rewrite Eb, Es, Ef, S. reflexivity.
Qed.

End Codec.

(** C7.  For a characteristic of a supported format, decoding the thing
    that forward sync encodes returns the stored value, whenever that is a
    value the literal of the format carries: any text, a decimal that is a
    number, an integer of size below 10^21 (which every value of the
    integer formats is).  So text in a [string] characteristic comes back
    as that text, a number in a [float] one as a decimal equal to it, an
    integer in one of the integer family as that integer, and a boolean in
    a [bool] one as the integer 1 or 0. *)
Theorem codec_round_trip (argv : Argv) (c : CharacteristicType)
    (thing : Thing) (w w' w'' : World) :
  supported (Characteristic.format c) = true ->
  encode argv (Characteristic.format c) (Characteristic.value c) (describe c) w
  = (Fulfilled thing, w') ->
  (storable (Characteristic.format c) (Characteristic.value c) = true ->
   exists v' : Js.value,
     decode argv thing w'' = (Fulfilled (Some v'), w'')
     /\ strict_eq v' (stored (Characteristic.format c) (Characteristic.value c))
        = true)
  /\ (forall s : string,
       Characteristic.format c = "string" -> Characteristic.value c = VStr s ->
       decode argv thing w'' = (Fulfilled (Some (VStr s)), w''))
  /\ (forall n : number,
       Characteristic.format c = "float" ->
       Characteristic.value c = VNum n -> isNaN n = false ->
       exists n' : number,
         decode argv thing w'' = (Fulfilled (Some (VNum n')), w'')
         /\ number_eqb n' n = true)
  /\ (forall z : Z,
       In (Characteristic.format c) ["int"; "uint8"; "uint16"; "uint32"; "uint64"] ->
       Characteristic.value c = VNum (of_Z z) -> Z.abs z < 10 ^ 21 ->
       decode argv thing w'' = (Fulfilled (Some (VNum (of_Z z))), w''))
  /\ (forall b : bool,
       Characteristic.format c = "bool" -> Characteristic.value c = VBool b ->
       decode argv thing w''
       = (Fulfilled (Some (VNum (of_Z (if b then 1 else 0)))), w'')).
Proof.
  intros S E.
  pose proof (decode_encode argv c thing w w' w'' S E) as D.
  split; [|split; [|split; [|split]]].
  - intros St. destruct (read_back_storable _ _ St) as (v' & R & Q).
    exists v'. rewrite D, R. auto.
  - intros s Hf Hv. rewrite D, Hf, Hv. reflexivity.
  - intros n Hf Hv Hn. rewrite D, Hf, Hv.
    destruct (deserializeDecimal_spec n Hn) as (n' & R & Q).
    exists n'. split; [|exact Q].
    change (read_back "float" (VNum n)) with (VNum <$> deserializeDecimal n).
    rewrite R. reflexivity.
  - intros z Hf Hv Hz. rewrite D, Hv.
    assert (R : read_back (Characteristic.format c) (VNum (of_Z z))
                = VNum <$> deserializeInteger (of_Z z)).
    { cbn in Hf. destruct Hf as [<-|[<-|[<-|[<-|[<-|[]]]]]]; reflexivity. }
    rewrite R, (deserializeInteger_spec (of_Z z) z Hz); [reflexivity|].
    apply number_eqb_refl. reflexivity.
  - intros b Hf Hv. rewrite D, Hf, Hv. destruct b; reflexivity.
Qed.

Lemma codec_round_trip_witness :
  decode Scenario.argv
    (add (describe (Scenario.on (VBool true))) (IOT "value") (Integer (of_Z 1)))
    (Scenario.fresh [])
  = (Fulfilled (Some (VNum (of_Z 1))), Scenario.fresh [])
  /\ exists n' : number,
       decode Scenario.argv
         (add (describe (Scenario.temperature (VNum (Finite 215 (-1)))))
            (IOT "value") (Decimal (Finite 215 (-1))))
         (Scenario.fresh [])
       = (Fulfilled (Some (VNum n')), Scenario.fresh [])
       /\ number_eqb n' (Finite 215 (-1)) = true.
Proof.
  split.
  - apply (proj2 (proj2 (proj2 (proj2
             (codec_round_trip Scenario.argv (Scenario.on (VBool true))
                (add (describe (Scenario.on (VBool true))) (IOT "value")
                   (Integer (of_Z 1)))
                (Scenario.fresh []) (Scenario.fresh []) (Scenario.fresh [])
                eq_refl eq_refl)))) true); reflexivity.
  - apply (proj1 (proj2 (proj2
             (codec_round_trip Scenario.argv
                (Scenario.temperature (VNum (Finite 215 (-1))))
                (add (describe (Scenario.temperature (VNum (Finite 215 (-1)))))
                   (IOT "value") (Decimal (Finite 215 (-1))))
                (Scenario.fresh []) (Scenario.fresh []) (Scenario.fresh [])
                eq_refl eq_refl))) (Finite 215 (-1))); reflexivity.
Defined.

(** * Further properties of the engine *)

Import Events.

(** ** Forward sync keeps to its resource *)

Section ForwardFrame.

Variable argv : Argv.

(** Either the guard ended the call, or the call set the cache entry and
    sent one write, which the pod took or refused. *)
Lemma sync_effects (device : ServiceType) (c : CharacteristicType) (w : World) :
  let url := characteristic_url argv device c in
  let w' := snd (syncCharacteristicToSolid argv device c w) in
  syncCharacteristicToSolid argv device c w = (Fulfilled None, w)
  \/ (exists thing,
        name thing = characteristic_name c
        /\ characteristics w' = <[url := c]> (characteristics w)
        /\ requests w' = (requests w ++ [Put url [thing]])%list
        /\ network w' = tail (network w)
        /\ local_writes w' = local_writes w
        /\ bus w' = bus w
        /\ ((succeeds w = true
             /\ fst (syncCharacteristicToSolid argv device c w)
                = Fulfilled (Some {| sourceIri := url; things := [thing] |})
             /\ pod w' = <[url := [thing]]> (pod w))
            \/ (succeeds w = false
                /\ fst (syncCharacteristicToSolid argv device c w)
                   = Rejected (RemoteWriteError url)
                /\ pod w' = pod w))).
Proof.
  intros url w'.
  destruct (unchanged (characteristics w !! url) c) eqn:U.
  - left. apply sync_unchanged. exact U.
  - right. destruct (sync_changed_run argv device c w U)
      as (thing & N & Hc & Hr & Hn & Hl & Hb & Hp).
    exists thing. repeat (split; [assumption|]).
    destruct (succeeds w); [left|right]; tauto.
Qed.

End ForwardFrame.

(** X1.  A characteristic's forward sync keeps to its own resource: it
    makes no local write, sends no fetch, leaves the cache entry and the
    pod record of every other URL as they were, removes no cache entry
    and no record, and sends at most one write, to its own URL.  When it
    is fulfilled with a resource, that resource is its URL and the pod
    then holds it. *)
Theorem forward_sync_keeps_to_its_resource (argv : Argv) (device : ServiceType)
    (c : CharacteristicType) (w : World) :
  local_writes (snd (syncCharacteristicToSolid argv device c w)) = local_writes w
  /\ bus (snd (syncCharacteristicToSolid argv device c w)) = bus w
  /\ (forall url' : UrlString,
       url' <> characteristic_url argv device c ->
       characteristics (snd (syncCharacteristicToSolid argv device c w)) !! url'
       = characteristics w !! url'
       /\ pod (snd (syncCharacteristicToSolid argv device c w)) !! url'
          = pod w !! url')
  /\ (forall url' : UrlString,
       (is_Some (characteristics w !! url') ->
        is_Some (characteristics (snd (syncCharacteristicToSolid argv device c w))
                   !! url'))
       /\ (is_Some (pod w !! url') ->
           is_Some (pod (snd (syncCharacteristicToSolid argv device c w)) !! url')))
  /\ (requests (snd (syncCharacteristicToSolid argv device c w)) = requests w
      \/ exists thing,
           requests (snd (syncCharacteristicToSolid argv device c w))
           = (requests w ++ [Put (characteristic_url argv device c) [thing]])%list)
  /\ (forall r : WithResourceInfo,
       fst (syncCharacteristicToSolid argv device c w) = Fulfilled (Some r) ->
       sourceIri r = characteristic_url argv device c
       /\ pod (snd (syncCharacteristicToSolid argv device c w))
            !! characteristic_url argv device c
          = Some (things r)).
Proof.
  destruct (sync_effects argv device c w)
    as [E|(thing & _ & Hc & Hr & _ & Hl & Hb & Hp)].
  - rewrite E. cbn [fst snd]. repeat split; intros; try discriminate; auto.
  - split; [exact Hl|]. split; [exact Hb|]. split; [|split; [|split]].
    + intros url' Hne. rewrite Hc. split; [apply lookup_insert_ne; congruence|].
      destruct Hp as [(_ & _ & ->)|(_ & _ & ->)]; [|reflexivity].
      apply lookup_insert_ne. congruence.
    + intros url'. split.
      * rewrite Hc. intros H. rewrite lookup_insert_is_Some'. auto.
      * destruct Hp as [(_ & _ & ->)|(_ & _ & ->)]; [|auto].
        intros H. rewrite lookup_insert_is_Some'. auto.
    + right. exists thing. exact Hr.
    + intros r Hf.
      destruct Hp as [(_ & F & ->)|(_ & F & _)]; rewrite F in Hf; [|discriminate].
      injection Hf as <-. cbn. split; [reflexivity|apply lookup_insert_eq].
Qed.

Lemma forward_sync_keeps_to_its_resource_witness :
  characteristics
    (snd (syncCharacteristicToSolid Scenario.argv (Scenario.D1 [])
            (Scenario.brightness (VNum (of_Z 50))) Scenario.synced))
    !! Scenario.on_url
  = characteristics Scenario.synced !! Scenario.on_url
  /\ pod (snd (syncCharacteristicToSolid Scenario.argv (Scenario.D1 [])
                 (Scenario.brightness (VNum (of_Z 50))) Scenario.synced))
       !! Scenario.on_url
     = pod Scenario.synced !! Scenario.on_url.
Proof.
  apply (proj1 (proj2 (proj2 (forward_sync_keeps_to_its_resource Scenario.argv
           (Scenario.D1 []) (Scenario.brightness (VNum (of_Z 50)))
           Scenario.synced))) Scenario.on_url).
  vm_compute. discriminate.
Defined.

(** ** The device record and its links *)

Section DeviceRecord.

Variable argv : Argv.
Variable device : ServiceType.

Lemma reliable_succeeds (w : World) : reliable w -> succeeds w = true.
Proof.
  unfold reliable, succeeds. destruct (network w) as [|b l]; [reflexivity|].
  intros H. apply Forall_inv in H. exact H.
Qed.

Lemma reliable_tail (w w' : World) :
  reliable w -> network w' = tail (network w) -> reliable w'.
Proof.
  unfold reliable. intros H ->. destruct (network w) as [|b l]; [exact H|].
  apply Forall_inv_tail in H. exact H.
Qed.

Lemma links_addUrl (thing : Thing) (u : UrlString) :
  links (addUrl thing (IOT "hasCharacteristic") u) = (links thing ++ [u])%list.
Proof. unfold links, getUrlAll, addUrl, add. cbn. rewrite omap_app. reflexivity. Qed.

Lemma remote_writes_put (w w' : World) (u : UrlString) (data : SolidDataset) :
  requests w' = (requests w ++ [Put u data])%list ->
  remote_writes w' = (remote_writes w ++ [(u, data)])%list.
Proof. unfold remote_writes. intros ->. rewrite omap_app. reflexivity. Qed.

(** The pod loses no record in a characteristic's sync. *)
Lemma sync_pod_mono (c : CharacteristicType) (w : World) (u : UrlString) :
  is_Some (pod w !! u) ->
  is_Some (pod (snd (syncCharacteristicToSolid argv device c w)) !! u).
Proof.
  destruct (sync_effects argv device c w)
    as [E|(thing & _ & _ & _ & _ & _ & _ & Hp)].
  - rewrite E. auto.
  - destruct Hp as [(_ & _ & ->)|(_ & _ & ->)]; [|auto].
    intros H. rewrite lookup_insert_is_Some'. auto.
Qed.

(** A sync fulfilled with a resource: the resource is the
    characteristic's URL and the pod holds a record there. *)
Lemma sync_fulfilled_some (c : CharacteristicType) (w w' : World)
    (r : WithResourceInfo) :
  syncCharacteristicToSolid argv device c w = (Fulfilled (Some r), w') ->
  sourceIri r = characteristic_url argv device c
  /\ is_Some (pod w' !! characteristic_url argv device c).
Proof.
  intros S.
  destruct (sync_effects argv device c w)
    as [E|(thing & _ & _ & _ & _ & _ & _ & Hp)].
  - rewrite E in S. discriminate.
  - rewrite S in Hp. cbn [fst snd] in Hp.
    destruct Hp as [(_ & F & ->)|(_ & F & _)]; [|discriminate].
    injection F as ->. cbn. split; [reflexivity|].
    rewrite lookup_insert_eq. eauto.
Qed.

(** Whatever the loop links is in the pod when the loop ends. *)
Lemma link_links_resolve (cs : list CharacteristicType) :
  forall (thing thing' : Thing) (w w' : World),
    link_characteristics argv device cs thing w = (Fulfilled thing', w') ->
    (forall u, In u (links thing) -> is_Some (pod w !! u)) ->
    forall u, In u (links thing') -> is_Some (pod w' !! u).
Proof.
  induction cs as [|c cs IH]; intros thing thing' w w' L H.
  - cbn in L. injection L as <- <-. exact H.
  - cbn [link_characteristics] in L. unfold bind in L.
    destruct (syncCharacteristicToSolid argv device c w) as [[res|e] w1] eqn:S;
      [|discriminate].
    assert (M : forall u, is_Some (pod w !! u) -> is_Some (pod w1 !! u)).
    { intros u Hu. pose proof (sync_pod_mono c w u Hu) as P.
      rewrite S in P. exact P. }
    apply (IH _ _ _ _ L). intros u Hu. destruct res as [r|].
    + destruct (sync_fulfilled_some c w w1 r S) as [Hr Hp].
      rewrite links_addUrl in Hu. apply in_app_or in Hu as [Hu|[<-|[]]].
      * apply M, H, Hu.
      * rewrite Hr. exact Hp.
    + apply M, H, Hu.
Qed.

Lemma links_fold (cs : list CharacteristicType) (thing : Thing) :
  links (fold_left (fun t c => addUrl t (IOT "hasCharacteristic")
                                 (characteristic_url argv device c)) cs thing)
  = (links thing ++ map (characteristic_url argv device) cs)%list.
Proof.
  revert thing. induction cs as [|c cs IH]; intros thing; cbn [fold_left map].
  - rewrite app_nil_r. reflexivity.
  - rewrite IH, links_addUrl, <- app_assoc. reflexivity.
Qed.

(** The loop on characteristics none of which is cached, with distinct
    types and a pod that answers: each one is written, cached and
    linked, in order. *)
Lemma link_fresh (cs : list CharacteristicType) :
  forall (thing : Thing) (w : World),
    NoDup (map Characteristic.type cs) ->
    (forall c, In c cs ->
       characteristics w !! characteristic_url argv device c = None) ->
    reliable w ->
    exists w',
      link_characteristics argv device cs thing w
      = (Fulfilled (fold_left (fun t c => addUrl t (IOT "hasCharacteristic")
                                            (characteristic_url argv device c))
                      cs thing), w')
      /\ reliable w'
      /\ (forall c, In c cs ->
            characteristics w' !! characteristic_url argv device c = Some c)
      /\ (forall u, ~ In u (map (characteristic_url argv device) cs) ->
            characteristics w' !! u = characteristics w !! u)
      /\ map fst (remote_writes w')
         = (map fst (remote_writes w) ++ map (characteristic_url argv device) cs)%list
      /\ local_writes w' = local_writes w.
Proof.
  induction cs as [|c cs IH]; intros thing w ND Hnone R.
  - exists w. cbn. rewrite app_nil_r. repeat split; auto. intros c [].
  - cbn [map] in ND. apply NoDup_cons in ND as [Hnotin ND].
    assert (U : unchanged (characteristics w !! characteristic_url argv device c) c
                = false).
    { rewrite (Hnone c (or_introl eq_refl)). reflexivity. }
    destruct (sync_changed_run argv device c w U)
      as (t & _ & Hc & Hr & Hn & Hl & _ & Hp).
    rewrite (reliable_succeeds w R) in Hp. destruct Hp as [Hf Hp].
    cbn [link_characteristics fold_left]. unfold bind.
    destruct (syncCharacteristicToSolid argv device c w) as [res w1].
    cbn [fst snd] in *. subst res.
    assert (Hne : forall c', In c' cs ->
              characteristic_url argv device c' <> characteristic_url argv device c).
    { intros c' Hin Heq. apply Hnotin. apply list_elem_of_In.
      rewrite <- (characteristic_url_inj argv device c' c Heq).
      apply in_map. exact Hin. }
    destruct (IH (addUrl thing (IOT "hasCharacteristic")
                    (characteristic_url argv device c)) w1 ND) as
      (w' & L & R' & Hall & Hother & Hw & Hlw).
    { intros c' Hin. rewrite Hc. rewrite lookup_insert_ne by (apply not_eq_sym, Hne, Hin).
      apply Hnone. right. exact Hin. }
    { apply (reliable_tail w w1 R Hn). }
    exists w'. split; [exact L|]. split; [exact R'|]. split; [|split; [|split]].
    + intros c' [<-|Hin]; [|apply Hall; exact Hin].
      rewrite Hother.
      * rewrite Hc. apply lookup_insert_eq.
      * intros Hin. apply in_map_iff in Hin as (c' & Heq & Hin).
        exact (Hne c' Hin Heq).
    + intros u Hu. cbn [map] in Hu.
      rewrite Hother by (intros Hin; apply Hu; right; exact Hin).
      rewrite Hc. apply lookup_insert_ne.
      intros Heq. apply Hu. left. exact Heq.
    + rewrite Hw, (remote_writes_put w w1 _ _ Hr), map_app, <- app_assoc.
      reflexivity.
    + congruence.
Qed.

End DeviceRecord.

(** X2.  When [syncDeviceToSolid] is fulfilled, the resource it returns
    is the device's URL, the pod holds the one-thing record it wrote
    there, that write is the last request sent, and every
    [hasCharacteristic] link of the record points to a resource the pod
    holds: a link is added only for a characteristic whose own write was
    awaited and fulfilled. *)
Theorem device_record_links_resolve (argv : Argv) (device : ServiceType)
    (w w1 : World) (r : WithResourceInfo) :
  syncDeviceToSolid argv device w = (Fulfilled r, w1) ->
  sourceIri r = device_url argv device
  /\ pod w1 !! device_url argv device = Some (things r)
  /\ exists thing earlier,
       things r = [thing]
       /\ name thing = device_name device
       /\ requests w1 = (earlier ++ [Put (device_url argv device) [thing]])%list
       /\ forall u, In u (links thing) -> is_Some (pod w1 !! u).
Proof.
  intros S. cbv beta zeta delta [syncDeviceToSolid] in S. unfold bind in S.
  destruct (link_characteristics argv device (Service.serviceCharacteristics device)
              (device_thing device) w) as [[thing|e] w'] eqn:L; [|discriminate].
  pose proof (link_links_resolve argv device _ _ _ _ _ L) as Hres.
  pose proof (link_characteristics_name argv device _ _ _ _ _ L) as Hname.
  unfold saveSolidDatasetAt in S. destruct (succeeds w'); [|discriminate].
  injection S as <- <-. cbn. split; [reflexivity|].
  split; [apply lookup_insert_eq|].
  exists thing, (requests w'). repeat split; try reflexivity.
  - exact Hname.
  - intros u Hu. rewrite lookup_insert_is_Some'. right.
    apply Hres; [|exact Hu]. intros u' [].
Qed.

Lemma device_record_links_resolve_witness :
  sourceIri {| sourceIri := Scenario.D1_url;
               things := [addUrl (device_thing (Scenario.D1 [Scenario.on (VBool false)]))
                            (IOT "hasCharacteristic") Scenario.on_url] |}
  = device_url Scenario.argv (Scenario.D1 [Scenario.on (VBool false)])
  /\ pod Scenario.synced
       !! device_url Scenario.argv (Scenario.D1 [Scenario.on (VBool false)])
     = Some [addUrl (device_thing (Scenario.D1 [Scenario.on (VBool false)]))
               (IOT "hasCharacteristic") Scenario.on_url]
  /\ exists thing earlier,
       [addUrl (device_thing (Scenario.D1 [Scenario.on (VBool false)]))
          (IOT "hasCharacteristic") Scenario.on_url] = [thing]
       /\ name thing = device_name (Scenario.D1 [Scenario.on (VBool false)])
       /\ requests Scenario.synced
          = (earlier
             ++ [Put (device_url Scenario.argv
                        (Scenario.D1 [Scenario.on (VBool false)])) [thing]])%list
       /\ forall u, In u (links thing) -> is_Some (pod Scenario.synced !! u).
Proof.
  apply (device_record_links_resolve Scenario.argv
           (Scenario.D1 [Scenario.on (VBool false)]) (Scenario.fresh [])
           Scenario.synced
           {| sourceIri := Scenario.D1_url;
              things := [addUrl (device_thing (Scenario.D1 [Scenario.on (VBool false)]))
                           (IOT "hasCharacteristic") Scenario.on_url] |}).
  vm_compute. reflexivity.
Defined.

(** X3.  The first full sync of a device: when none of its
    characteristics is cached, their types are distinct and no request
    fails, [syncDeviceToSolid] is fulfilled with the device's resource;
    it sends one write per characteristic, in order, and then the device
    record; the record links every characteristic, in order; the cache
    then holds every characteristic; and no local write is made. *)
Theorem first_device_sync_writes_and_links_all (argv : Argv)
    (device : ServiceType) (w : World) :
  NoDup (map Characteristic.type (Service.serviceCharacteristics device)) ->
  (forall c, In c (Service.serviceCharacteristics device) ->
     characteristics w !! characteristic_url argv device c = None) ->
  reliable w ->
  exists thing w1,
    syncDeviceToSolid argv device w
    = (Fulfilled {| sourceIri := device_url argv device; things := [thing] |}, w1)
    /\ links thing
       = map (characteristic_url argv device) (Service.serviceCharacteristics device)
    /\ (forall c, In c (Service.serviceCharacteristics device) ->
          characteristics w1 !! characteristic_url argv device c = Some c)
    /\ map fst (remote_writes w1)
       = (map fst (remote_writes w)
          ++ map (characteristic_url argv device)
               (Service.serviceCharacteristics device)
          ++ [device_url argv device])%list
    /\ local_writes w1 = local_writes w.
Proof.
  intros ND Hnone R.
  destruct (link_fresh argv device _ (device_thing device) w ND Hnone R)
    as (w' & L & R' & Hall & _ & Hw & Hlw).
  cbv beta zeta delta [syncDeviceToSolid]. unfold bind. rewrite L.
  unfold saveSolidDatasetAt. rewrite (reliable_succeeds w' R').
  do 2 eexists. split; [reflexivity|]. split; [|split; [|split]].
  - rewrite links_fold. reflexivity.
  - exact Hall.
  - unfold remote_writes at 1. cbn [requests sent]. rewrite omap_app, map_app.
    fold (remote_writes w'). rewrite Hw, <- app_assoc. reflexivity.
  - exact Hlw.
Qed.

Lemma first_device_sync_writes_and_links_all_witness :
  exists thing w1,
    syncDeviceToSolid Scenario.argv
      (Scenario.D1 [Scenario.on (VBool false); Scenario.brightness (VNum (of_Z 50))])
      (Scenario.fresh [true; true; true])
    = (Fulfilled {| sourceIri := Scenario.D1_url; things := [thing] |}, w1)
    /\ links thing = [Scenario.on_url; Scenario.brightness_url]
    /\ (forall c,
          In c [Scenario.on (VBool false); Scenario.brightness (VNum (of_Z 50))] ->
          characteristics w1
            !! characteristic_url Scenario.argv
                 (Scenario.D1 [Scenario.on (VBool false);
                               Scenario.brightness (VNum (of_Z 50))]) c
          = Some c)
    /\ map fst (remote_writes w1)
       = [Scenario.on_url; Scenario.brightness_url; Scenario.D1_url]
    /\ local_writes w1 = [].
Proof.
  apply (first_device_sync_writes_and_links_all Scenario.argv
           (Scenario.D1 [Scenario.on (VBool false);
                         Scenario.brightness (VNum (of_Z 50))])
           (Scenario.fresh [true; true; true])).
  - cbn. repeat constructor; cbn; intros H; inversion H as [|? ? ? H']; subst;
      try discriminate; inversion H'.
  - intros c _. reflexivity.
  - repeat constructor.
Defined.

(** ** The group record *)

Lemma first_of_app_skip {A} (pick : Literal -> option A) (property p : string)
    (l : list (string * Literal)) (v : Literal) :
  pick v = None ->
  first_of pick property (l ++ [(p, v)]) = first_of pick property l.
Proof.
  intros Hv. induction l as [|[q x] l IH]; cbn.
  - rewrite Hv. destruct (String.eqb p property); reflexivity.
  - rewrite IH. reflexivity.
Qed.

Lemma group_thing_contains (groupName : string) (deviceUrls : list UrlString) :
  getUrlAll (group_thing groupName deviceUrls) (IOT "contains") = deviceUrls
  /\ getStringNoLocale (group_thing groupName deviceUrls) (IOT "name")
     = Some groupName.
Proof.
  unfold group_thing.
  set (base := addStringNoLocale _ (IOT "name") groupName).
  assert (G : forall urls thing,
    getUrlAll (fold_left (fun t u => addUrl t (IOT "contains") u) urls thing)
      (IOT "contains")
    = (getUrlAll thing (IOT "contains") ++ urls)%list
    /\ getStringNoLocale
         (fold_left (fun t u => addUrl t (IOT "contains") u) urls thing)
         (IOT "name")
       = getStringNoLocale thing (IOT "name")).
  { induction urls as [|u urls IH]; intros thing; cbn [fold_left].
    - rewrite app_nil_r. auto.
    - destruct (IH (addUrl thing (IOT "contains") u)) as [-> ->]. split.
      + unfold getUrlAll, addUrl, add. cbn. rewrite omap_app, <- app_assoc.
        reflexivity.
      + unfold getStringNoLocale, addUrl, add. cbn.
        apply first_of_app_skip. reflexivity. }
  destruct (G deviceUrls base) as [-> ->]. split; reflexivity.
Qed.

(** X4.  The group record links exactly the device URLs it was given, in
    their order, and carries the group name as given.  [syncGroupToSolid]
    sends that record in one write, asked for [homeUrl/Groups/groupName]
    with the name unsanitised, makes no local write and leaves the change
    cache alone; it is fulfilled with the record it sent when the pod
    takes the write, which then holds it, and rejected with a write error
    when it does not. *)
Theorem group_record_links_the_devices (argv : Argv) (groupName : string)
    (deviceUrls : list UrlString) (w : World) :
  getUrlAll (group_thing groupName deviceUrls) (IOT "contains") = deviceUrls
  /\ getStringNoLocale (group_thing groupName deviceUrls) (IOT "name")
     = Some groupName
  /\ characteristics (snd (syncGroupToSolid argv groupName deviceUrls w))
     = characteristics w
  /\ local_writes (snd (syncGroupToSolid argv groupName deviceUrls w))
     = local_writes w
  /\ requests (snd (syncGroupToSolid argv groupName deviceUrls w))
     = (requests w
        ++ [Put (homeUrl argv +:+ "/Groups/" +:+ groupName)
              [group_thing groupName deviceUrls]])%list
  /\ (if succeeds w
      then (exists r : WithResourceInfo,
              fst (syncGroupToSolid argv groupName deviceUrls w) = Fulfilled r
              /\ things r = [group_thing groupName deviceUrls])
           /\ pod (snd (syncGroupToSolid argv groupName deviceUrls w))
              = <[homeUrl argv +:+ "/Groups/" +:+ groupName
                  := [group_thing groupName deviceUrls]]> (pod w)
      else fst (syncGroupToSolid argv groupName deviceUrls w)
           = Rejected (RemoteWriteError (homeUrl argv +:+ "/Groups/" +:+ groupName))
           /\ pod (snd (syncGroupToSolid argv groupName deviceUrls w)) = pod w).
Proof.
  destruct (group_thing_contains groupName deviceUrls) as [Hc Hn].
  split; [exact Hc|]. split; [exact Hn|].
  cbv beta zeta delta [syncGroupToSolid]. unfold saveSolidDatasetAt.
  destruct (succeeds w); cbn; repeat split; try reflexivity.
  eexists. split; reflexivity.
Qed.

(** ** Batches of local updates *)

Section Batches.

Variable argv : Argv.

Lemma each_characteristic_sync_each (update : ServiceType)
    (cs : list CharacteristicType) (w : World) :
  each_characteristic argv update cs w
  = (Fulfilled tt, sync_each argv (map (pair update) cs) w).
Proof.
  revert w. induction cs as [|c cs IH]; intros w; [reflexivity|].
  cbn [each_characteristic map]. unfold bind, detached. rewrite IH. reflexivity.
Qed.

Lemma sync_each_cons (d : ServiceType) (c : CharacteristicType)
    (l : list (ServiceType * CharacteristicType)) (w : World) :
  sync_each argv ((d, c) :: l) w
  = sync_each argv l (snd (syncCharacteristicToSolid argv d c w)).
Proof. reflexivity. Qed.

Lemma sync_each_app (l l' : list (ServiceType * CharacteristicType)) (w : World) :
  sync_each argv (l ++ l') w = sync_each argv l' (sync_each argv l w).
Proof. unfold sync_each. apply fold_left_app. Qed.

(** The listener is the syncs of its batch, one after the other; it is
    always fulfilled. *)
Lemma service_update_sync_each (updates : list ServiceType) (w : World) :
  service_update argv updates w
  = (Fulfilled tt, sync_each argv (batch updates) w).
Proof.
  revert w. induction updates as [|u updates IH]; intros w; [reflexivity|].
  cbn [service_update]. unfold bind. rewrite each_characteristic_sync_each.
  rewrite IH. unfold batch. cbn [flat_map]. rewrite sync_each_app. reflexivity.
Qed.

Lemma sync_each_other (l : list (ServiceType * CharacteristicType)) :
  forall (w : World) (u : UrlString),
    ~ In u (map (fun uc => characteristic_url argv (fst uc) (snd uc)) l) ->
    characteristics (sync_each argv l w) !! u = characteristics w !! u.
Proof.
  induction l as [|[d c] l IH]; intros w u Hu; [reflexivity|].
  rewrite sync_each_cons. cbn [map fst snd] in Hu.
  rewrite IH by (intros Hin; apply Hu; right; exact Hin).
  rewrite sync_cache.
  destruct (unchanged _ c); [reflexivity|].
  apply lookup_insert_ne. intros Heq. apply Hu. left. exact Heq.
Qed.

(** After a batch with distinct URLs and values that equal themselves,
    every characteristic of the batch finds an equal cached value. *)
Lemma sync_each_settles (l : list (ServiceType * CharacteristicType)) :
  forall w : World,
    NoDup (map (fun uc => characteristic_url argv (fst uc) (snd uc)) l) ->
    (forall uc, In uc l ->
       loose_eq (Characteristic.value (snd uc)) (Characteristic.value (snd uc))
       = true) ->
    forall uc, In uc l ->
      unchanged (characteristics (sync_each argv l w)
                   !! characteristic_url argv (fst uc) (snd uc)) (snd uc)
      = true.
Proof.
  induction l as [|[d c] l IH]; intros w ND Hv uc Hin; [destruct Hin|].
  cbn [map fst snd] in ND. apply NoDup_cons in ND as [Hnotin ND].
  rewrite sync_each_cons.
  destruct Hin as [<-|Hin].
  - cbn [fst snd]. rewrite sync_each_other
      by (intros H; apply Hnotin, list_elem_of_In, H).
    rewrite sync_cache.
    destruct (unchanged (characteristics w !! characteristic_url argv d c) c)
      eqn:U; [exact U|].
    rewrite lookup_insert_eq. cbn. apply (Hv (d, c)). left. reflexivity.
  - apply IH; [exact ND| |exact Hin].
    intros uc' H'. apply Hv. right. exact H'.
Qed.

Lemma sync_each_noop (l : list (ServiceType * CharacteristicType)) (w : World) :
  (forall uc, In uc l ->
     unchanged (characteristics w !! characteristic_url argv (fst uc) (snd uc))
       (snd uc) = true) ->
  sync_each argv l w = w.
Proof.
  induction l as [|[d c] l IH]; intros H; [reflexivity|].
  rewrite sync_each_cons.
  rewrite (sync_unchanged argv d c w (H (d, c) (or_introl eq_refl))).
  cbn [snd]. apply IH. intros uc Hin. apply H. right. exact Hin.
Qed.

End Batches.

(** X5.  The [service-update] listener is always fulfilled, whatever the
    pod answers, and delivering the same batch again changes nothing and
    sends nothing: once a batch whose characteristics address distinct
    URLs and carry values that equal themselves has been handled, each of
    them finds its value in the cache, also when its write was
    rejected. *)
Theorem service_update_again_is_noop (argv : Argv) (updates : list ServiceType)
    (w : World) :
  NoDup (batch_urls argv updates) ->
  (forall uc, In uc (batch updates) ->
     loose_eq (Characteristic.value (snd uc)) (Characteristic.value (snd uc))
     = true) ->
  fst (service_update argv updates w) = Fulfilled tt
  /\ service_update argv updates (snd (service_update argv updates w))
     = (Fulfilled tt, snd (service_update argv updates w)).
Proof.
  intros ND Hv. rewrite !service_update_sync_each. cbn [fst snd].
  split; [reflexivity|]. f_equal.
  apply sync_each_noop. apply sync_each_settles; assumption.
Qed.

Lemma service_update_again_is_noop_witness :
  fst (service_update Scenario.argv
         [Scenario.D1 [Scenario.on (VBool true); Scenario.brightness (VNum (of_Z 50))]]
         (Scenario.answering [false; false] Scenario.synced))
  = Fulfilled tt
  /\ service_update Scenario.argv
       [Scenario.D1 [Scenario.on (VBool true); Scenario.brightness (VNum (of_Z 50))]]
       (snd (service_update Scenario.argv
               [Scenario.D1 [Scenario.on (VBool true);
                             Scenario.brightness (VNum (of_Z 50))]]
               (Scenario.answering [false; false] Scenario.synced)))
     = (Fulfilled tt,
        snd (service_update Scenario.argv
               [Scenario.D1 [Scenario.on (VBool true);
                             Scenario.brightness (VNum (of_Z 50))]]
               (Scenario.answering [false; false] Scenario.synced))).
Proof.
  apply (service_update_again_is_noop Scenario.argv
           [Scenario.D1 [Scenario.on (VBool true);
                         Scenario.brightness (VNum (of_Z 50))]]
           (Scenario.answering [false; false] Scenario.synced)).
  - vm_compute. repeat constructor; cbn; intros H; inversion H as [|? ? ? H']; subst;
      try discriminate; inversion H'.
  - intros uc [<-|[<-|[]]]; reflexivity.
Defined.

(** ** Reverse sync: what a message can and cannot do *)

Section ReverseFrame.

Variable argv : Argv.

(** Only the first three characters and what follows the fourth are
    read. *)
Lemma onmessage_any (data : string) :
  onmessage argv data
  = if negb (String.eqb data "") && String.eqb (slice_to 3 data) "pub"
    then onmessage argv ("pub " +:+ slice_from 4 data)
    else ret tt.
Proof.
  unfold onmessage at 1.
  destruct (negb (String.eqb data "") && String.eqb (slice_to 3 data) "pub");
    reflexivity.
Qed.

Lemma remote_writes_get (w w' : World) (u : UrlString) :
  requests w' = (requests w ++ [Get u])%list -> remote_writes w' = remote_writes w.
Proof.
  unfold remote_writes. intros ->. rewrite omap_app. cbn. apply app_nil_r.
Qed.

(** Everything a [pub] message can lead to. *)
Lemma onmessage_pub_run (resourceUrl : UrlString) (w : World) :
  let r := fst (onmessage argv ("pub " +:+ resourceUrl) w) in
  let w' := snd (onmessage argv ("pub " +:+ resourceUrl) w) in
  pod w' = pod w
  /\ (network w' = network w \/ network w' = tail (network w))
  /\ remote_writes w' = remote_writes w
  /\ ((characteristics w' = characteristics w
       /\ (local_writes w' = local_writes w /\ bus w' = bus w
           \/ exists curr v,
                characteristics w !! resourceUrl = Some curr
                /\ local_writes w' = (local_writes w ++ [(curr, v)])%list
                /\ bus w' = tail (bus w)
                /\ (head (bus w) = Some Silent /\ r = Fulfilled tt
                    \/ head (bus w) = Some Refuses
                       /\ r = Rejected LocalWriteError)))
      \/ exists curr v v',
           characteristics w !! resourceUrl = Some curr
           /\ default (Confirms v) (head (bus w)) = Confirms v'
           /\ local_writes w' = (local_writes w ++ [(curr, v)])%list
           /\ bus w' = tail (bus w)
           /\ r = Fulfilled tt
           /\ characteristics w'
              = <[resourceUrl := Characteristic.with_value v' curr]>
                  (characteristics w))
  /\ (r = Fulfilled tt
      \/ (r = Rejected (RemoteFetchError resourceUrl)
          /\ is_Some (characteristics w !! resourceUrl)
          /\ (succeeds w = false \/ pod w !! resourceUrl = None))
      \/ (r = Rejected ThingExpectedError
          /\ exists curr data,
               characteristics w !! resourceUrl = Some curr
               /\ succeeds w = true
               /\ pod w !! resourceUrl = Some data
               /\ getThing {| sourceIri := resourceUrl; things := data |}
                    (resourceUrl +:+ "#" +:+ characteristic_name curr) = None)
      \/ (r = Rejected LocalWriteError /\ head (bus w) = Some Refuses)).
Proof.
  cbv zeta.
  destruct (onmessage argv ("pub " +:+ resourceUrl) w) as [r w'] eqn:E.
  cbn [fst snd]. rewrite onmessage_pub in E. revert E.
  unfold bind at 1, cache_get.
  destruct (characteristics w !! resourceUrl) as [curr|] eqn:Hc.
  2:{ intros [= <- <-]. repeat split; auto. }
  unfold bind at 1, getSolidDataset.
  assert (Hw : remote_writes (sent (Get resourceUrl) (pod w) w) = remote_writes w)
    by (apply (remote_writes_get w _ resourceUrl); reflexivity).
  destruct (succeeds w) eqn:Hs.
  2:{ intros [= <- <-]. cbn. repeat split; eauto 8. }
  destruct (pod w !! resourceUrl) as [data|] eqn:Hp.
  2:{ intros [= <- <-]. cbn. repeat split; eauto 8. }
  destruct (getThing _ _) as [thing|] eqn:Ht.
  2:{ intros [= <- <-]. cbn. split; [reflexivity|]. split; [auto|].
      split; [exact Hw|]. split; [auto|].
      right. right. left. split; [reflexivity|]. exists curr, data. auto. }
  destruct (decode_keeps argv thing (sent (Get resourceUrl) (pod w) w))
    as (ov & w2 & Hd & _ & K1 & K2 & K3 & K4 & K5 & K6).
  unfold bind at 1. rewrite Hd. cbn in K1, K2, K3, K4, K5, K6.
  assert (Hw2 : remote_writes w2 = remote_writes w)
    by (apply (remote_writes_get w _ resourceUrl); exact K3).
  assert (Quiet : (Fulfilled tt, w2) = (r, w') ->
            pod w' = pod w
            /\ (network w' = network w \/ network w' = tail (network w))
            /\ remote_writes w' = remote_writes w
            /\ ((characteristics w' = characteristics w
                 /\ (local_writes w' = local_writes w /\ bus w' = bus w
                     \/ exists curr0 v,
                          Some curr = Some curr0
                          /\ local_writes w' = (local_writes w ++ [(curr0, v)])%list
                          /\ bus w' = tail (bus w)
                          /\ (head (bus w) = Some Silent /\ r = Fulfilled tt
                              \/ head (bus w) = Some Refuses
                                 /\ r = Rejected LocalWriteError)))
                \/ exists curr0 v v',
                     Some curr = Some curr0
                     /\ default (Confirms v) (head (bus w)) = Confirms v'
                     /\ local_writes w' = (local_writes w ++ [(curr0, v)])%list
                     /\ bus w' = tail (bus w)
                     /\ r = Fulfilled tt
                     /\ characteristics w'
                        = <[resourceUrl := Characteristic.with_value v' curr0]>
                            (characteristics w))
            /\ (r = Fulfilled tt
                \/ (r = Rejected (RemoteFetchError resourceUrl)
                    /\ is_Some (Some curr)
                    /\ (true = false \/ Some data = None))
                \/ (r = Rejected ThingExpectedError
                    /\ exists curr0 data0,
                         Some curr = Some curr0 /\ true = true
                         /\ Some data = Some data0
                         /\ getThing {| sourceIri := resourceUrl; things := data0 |}
                              (resourceUrl +:+ "#" +:+ characteristic_name curr0)
                            = None)
                \/ (r = Rejected LocalWriteError /\ head (bus w) = Some Refuses))).
  { intros [= <- <-]. repeat split; auto. }
  destruct ov as [v|]; [|exact Quiet].
  destruct (loose_eq v (Characteristic.value curr)); cbn [negb]; [exact Quiet|].
  destruct (Characteristic.setValue curr); [|exact Quiet].
  clear Quiet. unfold bind, setValue. rewrite K6.
  assert (Hh : forall a, default (Confirms v) (head (bus w)) = a ->
                 a <> Confirms v -> head (bus w) = Some a).
  { intros a Ha Hne. destruct (head (bus w)); cbn in Ha; congruence. }
  destruct (default (Confirms v) (head (bus w))) as [v'| |] eqn:Hb; cbn;
    intros [= <- <-]; cbn; rewrite K1, K2, K4, K5.
  - split; [reflexivity|]. split; [auto|]. split.
    { unfold remote_writes. cbn. exact Hw2. }
    split; [|auto]. right. exists curr, v, v'. auto 10.
  - assert (Hr : head (bus w) = Some Silent)
      by (apply Hh; [reflexivity|discriminate]).
    split; [reflexivity|]. split; [auto|]. split.
    { unfold remote_writes. cbn. exact Hw2. }
    split; [|auto]. left. split; [reflexivity|]. right. exists curr, v.
    split; [reflexivity|]. split; [reflexivity|]. split; [reflexivity|].
    left. split; [exact Hr|reflexivity].
  - assert (Hr : head (bus w) = Some Refuses)
      by (apply Hh; [reflexivity|discriminate]).
    split; [reflexivity|]. split; [auto|]. split.
    { unfold remote_writes. cbn. exact Hw2. }
    split; [|auto 6]. left. split; [reflexivity|]. right. exists curr, v.
    split; [reflexivity|]. split; [reflexivity|]. split; [reflexivity|].
    right. split; [exact Hr|reflexivity].
Qed.

(** An unsupported or absent format decodes to [null], with a log. *)
Lemma decode_unsupported (thing : Thing) (w : World) :
  match getStringNoLocale thing (IOT "format") with
  | Some format => supported format = false
  | None => True
  end ->
  decode argv thing w
  = (Fulfilled None, snd (log argv "Unsupported format" "solid" "ERROR" w)).
Proof.
  unfold decode.
  assert (L : (log argv "Unsupported format" "solid" "ERROR" ;; ret None)%js w
              = (Fulfilled (@None Js.value),
                 snd (log argv "Unsupported format" "solid" "ERROR" w))).
  { unfold bind, log. destruct (verbose argv); reflexivity. }
  destruct (getStringNoLocale thing (IOT "format")) as [format|]; [|intros _; exact L].
  rewrite supported_cases. intros H.
  destruct (String.eqb format "bool"); [discriminate|].
  destruct (String.eqb format "string"); [discriminate|].
  destruct (String.eqb format "float"); [discriminate|].
  cbn in H. rewrite orb_false_r, !orb_assoc in H. rewrite H. exact L.
Qed.

End ReverseFrame.

Lemma with_value_same (c : CharacteristicType) :
  Characteristic.with_value (Characteristic.value c) c = c.
Proof. destruct c. reflexivity. Qed.

(** X6.  Whatever the message, the socket handler never writes to the
    pod: the pod's records and the remote writes sent are as before.  It
    adds no cache entry and removes none; it leaves every entry but that
    of the resource the message names; and that entry, if it changes,
    changes in its value only.  A message that does not start with [pub]
    changes nothing at all. *)
Theorem reverse_sync_never_writes_remotely (argv : Argv) (data : string)
    (w : World) :
  pod (snd (onmessage argv data w)) = pod w
  /\ remote_writes (snd (onmessage argv data w)) = remote_writes w
  /\ dom (characteristics (snd (onmessage argv data w))) = dom (characteristics w)
  /\ (forall url : UrlString,
       url <> slice_from 4 data ->
       characteristics (snd (onmessage argv data w)) !! url
       = characteristics w !! url)
  /\ (forall c' : CharacteristicType,
       characteristics (snd (onmessage argv data w)) !! slice_from 4 data = Some c' ->
       exists c v,
         characteristics w !! slice_from 4 data = Some c
         /\ c' = Characteristic.with_value v c)
  /\ (String.eqb (slice_to 3 data) "pub" = false ->
      onmessage argv data w = (Fulfilled tt, w)).
Proof.
  rewrite onmessage_any.
  destruct (String.eqb (slice_to 3 data) "pub");
    [|rewrite andb_false_r; cbn; repeat split; auto; intros c' H;
      exists c', (Characteristic.value c'); rewrite with_value_same; auto].
  destruct (negb (String.eqb data ""));
    [|cbn; repeat split; try discriminate; auto; intros c' H;
      exists c', (Characteristic.value c'); rewrite with_value_same; auto].
  cbn [andb].
  destruct (onmessage_pub_run argv (slice_from 4 data) w)
    as (Hp & _ & Hw & Hc & _).
  split; [exact Hp|]. split; [exact Hw|].
  destruct Hc as [[Hc _]|(curr & v & v' & Hcur & _ & _ & _ & _ & Hc)]; rewrite Hc.
  - repeat split; try discriminate; auto. intros c' H.
    exists c', (Characteristic.value c'). rewrite with_value_same. auto.
  - split; [|split; [|split; [|discriminate]]].
    + apply dom_insert_lookup_L. rewrite Hcur. eauto.
    + intros url Hne. apply lookup_insert_ne. congruence.
    + intros c'. rewrite lookup_insert_eq. intros [= <-]. eauto.
Qed.

Lemma reverse_sync_never_writes_remotely_witness :
  characteristics
    (snd (onmessage Scenario.argv ("pub " +:+ Scenario.on_url) Scenario.commanded))
    !! Scenario.brightness_url
  = characteristics Scenario.commanded !! Scenario.brightness_url
  /\ onmessage Scenario.argv "sub https://pod.example/home" Scenario.commanded
     = (Fulfilled tt, Scenario.commanded).
Proof.
  split.
  - apply (proj1 (proj2 (proj2 (proj2 (reverse_sync_never_writes_remotely
             Scenario.argv ("pub " +:+ Scenario.on_url) Scenario.commanded))))
             Scenario.brightness_url).
    vm_compute. discriminate.
  - apply (proj2 (proj2 (proj2 (proj2 (proj2 (reverse_sync_never_writes_remotely
             Scenario.argv "sub https://pod.example/home" Scenario.commanded)))))).
    reflexivity.
Defined.

(** X7.  When the device does not confirm a write, whether [setValue]
    resolves with nothing or the accessory refuses and [setValue]
    rejects, the change cache is left as it was: the cache follows only a
    value the device confirmed.  A handler whose write the accessory
    refused is rejected with the device's error. *)
Theorem unconfirmed_local_write_leaves_cache (argv : Argv) (data : string)
    (w : World) :
  head (bus w) = Some Silent \/ head (bus w) = Some Refuses ->
  characteristics (snd (onmessage argv data w)) = characteristics w
  /\ (head (bus w) = Some Refuses ->
      local_writes (snd (onmessage argv data w)) <> local_writes w ->
      fst (onmessage argv data w) = Rejected LocalWriteError).
Proof.
  intros Hb. rewrite onmessage_any.
  destruct (negb (String.eqb data "") && String.eqb (slice_to 3 data) "pub");
    [|split; [reflexivity|intros _ H; contradiction H; reflexivity]].
  destruct (onmessage_pub_run argv (slice_from 4 data) w)
    as (_ & _ & _ & Hc & _).
  destruct Hc as [[Hc Hl]|(curr & v & v' & _ & Hd & _)].
  - split; [exact Hc|]. intros Hr Hne.
    destruct Hl as [[Hl _]|(curr & v & _ & _ & _ & [[Hs _]|[_ Hrej]])].
    + contradiction.
    + rewrite Hr in Hs. discriminate.
    + exact Hrej.
  - destruct Hb as [Hb|Hb]; rewrite Hb in Hd; discriminate.
Qed.

Lemma unconfirmed_local_write_leaves_cache_witness :
  (characteristics
     (snd (onmessage Scenario.argv ("pub " +:+ Scenario.on_url) Cases.unresponsive))
   = characteristics Cases.unresponsive)
  /\ (characteristics
        (snd (onmessage Scenario.argv ("pub " +:+ Scenario.on_url) Cases.refusing))
      = characteristics Cases.refusing)
  /\ fst (onmessage Scenario.argv ("pub " +:+ Scenario.on_url) Cases.refusing)
     = Rejected LocalWriteError.
Proof.
  split; [|split].
  - apply (proj1 (unconfirmed_local_write_leaves_cache Scenario.argv
                    ("pub " +:+ Scenario.on_url) Cases.unresponsive
                    (or_introl eq_refl))).
  - apply (proj1 (unconfirmed_local_write_leaves_cache Scenario.argv
                    ("pub " +:+ Scenario.on_url) Cases.refusing
                    (or_intror eq_refl))).
  - apply (proj2 (unconfirmed_local_write_leaves_cache Scenario.argv
                    ("pub " +:+ Scenario.on_url) Cases.refusing
                    (or_intror eq_refl))).
    + reflexivity.
    + vm_compute. discriminate.
Defined.

(** X8.  How a notification for a cached resource fails.  When the
    fetch fails or the pod has no such resource, the handler is rejected
    with a [RemoteFetchError]; when the fetched record has no thing of the
    name the cached characteristic gives, it is rejected with the error of
    reading a missing thing; when the thing's format is unsupported or
    absent, the handler logs and is fulfilled.  In all three the world
    after is the world after the fetch (and the log): no local write, no
    cache change. *)
Theorem reverse_sync_failure_modes (argv : Argv) (resourceUrl : UrlString)
    (curr : CharacteristicType) (w : World) :
  characteristics w !! resourceUrl = Some curr ->
  (succeeds w = false \/ pod w !! resourceUrl = None ->
   onmessage argv ("pub " +:+ resourceUrl) w
   = (Rejected (RemoteFetchError resourceUrl),
      sent (Get resourceUrl) (pod w) w))
  /\ (forall data : SolidDataset,
       succeeds w = true ->
       pod w !! resourceUrl = Some data ->
       getThing {| sourceIri := resourceUrl; things := data |}
         (resourceUrl +:+ "#" +:+ characteristic_name curr) = None ->
       onmessage argv ("pub " +:+ resourceUrl) w
       = (Rejected ThingExpectedError, sent (Get resourceUrl) (pod w) w))
  /\ (forall (data : SolidDataset) (thing : Thing),
       succeeds w = true ->
       pod w !! resourceUrl = Some data ->
       getThing {| sourceIri := resourceUrl; things := data |}
         (resourceUrl +:+ "#" +:+ characteristic_name curr) = Some thing ->
       match getStringNoLocale thing (IOT "format") with
       | Some format => supported format = false
       | None => True
       end ->
       onmessage argv ("pub " +:+ resourceUrl) w
       = (Fulfilled tt,
          snd (log argv "Unsupported format" "solid" "ERROR"
                 (sent (Get resourceUrl) (pod w) w)))).
Proof.
  intros Hc. split; [|split].
  - intros H. rewrite onmessage_pub. unfold bind at 1, cache_get. rewrite Hc.
    unfold bind at 1, getSolidDataset.
    destruct H as [-> | ->]; [reflexivity|].
    destruct (succeeds w); reflexivity.
  - intros data Hs Hp Ht. rewrite onmessage_pub.
    unfold bind at 1, cache_get. rewrite Hc.
    unfold bind at 1, getSolidDataset. rewrite Hs, Hp, Ht. reflexivity.
  - intros data thing Hs Hp Ht Hf.
    apply (onmessage_decoded argv resourceUrl curr w _ data thing None Hc Hs Hp Ht).
    apply decode_unsupported. exact Hf.
Qed.

Lemma reverse_sync_failure_modes_witness :
  onmessage Scenario.argv ("pub " +:+ Scenario.on_url)
    (Scenario.answering [false] Scenario.switched_on)
  = (Rejected (RemoteFetchError Scenario.on_url),
     sent (Get Scenario.on_url)
       (pod (Scenario.answering [false] Scenario.switched_on))
       (Scenario.answering [false] Scenario.switched_on))
  /\ onmessage Scenario.argv ("pub " +:+ Scenario.on_url) Cases.emptied
     = (Rejected ThingExpectedError,
        sent (Get Scenario.on_url) (pod Cases.emptied) Cases.emptied)
  /\ onmessage Scenario.argv ("pub " +:+ Scenario.lock_url) Cases.locked
     = (Fulfilled tt,
        snd (log Scenario.argv "Unsupported format" "solid" "ERROR"
               (sent (Get Scenario.lock_url) (pod Cases.locked) Cases.locked))).
Proof.
  split; [|split].
  - apply (proj1 (reverse_sync_failure_modes Scenario.argv Scenario.on_url
             (Scenario.on (VBool true))
             (Scenario.answering [false] Scenario.switched_on)
             ltac:(vm_compute; reflexivity))).
    left. reflexivity.
  - apply (proj1 (proj2 (reverse_sync_failure_modes Scenario.argv Scenario.on_url
             (Scenario.on (VBool false)) Cases.emptied
             ltac:(vm_compute; reflexivity))) []).
    + reflexivity.
    + vm_compute. reflexivity.
    + reflexivity.
  - apply (proj2 (proj2 (reverse_sync_failure_modes Scenario.argv Scenario.lock_url
             Scenario.lock_control Cases.locked
             ltac:(vm_compute; reflexivity))) [describe Scenario.lock_control]
             (describe Scenario.lock_control)).
    + reflexivity.
    + vm_compute. reflexivity.
    + vm_compute. reflexivity.
    + vm_compute. reflexivity.
Defined.

(** ** The echo of the engine's own write *)

(** A value of its format's type is read back from the record as a
    value equal to it. *)
Lemma well_typed_read_back (format : string) (v : Js.value) :
  well_typed format v = true ->
  exists v', read_back format v = Some v' /\ loose_eq v' v = true.
Proof.
  unfold well_typed. intros H. apply andb_prop in H as [H T].
  apply andb_prop in H as [_ St].
  destruct (read_back_storable format v St) as (v' & R & Q).
  exists v'. split; [exact R|]. revert Q. unfold stored.
  destruct v as [b|n|s].
  - apply negb_true_iff in T. rewrite T.
    destruct (String.eqb format "float"); destruct v'; cbn;
      intros Q; try discriminate Q; exact Q.
  - apply negb_true_iff in T. rewrite T.
    destruct (String.eqb format "float"); destruct v'; cbn;
      intros Q; try discriminate Q; exact Q.
  - rewrite T. destruct v'; cbn; intros Q; try discriminate Q; exact Q.
Qed.

(** X9.  The pod's notification of the engine's own write is dropped.
    After a forward sync that wrote a characteristic whose value has the
    type of its (supported) format and is one the record carries as it is
    (text; a boolean; a number that is not NaN under [float], an integer
    of size below 10^21 under the integer formats), the notification for
    that resource fetches the record, finds the thing, decodes a value
    equal to the cached one, and stops: the handler is fulfilled, the
    only trace is the fetch, and no local write is made. *)
Theorem own_write_echo_is_dropped (argv : Argv) (device : ServiceType)
    (c : CharacteristicType) (w : World) :
  well_typed (Characteristic.format c) (Characteristic.value c) = true ->
  unchanged (characteristics w !! characteristic_url argv device c) c = false ->
  succeeds w = true ->
  succeeds (snd (syncCharacteristicToSolid argv device c w)) = true ->
  onmessage argv ("pub " +:+ characteristic_url argv device c)
    (snd (syncCharacteristicToSolid argv device c w))
  = (Fulfilled tt,
     sent (Get (characteristic_url argv device c))
       (pod (snd (syncCharacteristicToSolid argv device c w)))
       (snd (syncCharacteristicToSolid argv device c w))).
Proof.
  intros T U Hs Hs1.
  assert (S : supported (Characteristic.format c) = true).
  { unfold well_typed in T. apply andb_prop in T as [T _].
    apply andb_prop in T as [S _]. exact S. }
  destruct (sync_changed argv device c w U) as (thing & w' & E & R).
  destruct (encode_supported argv (Characteristic.format c)
              (Characteristic.value c) (describe c) w S) as [l El].
  pose proof E as E'. rewrite El in E'. injection E' as <- <-.
  set (url := characteristic_url argv device c) in *.
  set (thing := add (describe c) (IOT "value") l) in *.
  set (w1 := snd (syncCharacteristicToSolid argv device c w)) in *.
  assert (Hw1 : characteristics w1 !! url = Some c
                /\ pod w1 !! url = Some [thing]).
  { subst w1. rewrite R. unfold bind, saveSolidDatasetAt, succeeds. cbn.
    unfold succeeds in Hs. rewrite Hs. cbn.
    split; apply lookup_insert_eq. }
  destruct Hw1 as [Hc Hp].
  assert (Ht : getThing {| sourceIri := url; things := [thing] |}
                 (url +:+ "#" +:+ characteristic_name c) = Some thing).
  { unfold getThing. cbn [things sourceIri List.find].
    replace (name thing) with (characteristic_name c)
      by (symmetry; apply describe_name).
    rewrite String.eqb_refl. reflexivity. }
  rewrite (onmessage_decoded argv url c w1 _ [thing] thing _ Hc Hs1 Hp Ht
             (decode_encode argv c thing w w _ S E)).
  destruct (well_typed_read_back _ _ T) as (v' & -> & L).
  rewrite L. reflexivity.
Qed.

Lemma own_write_echo_is_dropped_witness :
  onmessage Scenario.argv ("pub " +:+ Scenario.on_url) Scenario.switched_on
  = (Fulfilled tt,
     sent (Get Scenario.on_url) (pod Scenario.switched_on) Scenario.switched_on).
Proof.
  apply (own_write_echo_is_dropped Scenario.argv (Scenario.D1 [])
           (Scenario.on (VBool true)) Scenario.synced);
    vm_compute; reflexivity.
Defined.


(** ** Runs over a pod that answers

    A run delivers the events one at a time, each handler running to its
    end before the next event is delivered: the interleaving of handlers
    at their [await]s is not part of it. *)

Section Runs.

Variable argv : Argv.

Lemma sync_preserves (device : ServiceType) (c : CharacteristicType) (w : World) :
  reliable w -> consistent w ->
  reliable (snd (syncCharacteristicToSolid argv device c w))
  /\ consistent (snd (syncCharacteristicToSolid argv device c w))
  /\ dom (characteristics w)
     ⊆ dom (characteristics (snd (syncCharacteristicToSolid argv device c w)))
  /\ exists res, fst (syncCharacteristicToSolid argv device c w) = Fulfilled res.
Proof.
  intros R C.
  destruct (sync_effects argv device c w)
    as [E|(thing & N & Hc & _ & Hn & _ & _ & Hp)].
  - rewrite E. cbn [fst snd]. repeat split; eauto.
  - rewrite (reliable_succeeds w R) in Hp.
    destruct Hp as [(_ & Hf & Hp)|(F & _)]; [|discriminate].
    split; [exact (reliable_tail w _ R Hn)|]. split; [|split; [|eauto]].
    + intros url' c' H. rewrite Hc in H. rewrite Hp.
      destruct (decide (characteristic_url argv device c = url')) as [<-|Hne].
      * rewrite lookup_insert_eq in H. injection H as <-.
        exists [thing], thing. split; [apply lookup_insert_eq|].
        unfold getThing. cbn [things sourceIri List.find].
        rewrite N, String.eqb_refl. reflexivity.
      * rewrite lookup_insert_ne in H by exact Hne.
        rewrite lookup_insert_ne by exact Hne. apply C. exact H.
    + rewrite Hc. apply dom_insert_subseteq.
Qed.

(** Forward sync does not use the device bus. *)
Lemma sync_bus (device : ServiceType) (c : CharacteristicType) (w : World) :
  bus (snd (syncCharacteristicToSolid argv device c w)) = bus w.
Proof.
  destruct (sync_effects argv device c w)
    as [E|(thing & _ & _ & _ & _ & _ & Hb & _)]; [rewrite E; reflexivity|exact Hb].
Qed.

Lemma sync_each_preserves (l : list (ServiceType * CharacteristicType)) :
  forall w : World,
    reliable w -> consistent w ->
    reliable (sync_each argv l w) /\ consistent (sync_each argv l w)
    /\ dom (characteristics w) ⊆ dom (characteristics (sync_each argv l w))
    /\ bus (sync_each argv l w) = bus w.
Proof.
  induction l as [|[d c] l IH]; intros w R C; [cbn; auto|].
  rewrite sync_each_cons.
  destruct (sync_preserves d c w R C) as (R1 & C1 & D1 & _).
  destruct (IH _ R1 C1) as (R2 & C2 & D2 & B2).
  split; [exact R2|]. split; [exact C2|]. split; [etrans; eassumption|].
  rewrite B2. apply sync_bus.
Qed.

Lemma obliging_tail (w w' : World) :
  obliging w -> bus w' = bus w \/ bus w' = tail (bus w) -> obliging w'.
Proof.
  unfold obliging. intros H [-> | ->]; [exact H|].
  destruct (bus w) as [|a l]; [exact H|].
  apply Forall_inv_tail in H. exact H.
Qed.

Lemma obliging_head (w : World) : obliging w -> head (bus w) <> Some Refuses.
Proof.
  unfold obliging. destruct (bus w) as [|a l]; [discriminate|].
  intros H [= ->]. apply Forall_inv in H. contradiction.
Qed.

(** Over such a world no message is rejected. *)
Lemma onmessage_preserves (data : string) (w : World) :
  reliable w -> obliging w -> consistent w ->
  reliable (snd (onmessage argv data w))
  /\ obliging (snd (onmessage argv data w))
  /\ consistent (snd (onmessage argv data w))
  /\ dom (characteristics w) ⊆ dom (characteristics (snd (onmessage argv data w)))
  /\ fst (onmessage argv data w) = Fulfilled tt.
Proof.
  intros R O C. rewrite onmessage_any.
  destruct (negb (String.eqb data "") && String.eqb (slice_to 3 data) "pub");
    [|cbn; auto].
  set (url := slice_from 4 data).
  destruct (onmessage_pub_run argv url w) as (Hp & Hn & _ & Hc & Hr).
  split; [|split; [|split; [|split]]].
  - destruct Hn as [Hn|Hn]; [unfold reliable; rewrite Hn; exact R|].
    exact (reliable_tail w _ R Hn).
  - apply (obliging_tail w _ O).
    destruct Hc as [[_ [[_ Hb]|(curr & v & _ & _ & Hb & _)]]
                   |(curr & v & v' & _ & _ & _ & Hb & _)]; auto.
  - intros url' c' H. rewrite Hp.
    destruct Hc as [[Hc _]|(curr & v & v' & Hcur & _ & _ & _ & _ & Hc)];
      rewrite Hc in H.
    + apply C. exact H.
    + destruct (decide (url = url')) as [<-|Hne].
      * rewrite lookup_insert_eq in H. injection H as <-.
        exact (C url curr Hcur).
      * rewrite lookup_insert_ne in H by exact Hne. apply C. exact H.
  - destruct Hc as [[Hc _]|(curr & v & v' & Hcur & _ & _ & _ & _ & Hc)]; rewrite Hc;
      [reflexivity|apply dom_insert_subseteq].
  - destruct Hr as [Hr|[(_ & [c0 Hc0] & Hf)
                       |[(_ & curr & data0 & Hc0 & _ & Hp0 & Ht)|[_ Hb]]]].
    + exact Hr.
    + destruct (C url c0 Hc0) as (d & t & Hd & _).
      rewrite (reliable_succeeds w R), Hd in Hf. destruct Hf; discriminate.
    + destruct (C url curr Hc0) as (d & t & Hd & Ht').
      rewrite Hp0 in Hd. injection Hd as <-. rewrite Ht in Ht'. discriminate.
    + destruct (obliging_head w O Hb).
Qed.

Lemma run_preserves (events : list Event) :
  forall w : World,
    reliable w -> obliging w -> consistent w ->
    reliable (run argv events w) /\ obliging (run argv events w)
    /\ consistent (run argv events w)
    /\ dom (characteristics w) ⊆ dom (characteristics (run argv events w)).
Proof.
  induction events as [|e events IH]; intros w R O C; [cbn; auto|].
  cbn [run].
  assert (H : reliable (snd (handle argv e w)) /\ obliging (snd (handle argv e w))
              /\ consistent (snd (handle argv e w))
              /\ dom (characteristics w)
                 ⊆ dom (characteristics (snd (handle argv e w)))).
  { destruct e as [updates|data]; cbn [handle].
    - rewrite service_update_sync_each. cbn [snd].
      destruct (sync_each_preserves (batch updates) w R C) as (R1 & C1 & D1 & B1).
      split; [exact R1|]. split; [|auto].
      apply (obliging_tail w _ O). auto.
    - unfold detached. cbn [snd].
      destruct (onmessage_preserves data w R O C) as (R1 & O1 & C1 & D1 & _). auto. }
  destruct H as (R1 & O1 & C1 & D1). destruct (IH _ R1 O1 C1) as (R2 & O2 & C2 & D2).
  split; [exact R2|]. split; [exact O2|]. split; [exact C2|]. etrans; eassumption.
Qed.

End Runs.

(** X10.  Take a run in which each event is handled to its end before
    the next one is delivered, over a pod that answers every request and
    a device that refuses no write.  From a world where every cached
    resource is in the pod with the thing reverse sync looks for (a world
    with an empty cache, for one), any sequence of local update batches
    and socket messages leads to such a world again.  No cache entry is
    ever removed; and in the world reached, the handler of any message is
    fulfilled and so is any characteristic's forward sync. *)
Theorem reliable_runs_stay_consistent (argv : Argv) (events : list Event)
    (w : World) :
  reliable w -> obliging w -> consistent w ->
  reliable (run argv events w)
  /\ obliging (run argv events w)
  /\ consistent (run argv events w)
  /\ dom (characteristics w) ⊆ dom (characteristics (run argv events w))
  /\ (forall data : string,
       fst (onmessage argv data (run argv events w)) = Fulfilled tt)
  /\ (forall (device : ServiceType) (c : CharacteristicType),
       exists res,
         fst (syncCharacteristicToSolid argv device c (run argv events w))
         = Fulfilled res).
Proof.
  intros R O C. destruct (run_preserves argv events w R O C) as (R' & O' & C' & D').
  split; [exact R'|]. split; [exact O'|]. split; [exact C'|]. split; [exact D'|].
  split.
  - intros data. apply (onmessage_preserves argv data _ R' O' C').
  - intros device c. apply (sync_preserves argv device c _ R' C').
Qed.

Lemma reliable_runs_stay_consistent_witness :
  reliable (run Scenario.argv
              [ServiceUpdate [Scenario.D1 [Scenario.on (VBool true)]];
               Message ("pub " +:+ Scenario.on_url)]
              (Scenario.fresh []))
  /\ obliging (run Scenario.argv
                 [ServiceUpdate [Scenario.D1 [Scenario.on (VBool true)]];
                  Message ("pub " +:+ Scenario.on_url)]
                 (Scenario.fresh []))
  /\ consistent (run Scenario.argv
                   [ServiceUpdate [Scenario.D1 [Scenario.on (VBool true)]];
                    Message ("pub " +:+ Scenario.on_url)]
                   (Scenario.fresh []))
  /\ dom (characteristics (Scenario.fresh []))
     ⊆ dom (characteristics
              (run Scenario.argv
                 [ServiceUpdate [Scenario.D1 [Scenario.on (VBool true)]];
                  Message ("pub " +:+ Scenario.on_url)]
                 (Scenario.fresh [])))
  /\ (forall data : string,
       fst (onmessage Scenario.argv data
              (run Scenario.argv
                 [ServiceUpdate [Scenario.D1 [Scenario.on (VBool true)]];
                  Message ("pub " +:+ Scenario.on_url)]
                 (Scenario.fresh [])))
       = Fulfilled tt)
  /\ (forall (device : ServiceType) (c : CharacteristicType),
       exists res,
         fst (syncCharacteristicToSolid Scenario.argv device c
                (run Scenario.argv
                   [ServiceUpdate [Scenario.D1 [Scenario.on (VBool true)]];
                    Message ("pub " +:+ Scenario.on_url)]
                   (Scenario.fresh [])))
         = Fulfilled res).
Proof.
  apply (reliable_runs_stay_consistent Scenario.argv
           [ServiceUpdate [Scenario.D1 [Scenario.on (VBool true)]];
            Message ("pub " +:+ Scenario.on_url)]
           (Scenario.fresh [])).
  - constructor.
  - constructor.
  - intros url c H. cbn in H. rewrite lookup_empty in H. discriminate.
Defined.

(** ** Resource URLs by kind *)

Lemma kinds_apart (argv : Argv) (device device' : ServiceType)
    (c : CharacteristicType) (groupName : string) :
  characteristic_url argv device c <> device_url argv device'
  /\ characteristic_url argv device c <> homeUrl argv +:+ "/Groups/" +:+ groupName
  /\ device_url argv device' <> homeUrl argv +:+ "/Groups/" +:+ groupName.
Proof.
  unfold characteristic_url, device_url.
  repeat split; intros H; apply (inj (String.app _)) in H;
    cbv [String.append] in H; discriminate.
Qed.

(** X11.  Resources of different kinds never share a URL: whatever the
    home URL, the unique ids, the types and the group name are, a
    characteristic's resource, a device's resource and the group's
    resource are three different URLs, so a write of one kind never
    replaces a record of another. *)
Theorem resource_kinds_never_collide (argv : Argv) (device device' : ServiceType)
    (c : CharacteristicType) (groupName : string) :
  characteristic_url argv device c <> device_url argv device'
  /\ characteristic_url argv device c <> homeUrl argv +:+ "/Groups/" +:+ groupName
  /\ device_url argv device' <> homeUrl argv +:+ "/Groups/" +:+ groupName.
Proof. apply kinds_apart. Qed.

(** ** Full sync over a pod that answers *)

Section FullSync.

Variable argv : Argv.
Variable device : ServiceType.

Lemma link_preserves (cs : list CharacteristicType) :
  forall (thing : Thing) (w : World),
    reliable w -> consistent w ->
    characteristics w !! device_url argv device = None ->
    exists thing' w',
      link_characteristics argv device cs thing w = (Fulfilled thing', w')
      /\ reliable w' /\ consistent w'
      /\ characteristics w' !! device_url argv device = None
      /\ dom (characteristics w) ⊆ dom (characteristics w').
Proof.
  induction cs as [|c cs IH]; intros thing w R C Hd.
  - exists thing, w. cbn. auto.
  - cbn [link_characteristics]. unfold bind.
    destruct (sync_preserves argv device c w R C) as (R1 & C1 & D1 & res & F).
    pose proof (sync_cache argv device c w) as Hc.
    destruct (syncCharacteristicToSolid argv device c w) as [r w1].
    cbn [fst snd] in *. subst r.
    assert (Hd1 : characteristics w1 !! device_url argv device = None).
    { rewrite Hc. destruct (unchanged _ c); [exact Hd|].
      rewrite lookup_insert_ne; [exact Hd|].
      apply (kinds_apart argv device device c ""). }
    destruct (IH match res with
                 | Some r => addUrl thing (IOT "hasCharacteristic") (sourceIri r)
                 | None => thing
                 end w1 R1 C1 Hd1) as (thing' & w' & L & R' & C' & Hd' & D').
    exists thing', w'. split; [exact L|]. repeat split; auto.
    etrans; eassumption.
Qed.

End FullSync.

(** X12.  Over a pod that answers, a full device sync keeps the world
    consistent: from a world where every cached resource is in the pod
    with its thing, and where the device's own URL is not a cache key,
    [syncDeviceToSolid] is fulfilled and leads to such a world again,
    with no cache entry removed.  So the startup sync leaves reverse sync
    a cache whose every entry it can fetch and read. *)
Theorem full_sync_keeps_consistency (argv : Argv) (device : ServiceType)
    (w : World) :
  reliable w -> consistent w ->
  characteristics w !! device_url argv device = None ->
  (exists r, fst (syncDeviceToSolid argv device w) = Fulfilled r)
  /\ reliable (snd (syncDeviceToSolid argv device w))
  /\ consistent (snd (syncDeviceToSolid argv device w))
  /\ dom (characteristics w)
     ⊆ dom (characteristics (snd (syncDeviceToSolid argv device w))).
Proof.
  intros R C Hd.
  destruct (link_preserves argv device (Service.serviceCharacteristics device)
              (device_thing device) w R C Hd)
    as (thing & w' & L & R' & C' & Hd' & D').
  cbv beta zeta delta [syncDeviceToSolid]. unfold bind. rewrite L.
  unfold saveSolidDatasetAt. rewrite (reliable_succeeds w' R'). cbn [fst snd].
  split; [eauto|]. split; [|split; [|exact D']].
  - apply (reliable_tail w' _ R'). reflexivity.
  - intros url c H. cbn in H |- *.
    destruct (decide (device_url argv device = url)) as [<-|Hne].
    + rewrite Hd' in H. discriminate.
    + rewrite lookup_insert_ne by exact Hne. apply C'. exact H.
Qed.

Lemma full_sync_keeps_consistency_witness :
  (exists r,
     fst (syncDeviceToSolid Scenario.argv
            (Scenario.D1 [Scenario.on (VBool false); Scenario.lock_control])
            (Scenario.fresh []))
     = Fulfilled r)
  /\ reliable (snd (syncDeviceToSolid Scenario.argv
                      (Scenario.D1 [Scenario.on (VBool false); Scenario.lock_control])
                      (Scenario.fresh [])))
  /\ consistent (snd (syncDeviceToSolid Scenario.argv
                        (Scenario.D1 [Scenario.on (VBool false);
                                      Scenario.lock_control])
                        (Scenario.fresh [])))
  /\ dom (characteristics (Scenario.fresh []))
     ⊆ dom (characteristics
              (snd (syncDeviceToSolid Scenario.argv
                      (Scenario.D1 [Scenario.on (VBool false);
                                    Scenario.lock_control])
                      (Scenario.fresh [])))).
Proof.
  apply (full_sync_keeps_consistency Scenario.argv
           (Scenario.D1 [Scenario.on (VBool false); Scenario.lock_control])
           (Scenario.fresh [])).
  - constructor.
  - intros url c H. cbn in H. rewrite lookup_empty in H. discriminate.
  - reflexivity.
Defined.

(** ** Local writes and what is written *)

(** X13.  A message leads to at most one local write, and only for the
    cached characteristic of the resource it names, with a decoded value
    that differs (by [!=]) from the cached value and equals itself: the
    device is never asked to take NaN, nor a value it already has. *)
Theorem local_write_only_of_a_changed_value (argv : Argv) (data : string)
    (w : World) :
  local_writes (snd (onmessage argv data w)) = local_writes w
  \/ exists curr v,
       characteristics w !! slice_from 4 data = Some curr
       /\ local_writes (snd (onmessage argv data w))
          = (local_writes w ++ [(curr, v)])%list
       /\ loose_eq v (Characteristic.value curr) = false
       /\ loose_eq v v = true.
Proof.
  rewrite onmessage_any.
  destruct (negb (String.eqb data "") && String.eqb (slice_to 3 data) "pub");
    [|left; reflexivity].
  destruct (characteristics w !! slice_from 4 data) as [curr|] eqn:Hc.
  - destruct (onmessage_outcomes argv (slice_from 4 data) curr w Hc)
      as [[H _]|(v & Hs & Hl & Hw & _)]; [left; exact H|].
    right. exists curr, v. auto.
  - left. rewrite onmessage_pub. unfold bind, cache_get. rewrite Hc. reflexivity.
Qed.

(** ** Sanitised names *)

Lemma replace_non_letters_letters (s : string) :
  Forall (fun a => is_letter a = true)
    (list_ascii_of_string (replace_non_letters s)).
Proof.
  induction s as [|a s IH]; cbn; [constructor|].
  destruct (is_letter a) eqn:E; [|exact IH].
  cbn. constructor; assumption.
Qed.

Lemma replace_non_letters_fixed (s : string) :
  Forall (fun a => is_letter a = true) (list_ascii_of_string s) ->
  replace_non_letters s = s.
Proof.
  induction s as [|a s IH]; cbn; [reflexivity|].
  intros H. inversion H as [|? ? Ha Hs]; subst.
  rewrite Ha, (IH Hs). reflexivity.
Qed.

(** X14.  The sanitising of names ([replace(/[^A-Za-z]/g, "")]) yields
    ASCII letters only, never lengthens a name, leaves a name made of
    letters as it is, and is therefore idempotent; it works through a
    concatenation piece by piece. *)
Theorem sanitised_names_are_letters (s s' : string) :
  Forall (fun a => is_letter a = true)
    (list_ascii_of_string (replace_non_letters s))
  /\ (String.length (replace_non_letters s) <= String.length s)%nat
  /\ replace_non_letters (replace_non_letters s) = replace_non_letters s
  /\ replace_non_letters (s +:+ s')
     = replace_non_letters s +:+ replace_non_letters s'.
Proof.
  split; [apply replace_non_letters_letters|]. split; [|split].
  - induction s as [|a s IH]; cbn; [lia|].
    destruct (is_letter a); cbn; lia.
  - apply replace_non_letters_fixed, replace_non_letters_letters.
  - induction s as [|a s IH]; [reflexivity|].
    cbv [String.append] in *. cbn [replace_non_letters]. fold String.append in *.
    destruct (is_letter a); [|exact IH].
    cbv [String.append]. fold String.append. rewrite IH. reflexivity.
Qed.

(** ** The record of a characteristic *)

(** X15.  The thing forward sync builds for a characteristic can be read
    back attribute by attribute: it is named after the characteristic, is
    typed as a [Characteristic], and the getters return its description,
    format, type, uuid, its read and write flags as 1 or 0, its unit when
    it has a non-empty one, and its numeric id as [getInteger] reads the
    literal of it: the id itself when it is an integer of size below
    10^21.  No attribute hides another, whatever the format and the value
    are. *)
Theorem written_record_describes_characteristic (argv : Argv)
    (c : CharacteristicType) (thing : Thing) (w w' : World) :
  encode argv (Characteristic.format c) (Characteristic.value c) (describe c) w
  = (Fulfilled thing, w') ->
  name thing = characteristic_name c
  /\ getUrlAll thing RDF_type = [IOT "Characteristic"]
  /\ getStringNoLocale thing (IOT "desc") = Some (Characteristic.description c)
  /\ getStringNoLocale thing (IOT "format") = Some (Characteristic.format c)
  /\ getStringNoLocale thing (IOT "type") = Some (Characteristic.type c)
  /\ getStringNoLocale thing (IOT "uuid") = Some (Characteristic.uuid c)
  /\ getInteger thing (IOT "id") = deserializeInteger (Characteristic.iid c)
  /\ getInteger thing (IOT "canRead")
     = Some (of_Z (if Characteristic.canRead c then 1 else 0))
  /\ getInteger thing (IOT "canWrite")
     = Some (of_Z (if Characteristic.canWrite c then 1 else 0))
  /\ getStringNoLocale thing (IOT "unit")
     = match Characteristic.unit c with
       | Some u => if String.eqb u "" then None else Some u
       | None => None
       end
  /\ (forall z : Z,
       Z.abs z < 10 ^ 21 ->
       number_eqb (Characteristic.iid c) (of_Z z) = true ->
       getInteger thing (IOT "id") = Some (of_Z z)).
Proof.
  intros E.
  assert (H : thing = describe c
              \/ exists l, thing = add (describe c) (IOT "value") l).
  { destruct (supported (Characteristic.format c)) eqn:S.
    - destruct (encode_supported argv _ (Characteristic.value c) (describe c) w S)
        as [l El].
      rewrite El in E. injection E as <- _. eauto.
    - rewrite (encode_unsupported argv _ _ _ _ S) in E. injection E as <- _. auto. }
  assert (Hid : getInteger thing (IOT "id")
                = deserializeInteger (Characteristic.iid c)).
  { unfold describe in H.
    destruct (Characteristic.unit c) as [u|]; [destruct (String.eqb u "")|];
      destruct H as [->|[l ->]]; try destruct l; reflexivity. }
  split.
  { destruct H as [->|[l ->]]; apply describe_name. }
  do 5 (split; [unfold describe in H;
    destruct (Characteristic.unit c) as [u|]; [destruct (String.eqb u "")|];
      destruct H as [->|[l ->]]; try destruct l; reflexivity|]).
  split; [exact Hid|].
  do 2 (split; [unfold describe in H;
    destruct (Characteristic.unit c) as [u|]; [destruct (String.eqb u "")|];
      destruct H as [->|[l ->]]; try destruct l;
      destruct (Characteristic.canRead c), (Characteristic.canWrite c);
      reflexivity|]).
  split.
  { unfold describe in H.
    destruct (Characteristic.unit c) as [u|]; [destruct (String.eqb u "") eqn:Eu|];
      destruct H as [->|[l ->]]; try destruct l;
      unfold getStringNoLocale; cbn; rewrite ?Eu; reflexivity. }
  intros z Hz Hq. rewrite Hid. apply deserializeInteger_spec; assumption.
Qed.

Lemma written_record_describes_characteristic_witness :
  name (add (describe (Scenario.brightness (VNum (of_Z 50)))) (IOT "value")
          (Integer (of_Z 50)))
  = characteristic_name (Scenario.brightness (VNum (of_Z 50)))
  /\ getStringNoLocale
       (add (describe (Scenario.brightness (VNum (of_Z 50)))) (IOT "value")
          (Integer (of_Z 50))) (IOT "unit")
     = Some "percentage".
Proof.
  pose proof (written_record_describes_characteristic Scenario.argv
                (Scenario.brightness (VNum (of_Z 50)))
                (add (describe (Scenario.brightness (VNum (of_Z 50)))) (IOT "value")
                   (Integer (of_Z 50)))
                (Scenario.fresh []) (Scenario.fresh []) eq_refl) as H.
  split; [exact (proj1 H)|].
  exact (proj1 (proj2 (proj2 (proj2 (proj2 (proj2 (proj2 (proj2 (proj2
           (proj2 H)))))))))).
Defined.
